(** * Streaming time-series dashboard: a shallow embedding of its core

    The development follows the TypeScript sources:
    - [lib/types.ts]              data points, viewports, chart bounds;
    - [lib/dataGenerator.ts]      [DataGenerator], [aggregateData], [filterData];
    - [lib/canvasUtils.ts]        [dataToCanvas], [canvasToData], [calculateViewport];
    - [hooks/useDataStream.ts]    the bounded sliding window of samples;
    - [hooks/useVirtualization.ts] the visible window of a long list;
    - [hooks/useChartRenderer.ts], [components/charts/ScatterPlot.tsx]
                                  the strided (level-of-detail) drawing loops;
    - [components/providers/DataProvider.tsx] the filter/aggregation pipeline.

    Numbers.  A JavaScript [number] that holds a timestamp, a length, an index
    or a count is an integer ([Z] or [nat]); every other [number] (values,
    pixels, padding) is an exact rational ([Q]).  Rounding error, NaN and the
    infinities of IEEE doubles are outside the model.  The number of
    arguments an engine accepts in one call is a parameter (module
    [Engine]). *)

From Stdlib Require Import ZArith QArith Qround Qminmax Qfield.
From Stdlib Require Import Ascii String List Bool Lia Lqa.
From Stdlib Require Import Sorting.Permutation Sorting.Sorted.
From Stdlib Require Import DecimalString.
From Stdlib Require DecimalPos DecimalZ.
Import ListNotations.

Local Open Scope Z_scope.

(** ** The JavaScript runtime pieces the sources rely on *)

Module JS.

(** [Math.floor], [Math.ceil] and [Math.round] (ties towards +infinity). *)
Definition Math_floor (x : Q) : Z := Qfloor x.
Definition Math_ceil (x : Q) : Z := Qceiling x.
Definition Math_round (x : Q) : Z := Qfloor (x + (1 # 2)).

(** [Math.min(v, ...vs)] and [Math.max(v, ...vs)] on a spread, non-empty
    argument list, on an engine that takes any number of arguments; the
    limit of a real engine is modelled in [Engine.spread]. *)
Definition Math_min (v : Q) (vs : list Q) : Q := fold_left Qmin vs v.
Definition Math_max (v : Q) (vs : list Q) : Q := fold_left Qmax vs v.

(** [values.reduce((a, b) => a + b, 0)]: the exact sum; the rounding of
    each addition of doubles is outside the model. *)
Definition sum (vs : list Q) : Q := fold_left Qplus vs 0%Q.

(** [Number.MAX_SAFE_INTEGER]: every integer up to it is a [number], and
    the sum of two such integers that does not exceed it is exact. *)
Definition MAX_SAFE_INTEGER : Z := 2 ^ 53 - 1.

(** [Array.prototype.slice(start, end)]: a negative bound counts from the
    end of the array, and both bounds are clamped to [0, length]. *)
Definition relative_index (len k : Z) : Z :=
  if k <? 0 then Z.max (len + k) 0 else Z.min k len.

Definition slice {A} (l : list A) (start : Z) (stop : option Z) : list A :=
  let len := Z.of_nat (length l) in
  let k := relative_index len start in
  let final := match stop with
               | None => len
               | Some e => relative_index len e
               end in
  firstn (Z.to_nat (final - k)) (skipn (Z.to_nat k) l).

(** What a call can do: return a value or throw. *)
Inductive Error := TypeError | RangeError | ConfigurationError.

Inductive Outcome (A : Type) :=
| Returned (a : A)
| Thrown (e : Error).
Arguments Returned {A} a.
Arguments Thrown {A} e.

Definition obind {A B} (m : Outcome A) (f : A -> Outcome B) : Outcome B :=
  match m with
  | Returned a => f a
  | Thrown e => Thrown e
  end.

(** A JavaScript [Map<number, V>]: keys in insertion order. *)
Definition Map (V : Type) := list (Z * V).

Fixpoint Map_has {V} (k : Z) (m : Map V) : bool :=
  match m with
  | [] => false
  | (k', _) :: m' => (k =? k') || Map_has k m'
  end.

Fixpoint Map_get {V} (k : Z) (m : Map V) : option V :=
  match m with
  | [] => None
  | (k', v) :: m' => if k =? k' then Some v else Map_get k m'
  end.

(** [m.set(k, v)]: an existing key keeps its position, a new key goes last. *)
Fixpoint Map_set {V} (k : Z) (v : V) (m : Map V) : Map V :=
  match m with
  | [] => [(k, v)]
  | (k', v') :: m' =>
      if k =? k' then (k', v) :: m' else (k', v') :: Map_set k v m'
  end.

(** [Array.prototype.sort] with the comparator [(a, b) => key a - key b]:
    a stable sort, here by insertion. *)
Section Sort.
Context {A : Type} (key : A -> Z).

Fixpoint insert (x : A) (l : list A) : list A :=
    match l with
    | [] => [x]
    | y :: l' => if key x <=? key y then x :: y :: l' else y :: insert x l'
    end.

Fixpoint sort (l : list A) : list A :=
    match l with
    | [] => []
    | x :: l' => insert x (sort l')
    end.
End Sort.

End JS.

(** ** [lib/types.ts] *)

Inductive Metadata :=
| SensorMeta (quality : string) (source : string)
| BucketMeta (count : nat) (min max avg : Q).

Record DataPoint := mkDataPoint {
  timestamp : Z;
  value : Q;
  category : string;
  metadata : option Metadata
}.

Record TimeRange := { range_start : Z; range_end : Z }.

Inductive AggregationPeriod := P1min | P5min | P1hour.

Record FilterOptions := {
  categories : list string;
  minValue : option Q;
  maxValue : option Q;
  timeRange : option TimeRange
}.

Record ChartBounds := { bx : Q; by_ : Q; width : Q; height : Q }.

Record Viewport := { xMin : Q; xMax : Q; yMin : Q; yMax : Q }.

(** Strict comparison of numbers, as booleans. *)
Definition Qltb (x y : Q) : bool := negb (Qle_bool y x).
Definition Qgtb (x y : Q) : bool := Qltb y x.

(** ** [lib/dataGenerator.ts]: class [DataGenerator] *)

Module DataGenerator.

Record t := {
  baseTime : Z;
  categories : list string;
  valueRange : Q * Q;          (* { min, max } *)
  trend : Q
}.

(** [constructor()]: it takes no argument; [now] is [Date.now()]. *)
Definition new (now : Z) : t :=
  {| baseTime := now;
     categories := ["temperature"; "pressure"; "humidity"; "voltage"; "current"]%string;
     valueRange := (0, 100)%Q;
     trend := 0%Q |}.

Definition setValueRange (min max : Q) (g : t) : t :=
  {| baseTime := baseTime g; categories := categories g;
     valueRange := (min, max); trend := trend g |}.

Definition setCategories (cs : list string) (g : t) : t :=
  {| baseTime := baseTime g; categories := cs;
     valueRange := valueRange g; trend := trend g |}.

Definition reset (now : Z) (g : t) : t :=
  {| baseTime := now; categories := categories g;
     valueRange := valueRange g; trend := 0%Q |}.

Section Methods.

(** The host: [Math_random n] is the [n]-th value [Math.random()] returns,
    [Math_sin] is [Math.sin]. *)
Variable Math_random : nat -> Q.
Variable Math_sin : Q -> Q.

(** Methods run on the generator and on the number of random draws made so
    far. *)
Definition Gen (A : Type) : Type := t * nat -> A * (t * nat).

Definition ret {A} (a : A) : Gen A := fun s => (a, s).

Definition bind {A B} (m : Gen A) (f : A -> Gen B) : Gen B :=
  fun s => let (a, s') := m s in f a s'.

Notation "x <- m ;; k" := (bind m (fun x => k))
  (at level 61, m at next level, right associativity).

Definition random : Gen Q := fun s => (Math_random (snd s), (fst s, S (snd s))).

Definition this : Gen t := fun s => (fst s, s).

Definition setTrend (x : Q) : Gen unit :=
  fun s => (tt, ({| baseTime := baseTime (fst s); categories := categories (fst s);
                    valueRange := valueRange (fst s); trend := x |}, snd s)).

(** [this.categories[Math.floor(Math.random() * this.categories.length)]].
    [Math.random()] lies in [0, 1), which keeps the index in range; outside
    the range JavaScript reads [undefined], here the empty string. *)
Definition randomCategory : Gen string :=
  r <- random ;;
  g <- this ;;
  ret (nth (Z.to_nat (JS.Math_floor (r * inject_Z (Z.of_nat (length (categories g))))))
           (categories g) ""%string).

Definition string_of_Z (z : Z) : string := NilZero.string_of_int (Z.to_int z).

(** [generatePoint(category?, offset = 0)].  [category || ...] takes the
    random branch when the argument is absent or the empty string.  The
    timestamp [baseTime + offset] is a sum of integers, exact in JavaScript
    up to [Number.MAX_SAFE_INTEGER]. *)
Definition generatePoint (category : option string) (offset : option Z)
  : Gen DataPoint :=
  let offset := match offset with Some o => o | None => 0 end in
  categoryName <- match category with
                  | Some c => if String.eqb c "" then randomCategory else ret c
                  | None => randomCategory
                  end ;;
  g <- this ;;
  let timestamp := baseTime g + offset in
  r <- random ;;
  _ <- setTrend (trend g + (r - (1 # 2)) * (1 # 10))%Q ;;
  g <- this ;;
  _ <- setTrend (Qmax (-2) (Qmin 2 (trend g))) ;;
  g <- this ;;
  let baseValue := (50 + trend g * 10)%Q in
  r <- random ;;
  let noise := ((r - (1 # 2)) * 10)%Q in
  let seasonal := (Math_sin ((inject_Z offset / 1000) * (1 # 100)) * 5)%Q in
  let value := Qmax (fst (valueRange g))
                    (Qmin (snd (valueRange g)) (baseValue + noise + seasonal)) in
  rq <- random ;;
  rs <- random ;;
  ret {| timestamp := timestamp;
         value := (inject_Z (JS.Math_round (value * 100)) / 100)%Q;
         category := categoryName;
         metadata := Some (SensorMeta
                             (if Qgtb rq (1 # 10) then "good" else "warning")
                             ("sensor-" ++ string_of_Z (JS.Math_floor (rs * 10)))) |}.

(** The loop of [generateBatch]: [for (let i = 0; i < count; i++)], with
    [todo = count - i] iterations left. *)
Fixpoint generateBatch_loop (todo : nat) (i : Z) (start : Z) : Gen (list DataPoint) :=
  match todo with
  | O => ret []
  | S todo' =>
      p <- generatePoint None (Some (start + i * 100)) ;;
      ps <- generateBatch_loop todo' (i + 1) start ;;
      ret (p :: ps)
  end.

(** [generateBatch(count, startTime?)]; [startTime || this.baseTime]. *)
Definition generateBatch (count : nat) (startTime : option Z) : Gen (list DataPoint) :=
  g <- this ;;
  let start := match startTime with
               | Some s => if s =? 0 then baseTime g else s
               | None => baseTime g
               end in
  generateBatch_loop count 0 start.

Definition generateNext (lastTimestamp : Z) : Gen DataPoint :=
  generatePoint None (Some (lastTimestamp + 100)).

End Methods.

End DataGenerator.

(** ** [lib/dataGenerator.ts]: [aggregateData] *)

(** [Math.floor(point.timestamp / periodMs) * periodMs]. *)
Definition bucketTimeOf (periodMs : Z) (point : DataPoint) : Z :=
  JS.Math_floor (inject_Z (timestamp point) / inject_Z periodMs) * periodMs.

(** The body of [data.forEach(point => ...)].  [buckets.get(bucketTime)!.push]
    extends the array stored under the key, in place. *)
Definition groupPoint (periodMs : Z) (buckets : JS.Map (list DataPoint))
    (point : DataPoint) : JS.Outcome (JS.Map (list DataPoint)) :=
  let bucketTime := bucketTimeOf periodMs point in
  let buckets := if negb (JS.Map_has bucketTime buckets)
                 then JS.Map_set bucketTime [] buckets
                 else buckets in
  match JS.Map_get bucketTime buckets with
  | Some points => JS.Returned (JS.Map_set bucketTime (points ++ [point]) buckets)
  | None => JS.Thrown JS.TypeError
  end.

Fixpoint groupPoints (periodMs : Z) (data : list DataPoint)
    (buckets : JS.Map (list DataPoint)) : JS.Outcome (JS.Map (list DataPoint)) :=
  match data with
  | [] => JS.Returned buckets
  | point :: data' =>
      JS.obind (groupPoint periodMs buckets point) (groupPoints periodMs data')
  end.

(** The body of [buckets.forEach((points, bucketTime) => ...)]: the record
    pushed onto [aggregated].  Reading [points[0].category] throws on an
    empty array. *)
Definition aggregateBucket (bucketTime : Z) (points : list DataPoint)
  : JS.Outcome DataPoint :=
  let values := map value points in
  let avgValue := (JS.sum values / inject_Z (Z.of_nat (length values)))%Q in
  match points with
  | [] => JS.Thrown JS.TypeError
  | p0 :: rest =>
      let minValue := JS.Math_min (value p0) (map value rest) in
      let maxValue := JS.Math_max (value p0) (map value rest) in
      JS.Returned
        {| timestamp := bucketTime;
           value := (inject_Z (JS.Math_round (avgValue * 100)) / 100)%Q;
           category := category p0;
           metadata := Some (BucketMeta (length points) minValue maxValue avgValue) |}
  end.

Fixpoint aggregateBuckets (buckets : JS.Map (list DataPoint))
  : JS.Outcome (list DataPoint) :=
  match buckets with
  | [] => JS.Returned []
  | (bucketTime, points) :: buckets' =>
      JS.obind (aggregateBucket bucketTime points) (fun b =>
      JS.obind (aggregateBuckets buckets') (fun bs =>
      JS.Returned (b :: bs)))
  end.

Definition aggregateData (data : list DataPoint) (periodMs : Z)
  : JS.Outcome (list DataPoint) :=
  match data with
  | [] => JS.Returned []
  | _ =>
      JS.obind (groupPoints periodMs data []) (fun buckets =>
      JS.obind (aggregateBuckets buckets) (fun aggregated =>
      JS.Returned (JS.sort timestamp aggregated)))
  end.

(** The [count] and [avg] entries of a bucket's metadata. *)
Definition bucketCount (b : DataPoint) : nat :=
  match metadata b with
  | Some (BucketMeta c _ _ _) => c
  | _ => 0%nat
  end.

(** ** [lib/dataGenerator.ts]: [filterData] *)

(** The [filters] argument: every field is optional. *)
Record FilterCriteria := {
  crit_categories : option (list string);
  crit_minValue : option Q;
  crit_maxValue : option Q;
  crit_timeRange : option TimeRange
}.

(** [categories.includes(c)]. *)
Definition includes (cs : list string) (c : string) : bool :=
  existsb (String.eqb c) cs.

(** The predicate handed to [data.filter].  An array is truthy even when it
    is empty, so [filters.categories && ...] tests membership whenever the
    field is present. *)
Definition filterPredicate (filters : FilterCriteria) (point : DataPoint) : bool :=
  if match crit_categories filters with
     | Some cs => negb (includes cs (category point))
     | None => false
     end then false
  else if match crit_minValue filters with
          | Some m => Qltb (value point) m
          | None => false
          end then false
  else if match crit_maxValue filters with
          | Some m => Qgtb (value point) m
          | None => false
          end then false
  else if match crit_timeRange filters with
          | Some r => (timestamp point <? range_start r)
                      || (timestamp point >? range_end r)
          | None => false
          end then false
  else true.

Definition filterData (data : list DataPoint) (filters : FilterCriteria)
  : list DataPoint :=
  filter (filterPredicate filters) data.

(** ** [components/providers/DataProvider.tsx] *)

Module DataProvider.

Definition aggregationPeriods (p : AggregationPeriod) : Z :=
  match p with
  | P1min => 60000
  | P5min => 300000
  | P1hour => 3600000
  end.

Definition isSome {A} (o : option A) : bool :=
  match o with Some _ => true | None => false end.

(** The first half of the [filteredData] memo: "Apply filters". *)
Definition applyFilters (data : list DataPoint) (filters : FilterOptions)
  : list DataPoint :=
  if (0 <? length (categories filters))%nat then
    filterData data {| crit_categories := Some (categories filters);
                       crit_minValue := minValue filters;
                       crit_maxValue := maxValue filters;
                       crit_timeRange := timeRange filters |}
  else if isSome (minValue filters) || isSome (maxValue filters)
          || isSome (timeRange filters) then
    filterData data {| crit_categories := None;
                       crit_minValue := minValue filters;
                       crit_maxValue := maxValue filters;
                       crit_timeRange := timeRange filters |}
  else data.

Definition is1min (p : AggregationPeriod) : bool :=
  match p with P1min => true | _ => false end.

(** The whole memo: filters, then "Apply aggregation". *)
Definition filteredData (data : list DataPoint) (filters : FilterOptions)
    (aggregationPeriod : AggregationPeriod) : JS.Outcome (list DataPoint) :=
  let result := applyFilters data filters in
  if negb (is1min aggregationPeriod) && (0 <? length result)%nat then
    aggregateData result (aggregationPeriods aggregationPeriod)
  else JS.Returned result.

End DataProvider.

(** ** [lib/canvasUtils.ts] *)

(** [dataToCanvas(point, bounds, viewport)].  On a viewport of zero extent
    the quotients are [0/0] or [x/0], NaN or an infinity in JavaScript and
    outside the model: what is proved about canvas positions is under
    the hypotheses [xMin < xMax] and [yMin < yMax]. *)
Definition dataToCanvas (point : DataPoint) (bounds : ChartBounds)
    (viewport : Viewport) : Q * Q :=
  let x := (bx bounds
            + ((inject_Z (timestamp point) - xMin viewport)
               / (xMax viewport - xMin viewport)) * width bounds)%Q in
  let y := (by_ bounds + height bounds
            - ((value point - yMin viewport)
               / (yMax viewport - yMin viewport)) * height bounds)%Q in
  (x, y).

(** The result of [canvasToData]: [{ timestamp, value }], both fractional. *)
Record DataCoords := { coord_timestamp : Q; coord_value : Q }.

Definition canvasToData (canvasX canvasY : Q) (bounds : ChartBounds)
    (viewport : Viewport) : DataCoords :=
  {| coord_timestamp :=
       (xMin viewport
        + ((canvasX - bx bounds) / width bounds)
          * (xMax viewport - xMin viewport))%Q;
     coord_value :=
       (yMax viewport
        - ((canvasY - by_ bounds) / height bounds)
          * (yMax viewport - yMin viewport))%Q |}.

(** [calculateViewport(data, padding = 0.1)]; [now] is [Date.now()]. *)
Definition calculateViewport (now : Z) (data : list DataPoint)
    (padding : option Q) : Viewport :=
  let padding := match padding with Some p => p | None => 1 # 10 end in
  match data with
  | [] =>
      {| xMin := inject_Z (now - 3600000); xMax := inject_Z now;
         yMin := 0; yMax := 100 |}
  | p :: ps =>
      let timestamps := map (fun p => inject_Z (timestamp p)) ps in
      let values := map value ps in
      let xMin_ := JS.Math_min (inject_Z (timestamp p)) timestamps in
      let xMax_ := JS.Math_max (inject_Z (timestamp p)) timestamps in
      let yMin_ := JS.Math_min (value p) values in
      let yMax_ := JS.Math_max (value p) values in
      let xRange := (xMax_ - xMin_)%Q in
      let yRange := (yMax_ - yMin_)%Q in
      {| xMin := (xMin_ - xRange * padding)%Q;
         xMax := (xMax_ + xRange * padding)%Q;
         yMin := Qmax 0 (yMin_ - yRange * padding);
         yMax := (yMax_ + yRange * padding)%Q |}
  end.

(** ** [hooks/useDataStream.ts] *)

Module DataStream.

(** [UseDataStreamOptions]: every field is optional. *)
Record Options := {
  updateInterval : option Z;
  maxDataPoints : option Z;
  initialCount : option nat
}.

(** The hook's state: the destructured options, the [useState] cells and the
    refs, together with the number of random draws made so far. *)
Record Stream := {
  opt_updateInterval : Z;
  opt_maxDataPoints : Z;
  opt_initialCount : nat;
  data : list DataPoint;
  isStreaming : bool;
  generatorRef : DataGenerator.t;
  lastTimestampRef : Z;
  draws : nat
}.

Definition withDefault {A} (d : A) (o : option A) : A :=
  match o with Some a => a | None => d end.

(** The first render of [useDataStream(options = {})].  The body inspects
    none of the options and has no [throw]: every call returns. *)
Definition useDataStream (now : Z) (options : option Options) : JS.Outcome Stream :=
  let options := withDefault {| updateInterval := None; maxDataPoints := None;
                                initialCount := None |} options in
  JS.Returned
    {| opt_updateInterval := withDefault 100 (updateInterval options);
       opt_maxDataPoints := withDefault 10000 (maxDataPoints options);
       opt_initialCount := withDefault 1000%nat (initialCount options);
       data := [];
       isStreaming := false;
       generatorRef := DataGenerator.new now;
       lastTimestampRef := 0;
       draws := 0%nat |}.

(** The state update of the interval callback:
    [const updated = [...prevData, newPoint]; if (updated.length > maxDataPoints)
     return updated.slice(-maxDataPoints); return updated]. *)
Definition appendPoint (maxDataPoints : Z) (prevData : list DataPoint)
    (newPoint : DataPoint) : list DataPoint :=
  let updated := prevData ++ [newPoint] in
  if Z.of_nat (length updated) >? maxDataPoints
  then JS.slice updated (- maxDataPoints) None
  else updated.

(** The state update of [addDataPoints]:
    [const updated = [...prevData, ...newPoints]] and the same test. *)
Definition appendPoints (maxDataPoints : Z) (prevData : list DataPoint)
    (newPoints : list DataPoint) : list DataPoint :=
  let updated := prevData ++ newPoints in
  if Z.of_nat (length updated) >? maxDataPoints
  then JS.slice updated (- maxDataPoints) None
  else updated.

Definition lastTimestamp (l : list DataPoint) : option Z :=
  option_map timestamp (last (map Some l) None).

Section Hook.

Variable Math_random : nat -> Q.
Variable Math_sin : Q -> Q.

Definition setData (d : list DataPoint) (s : Stream) : Stream :=
  {| opt_updateInterval := opt_updateInterval s;
     opt_maxDataPoints := opt_maxDataPoints s;
     opt_initialCount := opt_initialCount s;
     data := d; isStreaming := isStreaming s;
     generatorRef := generatorRef s;
     lastTimestampRef := lastTimestampRef s; draws := draws s |}.

Definition setIsStreaming (b : bool) (s : Stream) : Stream :=
  {| opt_updateInterval := opt_updateInterval s;
     opt_maxDataPoints := opt_maxDataPoints s;
     opt_initialCount := opt_initialCount s;
     data := data s; isStreaming := b;
     generatorRef := generatorRef s;
     lastTimestampRef := lastTimestampRef s; draws := draws s |}.

Definition setLastTimestamp (ts : Z) (s : Stream) : Stream :=
  {| opt_updateInterval := opt_updateInterval s;
     opt_maxDataPoints := opt_maxDataPoints s;
     opt_initialCount := opt_initialCount s;
     data := data s; isStreaming := isStreaming s;
     generatorRef := generatorRef s;
     lastTimestampRef := ts; draws := draws s |}.

(** Run a generator method on [generatorRef.current]. *)
Definition withGenerator {A} (m : DataGenerator.Gen A) (s : Stream) : A * Stream :=
  let (a, gn) := m (generatorRef s, draws s) in
  (a, {| opt_updateInterval := opt_updateInterval s;
         opt_maxDataPoints := opt_maxDataPoints s;
         opt_initialCount := opt_initialCount s;
         data := data s; isStreaming := isStreaming s;
         generatorRef := fst gn;
         lastTimestampRef := lastTimestampRef s; draws := snd gn |}).

(** The "Initialize data" effect. *)
Definition initialize (s : Stream) : Stream :=
  let (initialData, s) :=
    withGenerator (DataGenerator.generateBatch Math_random Math_sin
                     (opt_initialCount s) None) s in
  let s := setData initialData s in
  match lastTimestamp initialData with
  | Some ts => setLastTimestamp ts s
  | None => s
  end.

(** One firing of the interval installed by [startStreaming]; [now] is
    [Date.now()], read when [lastTimestampRef.current] is 0. *)
Definition onInterval (now : Z) (s : Stream) : Stream :=
  let (newPoint, s) :=
    withGenerator (DataGenerator.generateNext Math_random Math_sin
                     (if lastTimestampRef s =? 0 then now else lastTimestampRef s)) s in
  let s := setLastTimestamp (timestamp newPoint) s in
  setData (appendPoint (opt_maxDataPoints s) (data s) newPoint) s.

Definition startStreaming (s : Stream) : Stream :=
  if isStreaming s then s else setIsStreaming true s.

Definition stopStreaming (s : Stream) : Stream := setIsStreaming false s.

Definition resetGenerator (now : Z) (s : Stream) : Stream :=
  {| opt_updateInterval := opt_updateInterval s;
     opt_maxDataPoints := opt_maxDataPoints s;
     opt_initialCount := opt_initialCount s;
     data := data s; isStreaming := isStreaming s;
     generatorRef := DataGenerator.reset now (generatorRef s);
     lastTimestampRef := lastTimestampRef s; draws := draws s |}.

Definition resetData (now : Z) (s : Stream) : Stream :=
  let s := stopStreaming s in
  let s := resetGenerator now s in
  let (newData, s) :=
    withGenerator (DataGenerator.generateBatch Math_random Math_sin
                     (opt_initialCount s) None) s in
  let s := setData newData s in
  match lastTimestamp newData with
  | Some ts => setLastTimestamp ts s
  | None => s
  end.

(** The loop of [addDataPoints]: [count - i] iterations left. *)
Fixpoint addDataPoints_loop (todo : nat) (lastTs : Z)
  : DataGenerator.Gen (list DataPoint) :=
  match todo with
  | O => DataGenerator.ret []
  | S todo' =>
      DataGenerator.bind (DataGenerator.generateNext Math_random Math_sin lastTs)
        (fun point =>
      DataGenerator.bind (addDataPoints_loop todo' (timestamp point))
        (fun points => DataGenerator.ret (point :: points)))
  end.

Definition addDataPoints (now : Z) (count : nat) (s : Stream) : Stream :=
  let lastTs := withDefault now (lastTimestamp (data s)) in
  let (newPoints, s) := withGenerator (addDataPoints_loop count lastTs) s in
  setData (appendPoints (opt_maxDataPoints s) (data s) newPoints) s.

End Hook.

End DataStream.

(** ** [hooks/useVirtualization.ts] *)

Module Virtualization.

Record Options := {
  itemHeight : Q;
  containerHeight : Q;
  overscan : option Z
}.

Record Range := { start : Z; end_ : Z }.

Section Hook.

Context {T : Type}.
Variable items : list T.
Variable options : Options.
Variable scrollTop : Q.

Definition overscanOrDefault : Z :=
  match overscan options with Some o => o | None => 5 end.

Definition visibleRange : Range :=
  let start := JS.Math_floor (scrollTop / itemHeight options) in
  let end_ := Z.min (Z.of_nat (length items) - 1)
                    (JS.Math_ceil ((scrollTop + containerHeight options)
                                   / itemHeight options)) in
  {| start := Z.max 0 (start - overscanOrDefault);
     end_ := Z.min (Z.of_nat (length items) - 1) (end_ + overscanOrDefault) |}.

(** [items.slice(start, end + 1).map((item, index) => ({ item, index: start + index }))]. *)
Definition visibleItems : list (T * Z) :=
  let sliced := JS.slice items (start visibleRange) (Some (end_ visibleRange + 1)) in
  combine sliced
          (map (fun index => start visibleRange + Z.of_nat index)
               (seq 0 (length sliced))).

Definition totalHeight : Q :=
  (inject_Z (Z.of_nat (length items)) * itemHeight options)%Q.

Definition offsetY : Q :=
  (inject_Z (start visibleRange) * itemHeight options)%Q.

End Hook.

End Virtualization.

(** ** The strided drawing loops *)

(** [for (let i = 0; i < data.length; i += step) { const point = data[i]; ... }]
    collecting what the body makes of each visited point.  [nth_error data i]
    is [Some] exactly when [i < data.length], the loop's test.  [fuel] bounds
    the number of iterations. *)
Fixpoint forStride {A B} (fuel : nat) (body : A -> B) (data : list A)
    (step i : nat) : list B :=
  match fuel with
  | O => []
  | S fuel' =>
      match nth_error data i with
      | Some point => body point :: forStride fuel' body data step (i + step)
      | None => []
      end
  end.

(** [hooks/useChartRenderer.ts]: the line renderer. *)
Module ChartRenderer.

Definition useLowDetail (data : list DataPoint) : bool :=
  Z.of_nat (length data) >? 50000.

(** [useLowDetail ? Math.max(1, Math.floor(data.length / 2000)) : 1]. *)
Definition step (data : list DataPoint) : Z :=
  if useLowDetail data then Z.max 1 (Z.of_nat (length data) / 2000) else 1.

(** The points the loop visits, in order. *)
Definition sampled (data : list DataPoint) : list DataPoint :=
  forStride (length data) (fun point => point) data (Z.to_nat (step data)) 0.

(** The canvas positions handed to [moveTo] (the first) and [lineTo]. *)
Definition path (data : list DataPoint) (bounds : ChartBounds)
    (viewport : Viewport) : list (Q * Q) :=
  forStride (length data) (fun point => dataToCanvas point bounds viewport)
            data (Z.to_nat (step data)) 0.

End ChartRenderer.

(** [components/charts/ScatterPlot.tsx]. *)
Module ScatterPlot.

(** [data.length > 10000 ? Math.max(1, Math.floor(data.length / 10000)) : 1]. *)
Definition step (data : list DataPoint) : Z :=
  if Z.of_nat (length data) >? 10000
  then Z.max 1 (Z.of_nat (length data) / 10000)
  else 1.

Definition sampled (data : list DataPoint) : list DataPoint :=
  forStride (length data) (fun point => point) data (Z.to_nat (step data)) 0.

(** The centres of the discs drawn with [arc]. *)
Definition discs (data : list DataPoint) (bounds : ChartBounds)
    (viewport : Viewport) : list (Q * Q) :=
  forStride (length data) (fun point => dataToCanvas point bounds viewport)
            data (Z.to_nat (step data)) 0.

End ScatterPlot.

(** ** [lib/types.ts]: [PerformanceMetrics] *)

Record PerformanceMetrics := {
  pm_fps : Z;
  pm_memoryUsage : Q;
  pm_renderTime : Q;
  pm_dataProcessingTime : Q;
  pm_frameCount : Z;
  pm_lastFrameTime : Q
}.

(** ** [lib/performanceUtils.ts] *)

Module PerformanceMonitor.

Record t := {
  frameCount : Z;
  lastFrameTime : Q;
  fps : Z;
  frameTimes : list Q
}.

Definition maxFrameTimeHistory : Z := 60.

(** The field initialisers; [now] is [performance.now()]. *)
Definition new (now : Q) : t :=
  {| frameCount := 0; lastFrameTime := now; fps := 60; frameTimes := [] |}.

(** [Array.prototype.shift]: drop the first element. *)
Definition shift (l : list Q) : list Q := tl l.

(** [measureFrame()]; [now] is [performance.now()].  The average of the
    window is a quotient of doubles: with an all-zero window JavaScript
    sets [fps] to [Infinity], which is outside the model. *)
Definition measureFrame (now : Q) (m : t) : t :=
  let delta := (now - lastFrameTime m)%Q in
  let frameCount := frameCount m + 1 in
  let frameTimes := frameTimes m ++ [delta] in
  let frameTimes := if Z.of_nat (length frameTimes) >? maxFrameTimeHistory
                    then shift frameTimes
                    else frameTimes in
  let avgFrameTime := (JS.sum frameTimes / inject_Z (Z.of_nat (length frameTimes)))%Q in
  {| frameCount := frameCount;
     lastFrameTime := now;
     fps := JS.Math_round (1000 / avgFrameTime);
     frameTimes := frameTimes |}.

(** [getMetrics()]; [usedJSHeapSize] is [performance.memory.usedJSHeapSize]
    where the host provides it. *)
Definition getMetrics (usedJSHeapSize : option Q) (m : t) : PerformanceMetrics :=
  let memory := match usedJSHeapSize with
                | Some used => (used / 1048576)%Q
                | None => 0%Q
                end in
  let avgFrameTime :=
    if (0 <? length (frameTimes m))%nat
    then (JS.sum (frameTimes m) / inject_Z (Z.of_nat (length (frameTimes m))))%Q
    else 0%Q in
  {| pm_fps := fps m;
     pm_memoryUsage := (inject_Z (JS.Math_round (memory * 100)) / 100)%Q;
     pm_renderTime := (inject_Z (JS.Math_round (avgFrameTime * 100)) / 100)%Q;
     pm_dataProcessingTime := 0;
     pm_frameCount := frameCount m;
     pm_lastFrameTime := lastFrameTime m |}.

(** [reset()]: the [fps] field is left as it is. *)
Definition reset (now : Q) (m : t) : t :=
  {| frameCount := 0; lastFrameTime := now; fps := fps m; frameTimes := [] |}.

End PerformanceMonitor.

(** [shouldUseLowDetail(fps, dataPointCount)]. *)
Definition shouldUseLowDetail (fps : Q) (dataPointCount : Z) : bool :=
  Qltb fps 30 || (dataPointCount >? 50000).

(** ** [hooks/useDataStream.ts]: the [stats] memo *)

(** [Array.from(new Set(xs))] on strings: the distinct elements in the
    order of their first occurrence. *)
Definition Set_add (s : list string) (x : string) : list string :=
  if existsb (String.eqb x) s then s else s ++ [x].

Definition Array_from_Set (xs : list string) : list string :=
  fold_left Set_add xs [].

Module StreamStats.

Record t := {
  count : nat;
  min : Q;
  max : Q;
  avg : Q;
  categories : list string
}.

Definition stats (data : list DataPoint) : t :=
  match data with
  | [] => {| count := 0; min := 0; max := 0; avg := 0; categories := [] |}
  | d :: ds =>
      let values := map value data in
      {| count := length data;
         min := JS.Math_min (value d) (map value ds);
         max := JS.Math_max (value d) (map value ds);
         avg := (JS.sum values / inject_Z (Z.of_nat (length values)))%Q;
         categories := Array_from_Set (map category data) |}
  end.

End StreamStats.

(** ** [hooks/useVirtualization.ts]: the scroll callbacks *)

(** [handleScroll]: the state takes the container's scroll position. *)
Definition handleScroll (eventScrollTop : Q) (scrollTop : Q) : Q := eventScrollTop.

(** [scrollToItem(index)]: [mounted] tells whether [containerRef.current]
    is set; the result is the new [scrollTop] state. *)
Definition scrollToItem (options : Virtualization.Options) (mounted : bool)
    (index : Z) (scrollTop : Q) : Q :=
  if mounted then (inject_Z index * Virtualization.itemHeight options)%Q
  else scrollTop.

Definition scrollToTop (options : Virtualization.Options) (mounted : bool)
    (scrollTop : Q) : Q :=
  scrollToItem options mounted 0 scrollTop.

Definition scrollToBottom {T} (items : list T) (options : Virtualization.Options)
    (mounted : bool) (scrollTop : Q) : Q :=
  scrollToItem options mounted (Z.of_nat (length items) - 1) scrollTop.

(** ** The chart components: bounds and viewport memos *)

(** The [bounds] memo of [useChartRenderer], [BarChart], [ScatterPlot] and
    [Heatmap]: the canvas less the axis padding
    [{ left: 60, right: 20, top: 20, bottom: 40 }]. *)
Definition chartBounds (canvasWidth canvasHeight : Q) : ChartBounds :=
  {| bx := 60; by_ := 20;
     width := (canvasWidth - 60 - 20)%Q;
     height := (canvasHeight - 20 - 40)%Q |}.

(** The [viewport] memo: the caller's viewport, or the one computed from
    the data with the default padding. *)
Definition chartViewport (now : Z) (externalViewport : option Viewport)
    (data : list DataPoint) : Viewport :=
  match externalViewport with
  | Some v => v
  | None => calculateViewport now data None
  end.

(** ** [components/charts/BarChart.tsx] *)

(** The arguments of a [fillRect] call. *)
Record Rect := { rect_x : Q; rect_y : Q; rect_w : Q; rect_h : Q }.

Module BarChart.

Definition barWidth (data : list DataPoint) (bounds : ChartBounds) : Q :=
  Qmax 2 (width bounds / inject_Z (Z.of_nat (length data)) * (8 # 10)).

(** The rectangles filled by [data.forEach((point, index) => ...)], under
    the guard [data.length > 0]. *)
Definition bars (data : list DataPoint) (bounds : ChartBounds) (viewport : Viewport)
  : list Rect :=
  if (0 <? length data)%nat then
    map (fun point =>
           let (x, y) := dataToCanvas point bounds viewport in
           let barHeight := (by_ bounds + height bounds - y)%Q in
           {| rect_x := (x - barWidth data bounds / 2)%Q;
              rect_y := y;
              rect_w := barWidth data bounds;
              rect_h := barHeight |})
        data
  else [].

End BarChart.

(** ** [components/controls/FilterPanel.tsx] *)

(** [handleCategoryToggle(category)]: the filters handed to
    [onFilterChange]; the object has no [timeRange]. *)
Definition handleCategoryToggle (selectedCategories : list string)
    (minValue maxValue : option Q) (category : string) : FilterOptions :=
  let newCategories :=
    if includes selectedCategories category
    then filter (fun c => negb (String.eqb c category)) selectedCategories
    else selectedCategories ++ [category] in
  {| categories := newCategories;
     minValue := minValue;
     maxValue := maxValue;
     timeRange := None |}.

(** ** [components/ui/DataTable.tsx] *)

Module DataTable.

(** [[...data].sort((a, b) => b.timestamp - a.timestamp)]. *)
Definition sortedData (data : list DataPoint) : list DataPoint :=
  JS.sort (fun p => - timestamp p) data.

(** The options handed to [useVirtualization]; [height = 400] by default. *)
Definition options (height : option Q) : Virtualization.Options :=
  {| Virtualization.itemHeight := 40;
     Virtualization.containerHeight := match height with Some h => h | None => 400 end;
     Virtualization.overscan := Some 5 |}.

(** The rows of the table body. *)
Definition rows (data : list DataPoint) (height : option Q) (scrollTop : Q)
  : list (DataPoint * Z) :=
  Virtualization.visibleItems (sortedData data) (options height) scrollTop.

End DataTable.

(** ** [components/providers/DataProvider.tsx]: [resetFilters] *)

(** The filters and the aggregation period [resetFilters] installs. *)
Definition resetFilters : FilterOptions * AggregationPeriod :=
  ({| categories := []; minValue := None; maxValue := None; timeRange := None |},
   P1min).

(** ** [lib/canvasUtils.ts]: the ticks of [drawGrid] and [drawAxes] *)

(** [i / 10] for the loop index of [for (let i = 0; i <= 10; i++)]. *)
Definition tenth (i : nat) : Q := (inject_Z (Z.of_nat i) / 10)%Q.

(** [drawGrid]: the x positions of the vertical lines and the y positions
    of the horizontal lines. *)
Definition gridVerticals (bounds : ChartBounds) : list Q :=
  map (fun i => (bx bounds + tenth i * width bounds)%Q) (seq 0 11).

Definition gridHorizontals (bounds : ChartBounds) : list Q :=
  map (fun i => (by_ bounds + height bounds - tenth i * height bounds)%Q) (seq 0 11).

(** [drawAxes]: for each x-axis label the timestamp it shows and the x
    position it is drawn at; for each y-axis label the value and the y
    position. *)
Definition xAxisLabels (bounds : ChartBounds) (viewport : Viewport) : list (Q * Q) :=
  map (fun i =>
         let timestamp := (xMin viewport + tenth i * (xMax viewport - xMin viewport))%Q in
         let x := (bx bounds + tenth i * width bounds)%Q in
         (timestamp, x))
      (seq 0 11).

Definition yAxisLabels (bounds : ChartBounds) (viewport : Viewport) : list (Q * Q) :=
  map (fun i =>
         let value := (yMin viewport + tenth i * (yMax viewport - yMin viewport))%Q in
         let y := (by_ bounds + height bounds - tenth i * height bounds)%Q in
         (value, y))
      (seq 0 11).

(** ** [components/charts/Heatmap.tsx] *)



Module Heatmap.

(** The entries of [cellMap]. *)
Record Cell := { count : Z; sum : Q }.



Fixpoint set (k : string) (v : Cell) (m : list (string * Cell)) : list (string * Cell) :=
  match m with
  | [] => [(k, v)]
  | (k', v') :: m' =>
      if String.eqb k k' then (k', v) :: m' else (k', v') :: set k v m'
  end.

(** The colour of a value: the channels interpolate from (52, 84, 209) at
    the least value of the data to (255, 100, 50) at the greatest. *)
Definition channels (minValue range value : Q) : Z * Z * Z :=
  let normalized := ((value - minValue) / range)%Q in
  (JS.Math_floor (52 + (255 - 52) * normalized),
   JS.Math_floor (84 + (100 - 84) * normalized),
   JS.Math_floor (209 + (50 - 209) * normalized)).

Definition rgb (c : Z * Z * Z) : string :=
  let '(r, g, b) := c in
  ("rgb(" ++ DataGenerator.string_of_Z r ++ ", " ++ DataGenerator.string_of_Z g
          ++ ", " ++ DataGenerator.string_of_Z b ++ ")")%string.

(** The [getColor] memo.  It is called only under the guard
    [data.length > 0]; on no data its arithmetic is on infinities. *)
Definition getColor (data : list DataPoint) (value_ : Q) : string :=
  match data with
  | [] => "rgb(NaN, NaN, NaN)"%string
  | d :: ds =>
      let minValue := JS.Math_min (value d) (map value ds) in
      let maxValue := JS.Math_max (value d) (map value ds) in
      let range := (maxValue - minValue)%Q in
      if Qeq_bool range 0 then "rgb(52, 84, 209)"%string
      else rgb (channels minValue range value_)
  end.

Section Render.

Variable bounds : ChartBounds.
Variable viewport : Viewport.
Variable cellSize : Q.











End Render.

End Heatmap.

(** ** The engine's limit on the arguments of one call *)

(** [Math.min(...values)] and [Math.max(...values)] pass every element of the
    array as an argument of one call.  An engine takes only so many
    arguments in a call and throws a RangeError beyond; the number differs
    between engines and is the parameter [maxArguments].  [aggregateData],
    [calculateViewport] and [filteredData] above are the functions on an
    engine that takes any number of arguments; the ones of this module are
    the same sources on an engine with the limit. *)
Module Engine.

Section Limit.

Variable maxArguments : nat.

(** A call [f(v, ...vs)] whose arguments are a spread array. *)
Definition spread {A B : Type} (f : A -> list A -> B) (v : A) (vs : list A)
  : JS.Outcome B :=
  if (maxArguments <? length (v :: vs))%nat then JS.Thrown JS.RangeError
  else JS.Returned (f v vs).

Definition aggregateBucket (bucketTime : Z) (points : list DataPoint)
  : JS.Outcome DataPoint :=
  let values := map value points in
  let avgValue := (JS.sum values / inject_Z (Z.of_nat (length values)))%Q in
  match points with
  | [] => JS.Thrown JS.TypeError
  | p0 :: rest =>
      JS.obind (spread JS.Math_min (value p0) (map value rest)) (fun minValue =>
      JS.obind (spread JS.Math_max (value p0) (map value rest)) (fun maxValue =>
      JS.Returned
        {| timestamp := bucketTime;
           value := (inject_Z (JS.Math_round (avgValue * 100)) / 100)%Q;
           category := category p0;
           metadata := Some (BucketMeta (length points) minValue maxValue avgValue) |}))
  end.

Fixpoint aggregateBuckets (buckets : JS.Map (list DataPoint))
  : JS.Outcome (list DataPoint) :=
  match buckets with
  | [] => JS.Returned []
  | (bucketTime, points) :: buckets' =>
      JS.obind (aggregateBucket bucketTime points) (fun b =>
      JS.obind (aggregateBuckets buckets') (fun bs =>
      JS.Returned (b :: bs)))
  end.

Definition aggregateData (data : list DataPoint) (periodMs : Z)
  : JS.Outcome (list DataPoint) :=
  match data with
  | [] => JS.Returned []
  | _ =>
      JS.obind (groupPoints periodMs data []) (fun buckets =>
      JS.obind (aggregateBuckets buckets) (fun aggregated =>
      JS.Returned (JS.sort timestamp aggregated)))
  end.

Definition calculateViewport (now : Z) (data : list DataPoint)
    (padding : option Q) : JS.Outcome Viewport :=
  let padding := match padding with Some p => p | None => 1 # 10 end in
  match data with
  | [] =>
      JS.Returned
        {| xMin := inject_Z (now - 3600000); xMax := inject_Z now;
           yMin := 0; yMax := 100 |}
  | p :: ps =>
      let timestamps := map (fun p => inject_Z (timestamp p)) ps in
      let values := map value ps in
      JS.obind (spread JS.Math_min (inject_Z (timestamp p)) timestamps) (fun xMin_ =>
      JS.obind (spread JS.Math_max (inject_Z (timestamp p)) timestamps) (fun xMax_ =>
      JS.obind (spread JS.Math_min (value p) values) (fun yMin_ =>
      JS.obind (spread JS.Math_max (value p) values) (fun yMax_ =>
      let xRange := (xMax_ - xMin_)%Q in
      let yRange := (yMax_ - yMin_)%Q in
      JS.Returned
        {| xMin := (xMin_ - xRange * padding)%Q;
           xMax := (xMax_ + xRange * padding)%Q;
           yMin := Qmax 0 (yMin_ - yRange * padding);
           yMax := (yMax_ + yRange * padding)%Q |}))))
  end.

(** The [filteredData] memo of the provider. *)
Definition filteredData (data : list DataPoint) (filters : FilterOptions)
    (aggregationPeriod : AggregationPeriod) : JS.Outcome (list DataPoint) :=
  let result := DataProvider.applyFilters data filters in
  if negb (DataProvider.is1min aggregationPeriod) && (0 <? length result)%nat then
    aggregateData result (DataProvider.aggregationPeriods aggregationPeriod)
  else JS.Returned result.

End Limit.

End Engine.

(** ** Reference notions used to state the properties *)

(** The operations of the stream hook: a firing of the streaming interval,
    [addDataPoints(count)], the "Initialize data" effect, [resetData],
    [startStreaming] and [stopStreaming].  [now] is what [Date.now()]
    returns during the operation. *)
Inductive StreamOp :=
| Tick (now : Z)
| AddDataPoints (now : Z) (count : nat)
| Initialize
| ResetData (now : Z)
| StartStreaming
| StopStreaming.

(** The two operations that append to the buffer. *)
Definition isAppend (op : StreamOp) : bool :=
  match op with
  | Tick _ | AddDataPoints _ _ => true
  | _ => false
  end.

(** How many samples an operation appends. *)
Definition appendCount (op : StreamOp) : nat :=
  match op with
  | Tick _ => 1
  | AddDataPoints _ count => count
  | _ => 0
  end.

Section StreamRuns.

Variable Math_random : nat -> Q.
Variable Math_sin : Q -> Q.

Definition runOp (s : DataStream.Stream) (op : StreamOp) : DataStream.Stream :=
  match op with
  | Tick now => DataStream.onInterval Math_random Math_sin now s
  | AddDataPoints now count => DataStream.addDataPoints Math_random Math_sin now count s
  | Initialize => DataStream.initialize Math_random Math_sin s
  | ResetData now => DataStream.resetData Math_random Math_sin now s
  | StartStreaming => DataStream.startStreaming s
  | StopStreaming => DataStream.stopStreaming s
  end.

(** The samples the generator returns to an append fired in state [s]: the
    one [generateNext] gives the interval callback, or the ones it gives the
    loop of [addDataPoints]. *)
Definition produced (s : DataStream.Stream) (op : StreamOp) : list DataPoint :=
  match op with
  | Tick now =>
      [fst (DataGenerator.generateNext Math_random Math_sin
              (if DataStream.lastTimestampRef s =? 0 then now
               else DataStream.lastTimestampRef s)
              (DataStream.generatorRef s, DataStream.draws s))]
  | AddDataPoints now count =>
      fst (DataStream.addDataPoints_loop Math_random Math_sin count
             (DataStream.withDefault now (DataStream.lastTimestamp (DataStream.data s)))
             (DataStream.generatorRef s, DataStream.draws s))
  | _ => []
  end.

(** The samples the generator returns over a run of operations, in order. *)
Fixpoint producedBy (s : DataStream.Stream) (ops : list StreamOp) : list DataPoint :=
  match ops with
  | [] => []
  | op :: ops' => produced s op ++ producedBy (runOp s op) ops'
  end.

End StreamRuns.

(** The last [n] elements of a list, in their order. *)
Definition lastn {A} (n : nat) (l : list A) : list A :=
  skipn (length l - n) l.

(** A value within [minValue, maxValue], an absent bound being unbounded. *)
Definition valueWithin (lo hi : option Q) (v : Q) : bool :=
  match lo with Some m => Qle_bool m v | None => true end
  && match hi with Some m => Qle_bool v m | None => true end.

(** A timestamp within [start, end], an absent range being unbounded. *)
Definition timeWithin (r : option TimeRange) (t : Z) : bool :=
  match r with
  | Some r => (range_start r <=? t) && (t <=? range_end r)
  | None => true
  end.

(** The samples of [data] that fall into the bucket starting at [k]. *)
Definition members (periodMs : Z) (k : Z) (data : list DataPoint) : list DataPoint :=
  filter (fun p => bucketTimeOf periodMs p =? k) data.

(** A number with at most two decimal places: a whole number of hundredths. *)
Definition twoDecimals (q : Q) : Prop := exists k : Z, (q == inject_Z k / 100)%Q.

(** A sample whose value lies in [0, 100] and has at most two decimals. *)
Definition clampedSample (p : DataPoint) : Prop :=
  (0 <= value p)%Q /\ (value p <= 100)%Q /\ twoDecimals (value p).

(** What [groupPoint] does to the map, as one pass: the sample joins the
    bucket of its key, or opens a new bucket at the end. *)
Fixpoint pushPoint (k : Z) (p : DataPoint) (m : JS.Map (list DataPoint))
  : JS.Map (list DataPoint) :=
  match m with
  | [] => [(k, [p])]
  | (k', ps) :: m' =>
      if k =? k' then (k', ps ++ [p]) :: m' else (k', ps) :: pushPoint k p m'
  end.

(** The arithmetic mean of a list of numbers. *)
Definition mean (vs : list Q) : Q :=
  (fold_right Qplus 0 vs / inject_Z (Z.of_nat (length vs)))%Q.

(** The [avg] entry of a bucket's metadata. *)
Definition bucketAvg (b : DataPoint) : Q :=
  match metadata b with
  | Some (BucketMeta _ _ _ a) => a
  | _ => 0%Q
  end.

(** The number of samples held by the buckets of a map. *)
Definition heldSamples (m : JS.Map (list DataPoint)) : nat :=
  fold_right (fun e acc => (length (snd e) + acc)%nat) 0%nat m.

(** The sum of the [count] entries of a list of buckets. *)
Definition totalCount (bs : list DataPoint) : nat :=
  fold_right (fun b acc => (bucketCount b + acc)%nat) 0%nat bs.

(** A map groups the samples seen so far: its keys are distinct and each
    key holds, in input order, the samples seen that fall into its bucket. *)
Definition grouped (periodMs : Z) (m : JS.Map (list DataPoint))
    (seen : list DataPoint) : Prop :=
  NoDup (map fst m)
  /\ forall k, JS.Map_get k m = match members periodMs k seen with
                                | [] => None
                                | ps => Some ps
                                end.

(** The frame times [measureFrame] records for frames at the times [nows],
    the previous frame having been at [last]. *)
Fixpoint frameDeltas (last : Q) (nows : list Q) : list Q :=
  match nows with
  | [] => []
  | now :: nows' => (now - last)%Q :: frameDeltas now nows'
  end.

(** A list of integers that increases strictly. *)
Definition strictlyIncreasing (l : list Z) : Prop :=
  StronglySorted Z.lt l.

(** A canvas position inside a rectangle, edges included. *)
Definition insideBounds (bounds : ChartBounds) (xy : Q * Q) : Prop :=
  (bx bounds <= fst xy)%Q /\ (fst xy <= bx bounds + width bounds)%Q
  /\ (by_ bounds <= snd xy)%Q /\ (snd xy <= by_ bounds + height bounds)%Q.

(** The bucket [aggregateBucket] makes of the single sample [b]. *)
Definition rebucket (b : DataPoint) : DataPoint :=
  let avgValue := (JS.sum [value b] / inject_Z (Z.of_nat 1))%Q in
  {| timestamp := timestamp b;
     value := (inject_Z (JS.Math_round (avgValue * 100)) / 100)%Q;
     category := category b;
     metadata := Some (BucketMeta 1 (value b) (value b) avgValue) |}.

(** Ceiling of a quotient of naturals. *)
Definition ceilDiv (n s : nat) : nat := ((n + s - 1) / s)%nat.

(** * Properties *)

(** ** Coordinate mapper *)

(** C4: for a display rectangle of positive width and height and a viewport
    with [xMax > xMin] and [yMax > yMin], mapping a sample with [dataToCanvas]
    and back with [canvasToData] recovers its timestamp and its value, exactly
    (in rational arithmetic). *)
Theorem canvas_round_trip (point : DataPoint) (bounds : ChartBounds) (viewport : Viewport) :
  (0 < width bounds)%Q -> (0 < height bounds)%Q ->
  (xMin viewport < xMax viewport)%Q -> (yMin viewport < yMax viewport)%Q ->
  let (x, y) := dataToCanvas point bounds viewport in
  (coord_timestamp (canvasToData x y bounds viewport) == inject_Z (timestamp point))%Q
  /\ (coord_value (canvasToData x y bounds viewport) == value point)%Q.
Proof.
  intros Hw Hh Hx Hy.
  unfold dataToCanvas, canvasToData; cbn [coord_timestamp coord_value].
  split; field; split; intro E; lra.
Qed.

Lemma canvas_round_trip_witness :
  let point := {| timestamp := 5; value := 7; category := "pressure"; metadata := None |} in
  let bounds := {| bx := 60; by_ := 20; width := 720; height := 340 |} in
  let viewport := {| xMin := 0; xMax := 10; yMin := 0; yMax := 20 |} in
  let (x, y) := dataToCanvas point bounds viewport in
  (coord_timestamp (canvasToData x y bounds viewport) == 5)%Q
  /\ (coord_value (canvasToData x y bounds viewport) == 7)%Q.
Proof.
  exact (canvas_round_trip
           {| timestamp := 5; value := 7; category := "pressure"; metadata := None |}
           {| bx := 60; by_ := 20; width := 720; height := 340 |}
           {| xMin := 0; xMax := 10; yMin := 0; yMax := 20 |}
           eq_refl eq_refl eq_refl eq_refl).
Defined.

(** ** Virtualization window *)

(** With a non-negative overscan the inner clamp of [end] is absorbed by the
    outer one. *)
Lemma min_min_absorb (l c o : Z) :
  0 <= o -> Z.min l (Z.min l c + o) = Z.min l (c + o).
Proof. lia. Qed.

(** C5 (as the code has it): for every item list, scroll offset, positive
    item extent and container extent, and every overscan that is not
    negative, the window
    is [start = max(0, floor(scrollTop/itemHeight) - overscan)],
    [end = min(length-1, ceil((scrollTop+containerHeight)/itemHeight) + overscan)],
    [totalHeight = length * itemHeight], [offsetY = start * itemHeight]; and
    for 10000 items of height 40 in a container of 400 with overscan 5 at
    scroll offset 2000 it is 45, 65, 400000, 1800. *)
Theorem virtual_window {T : Type} (items : list T) (options : Virtualization.Options)
    (scrollTop : Q) :
  (0 < Virtualization.itemHeight options)%Q ->
  0 <= Virtualization.overscanOrDefault options ->
  let len := Z.of_nat (length items) in
  let overscan := Virtualization.overscanOrDefault options in
  let range := Virtualization.visibleRange items options scrollTop in
  Virtualization.start range
    = Z.max 0 (Qfloor (scrollTop / Virtualization.itemHeight options) - overscan)
  /\ Virtualization.end_ range
    = Z.min (len - 1)
            (Qceiling ((scrollTop + Virtualization.containerHeight options)
                       / Virtualization.itemHeight options) + overscan)
  /\ Virtualization.totalHeight items options
     = (inject_Z len * Virtualization.itemHeight options)%Q
  /\ Virtualization.offsetY items options scrollTop
     = (inject_Z (Virtualization.start range) * Virtualization.itemHeight options)%Q
  /\ (len = 10000 ->
      options = {| Virtualization.itemHeight := 40;
                   Virtualization.containerHeight := 400;
                   Virtualization.overscan := Some 5 |} ->
      (scrollTop == 2000)%Q ->
      Virtualization.start range = 45
      /\ Virtualization.end_ range = 65
      /\ (Virtualization.totalHeight items options == 400000)%Q
      /\ (Virtualization.offsetY items options scrollTop == 1800)%Q).
Proof.
  intros _ Ho len overscan range.
  assert (Hend : Virtualization.end_ range
                 = Z.min (len - 1)
                     (Qceiling ((scrollTop + Virtualization.containerHeight options)
                                / Virtualization.itemHeight options) + overscan)).
  { unfold range, Virtualization.visibleRange; cbn [Virtualization.end_].
    unfold JS.Math_ceil. apply min_min_absorb. exact Ho. }
  split; [reflexivity |]. split; [exact Hend |].
  split; [reflexivity |]. split; [reflexivity |].
  intros Hlen -> Hs.
  assert (Hstart : Virtualization.start range = 45).
  { unfold range, Virtualization.visibleRange.
    cbn [Virtualization.start Virtualization.itemHeight].
    unfold JS.Math_floor. rewrite Hs. reflexivity. }
  split; [exact Hstart |]. split; [| split].
  - rewrite Hend. subst len. rewrite Hlen.
    cbn [Virtualization.containerHeight Virtualization.itemHeight].
    rewrite Hs. reflexivity.
  - unfold Virtualization.totalHeight. subst len. rewrite Hlen. reflexivity.
  - unfold Virtualization.offsetY. fold range. rewrite Hstart. reflexivity.
Qed.

Lemma virtual_window_witness :
  let items := repeat tt (Z.to_nat 10000) in
  let options := {| Virtualization.itemHeight := 40;
                    Virtualization.containerHeight := 400;
                    Virtualization.overscan := Some 5 |} in
  (0 < Virtualization.itemHeight options)%Q
  /\ 0 <= Virtualization.overscanOrDefault options
  /\ Virtualization.start (Virtualization.visibleRange items options 2000) = 45
  /\ Virtualization.end_ (Virtualization.visibleRange items options 2000) = 65
  /\ (Virtualization.totalHeight items options == 400000)%Q
  /\ (Virtualization.offsetY items options 2000 == 1800)%Q.
Proof.
  split; [reflexivity |]. split; [discriminate |].
  pose proof (virtual_window (repeat tt (Z.to_nat 10000))
                {| Virtualization.itemHeight := 40;
                   Virtualization.containerHeight := 400;
                   Virtualization.overscan := Some 5 |} 2000) as H.
  cbv zeta in H. destruct H as (_ & _ & _ & _ & H); [reflexivity | discriminate |].
  apply H; [vm_compute | |]; reflexivity.
Defined.

(** C5, the claim as stated fails for a negative overscan: with ten items of
    height 10 in a container of 1000 and overscan -1 the code clamps [end]
    to 9 before it adds the overscan and gives 8, where the stated formula
    gives 9. *)
Lemma virtual_window_negative_overscan :
  let items := repeat tt 10 in
  let options := {| Virtualization.itemHeight := 10;
                    Virtualization.containerHeight := 1000;
                    Virtualization.overscan := Some (-1) |} in
  Virtualization.end_ (Virtualization.visibleRange items options 0) = 8
  /\ Z.min (Z.of_nat (length items) - 1)
           (Qceiling ((0 + Virtualization.containerHeight options)
                      / Virtualization.itemHeight options)
            + Virtualization.overscanOrDefault options) = 9
  /\ ~ (Virtualization.end_ (Virtualization.visibleRange items options 0)
        = Z.min (Z.of_nat (length items) - 1)
            (Qceiling ((0 + Virtualization.containerHeight options)
                       / Virtualization.itemHeight options)
             + Virtualization.overscanOrDefault options)).
Proof.
  cbv zeta. split; [reflexivity | split; [reflexivity | discriminate]].
Qed.

(** ** Filter engine *)

Lemma filter_all {A} (f : A -> bool) (l : list A) :
  (forall x, f x = true) -> filter f l = l.
Proof.
  intros Hf. induction l as [| x l IH]; cbn; [reflexivity |].
  rewrite Hf, IH. reflexivity.
Qed.

(** Without a category list the predicate of [filterData] is the conjunction
    of the value test and the time test. *)
Lemma filterPredicate_no_categories (lo hi : option Q) (r : option TimeRange)
    (p : DataPoint) :
  filterPredicate {| crit_categories := None; crit_minValue := lo;
                     crit_maxValue := hi; crit_timeRange := r |} p
  = valueWithin lo hi (value p) && timeWithin r (timestamp p).
Proof.
  unfold filterPredicate, valueWithin, timeWithin, Qgtb, Qltb.
  cbn [crit_categories crit_minValue crit_maxValue crit_timeRange].
  destruct lo as [lo |], hi as [hi |], r as [r |]; cbn;
    repeat match goal with
           | |- context [Qle_bool ?a ?b] => destruct (Qle_bool a b); cbn
           end;
    try reflexivity;
    rewrite Z.gtb_ltb;
    destruct (Z.ltb_spec (timestamp p) (range_start r));
    destruct (Z.ltb_spec (range_end r) (timestamp p));
    destruct (Z.leb_spec (range_start r) (timestamp p));
    destruct (Z.leb_spec (timestamp p) (range_end r));
    cbn; try reflexivity; lia.
Qed.

(** With the empty array as category list, [filterData] itself keeps no
    sample: the array is truthy and contains no category.  The provider
    does not pass an empty array on. *)
Lemma filterData_empty_array (data : list DataPoint) (lo hi : option Q)
    (r : option TimeRange) :
  filterData data {| crit_categories := Some []; crit_minValue := lo;
                     crit_maxValue := hi; crit_timeRange := r |} = [].
Proof.
  unfold filterData. induction data as [| p data IH]; [reflexivity |].
  cbn [filter]. rewrite IH. reflexivity.
Qed.

(** C1: for every sequence of samples and every filter whose category set is
    empty, the provider's filter stage keeps a sample whatever its category:
    it keeps exactly the samples whose value lies within
    [minValue, maxValue] and whose timestamp lies within [start, end], each
    absent bound being unbounded, in input order; so does the whole
    [filteredData] at the default aggregation period. *)
Theorem filter_empty_category_set (data : list DataPoint) (filters : FilterOptions) :
  categories filters = [] ->
  let kept := filter (fun p => valueWithin (minValue filters) (maxValue filters) (value p)
                               && timeWithin (timeRange filters) (timestamp p)) data in
  DataProvider.applyFilters data filters = kept
  /\ DataProvider.filteredData data filters P1min = JS.Returned kept.
Proof.
  intros Hc kept.
  assert (H : DataProvider.applyFilters data filters = kept).
  { unfold DataProvider.applyFilters. rewrite Hc. cbn [length Nat.ltb Nat.leb].
    destruct (DataProvider.isSome (minValue filters)
              || DataProvider.isSome (maxValue filters)
              || DataProvider.isSome (timeRange filters)) eqn:E.
    - unfold filterData, kept. apply filter_ext. intros p.
      apply filterPredicate_no_categories.
    - unfold kept. symmetry. apply filter_all. intros p.
      destruct (minValue filters), (maxValue filters), (timeRange filters);
        try discriminate E. reflexivity. }
  split; [exact H |].
  unfold DataProvider.filteredData. cbn [DataProvider.is1min negb andb].
  rewrite H. reflexivity.
Qed.

Lemma filter_empty_category_set_witness :
  let hot := {| timestamp := 10; value := 80; category := "temperature"; metadata := None |} in
  let low := {| timestamp := 20; value := 3; category := "pressure"; metadata := None |} in
  let late := {| timestamp := 900; value := 50; category := "voltage"; metadata := None |} in
  let filters := {| categories := []; minValue := Some 5%Q; maxValue := None;
                    timeRange := Some {| range_start := 0; range_end := 100 |} |} in
  DataProvider.applyFilters [hot; low; late] filters = [hot].
Proof.
  cbv zeta.
  exact (proj1 (filter_empty_category_set
                  [ {| timestamp := 10; value := 80; category := "temperature"; metadata := None |};
                    {| timestamp := 20; value := 3; category := "pressure"; metadata := None |};
                    {| timestamp := 900; value := 50; category := "voltage"; metadata := None |} ]
                  {| categories := []; minValue := Some 5%Q; maxValue := None;
                     timeRange := Some {| range_start := 0; range_end := 100 |} |}
                  eq_refl)).
Defined.

(** ** Bounded stream buffer *)

Section Buffer.

Context {A : Type}.

Lemma lastn_length (n : nat) (l : list A) :
  length (lastn n l) = Nat.min n (length l).
Proof. unfold lastn. rewrite length_skipn. lia. Qed.

Lemma lastn_all (n : nat) (l : list A) :
  (length l <= n)%nat -> lastn n l = l.
Proof.
  intros H. unfold lastn. replace (length l - n)%nat with 0%nat by lia.
  reflexivity.
Qed.

(** Trimming twice is trimming once: only the last [n] elements of what was
    there before matter once more elements are appended. *)
Lemma lastn_app_lastn (n : nat) (l l' : list A) :
  lastn n (lastn n l ++ l') = lastn n (l ++ l').
Proof.
  destruct (Nat.le_gt_cases (length l) n) as [Hle | Hgt].
  - rewrite (lastn_all n l Hle). reflexivity.
  - unfold lastn at 1 3. rewrite !length_app, lastn_length.
    rewrite !skipn_app. unfold lastn. rewrite length_skipn, skipn_skipn.
    f_equal; f_equal; lia.
Qed.

(** Of a list longer than [n] followed by more than [n] elements, the last
    [n] all come from the second part. *)
Lemma lastn_app_long (n : nat) (l l' : list A) :
  (n <= length l')%nat -> lastn n (l ++ l') = lastn n l'.
Proof.
  intros H. unfold lastn. rewrite length_app, skipn_app.
  rewrite (skipn_all2 l) by lia. cbn [app]. f_equal. lia.
Qed.

(** [updated.slice(-m)] with a positive [m] keeps the last [m] elements. *)
Lemma slice_negative (m : Z) (l : list A) :
  0 < m -> JS.slice l (- m) None = lastn (Z.to_nat m) l.
Proof.
  intros Hm. unfold JS.slice, JS.relative_index, lastn.
  destruct (Z.ltb_spec (- m) 0) as [_ | H]; [| lia].
  set (k := Z.max (Z.of_nat (length l) + - m) 0).
  assert (Hk : Z.to_nat k = (length l - Z.to_nat m)%nat) by lia.
  rewrite Hk. apply firstn_all2. rewrite length_skipn. lia.
Qed.

(** [updated.slice(-0)] is [updated.slice(0)]: nothing is dropped. *)
Lemma slice_zero (l : list A) : JS.slice l (- 0) None = l.
Proof.
  unfold JS.slice, JS.relative_index. cbn [Z.opp Z.ltb Z.compare].
  rewrite Z.min_l by lia. cbn [Z.to_nat skipn]. rewrite Z.sub_0_r, Nat2Z.id.
  apply firstn_all.
Qed.

End Buffer.

Lemma appendPoints_lastn (m : Z) (prev pts : list DataPoint) :
  0 < m -> DataStream.appendPoints m prev pts = lastn (Z.to_nat m) (prev ++ pts).
Proof.
  intros Hm. unfold DataStream.appendPoints.
  destruct (Z.gtb_spec (Z.of_nat (length (prev ++ pts))) m) as [H | H].
  - apply slice_negative. exact Hm.
  - symmetry. apply lastn_all. lia.
Qed.

Lemma appendPoint_lastn (m : Z) (prev : list DataPoint) (p : DataPoint) :
  0 < m -> DataStream.appendPoint m prev p = lastn (Z.to_nat m) (prev ++ [p]).
Proof. intros Hm. exact (appendPoints_lastn m prev [p] Hm). Qed.

(** ** Sample source *)

(** Clamping into [0, 100] and rounding to hundredths stays within [0, 100]. *)
Lemma round_hundredths_bounds (v : Q) :
  (0 <= v)%Q -> (v <= 100)%Q ->
  0 <= JS.Math_round (v * 100) <= 10000.
Proof.
  intros Hlo Hhi. unfold JS.Math_round. split.
  - change 0 with (Qfloor (0 * 100 + (1 # 2))). apply Qfloor_resp_le. lra.
  - change 10000 with (Qfloor (100 * 100 + (1 # 2))). apply Qfloor_resp_le. lra.
Qed.

Lemma clamp_round_bounds (x : Q) :
  let v := Qmax 0 (Qmin 100 x) in
  let r := (inject_Z (JS.Math_round (v * 100)) / 100)%Q in
  (0 <= r)%Q /\ (r <= 100)%Q /\ twoDecimals r.
Proof.
  intros v r.
  assert (Hlo : (0 <= v)%Q) by apply Q.le_max_l.
  assert (Hhi : (v <= 100)%Q).
  { apply Q.max_lub; [discriminate | apply Q.le_min_l]. }
  destruct (round_hundredths_bounds v Hlo Hhi) as [Hk0 Hk1].
  split; [| split]; [| | exists (JS.Math_round (v * 100)); reflexivity];
    subst r; generalize dependent (JS.Math_round (v * 100)); intros k Hk0 Hk1;
    unfold Qdiv, Qle; cbn; lia.
Qed.

(** What [generatePoint] returns: the clamped and rounded value, and a
    generator with the same value range. *)
Lemma generatePoint_value (rnd : nat -> Q) (sin : Q -> Q) (category : option string)
    (offset : option Z) (g : DataGenerator.t) (n : nat) :
  let res := DataGenerator.generatePoint rnd sin category offset (g, n) in
  DataGenerator.valueRange (fst (snd res)) = DataGenerator.valueRange g
  /\ exists x : Q,
       value (fst res)
       = (inject_Z (JS.Math_round
                      (Qmax (fst (DataGenerator.valueRange g))
                            (Qmin (snd (DataGenerator.valueRange g)) x) * 100))
          / 100)%Q.
Proof.
  unfold DataGenerator.generatePoint.
  destruct category as [c |]; [destruct (String.eqb c "") |];
    cbn; (split; [reflexivity | eexists; reflexivity]).
Qed.

Lemma generatePoint_clamped (rnd : nat -> Q) (sin : Q -> Q) (category : option string)
    (offset : option Z) (g : DataGenerator.t) (n : nat) :
  DataGenerator.valueRange g = (0, 100)%Q ->
  clampedSample (fst (DataGenerator.generatePoint rnd sin category offset (g, n))).
Proof.
  intros Hr.
  destruct (generatePoint_value rnd sin category offset g n) as (_ & x & Hx).
  unfold clampedSample. rewrite Hx, Hr. cbn [fst snd].
  apply clamp_round_bounds.
Qed.

Lemma generateBatch_loop_clamped (rnd : nat -> Q) (sin : Q -> Q) (todo : nat) :
  forall (i start : Z) (g : DataGenerator.t) (n : nat),
    DataGenerator.valueRange g = (0, 100)%Q ->
    Forall clampedSample
           (fst (DataGenerator.generateBatch_loop rnd sin todo i start (g, n))).
Proof.
  induction todo as [| todo IH]; intros i start g n Hr.
  - constructor.
  - cbn [DataGenerator.generateBatch_loop]. unfold DataGenerator.bind at 1.
    pose proof (generatePoint_clamped rnd sin None (Some (start + i * 100)) g n Hr) as Hp.
    destruct (generatePoint_value rnd sin None (Some (start + i * 100)) g n) as (Hg & _).
    destruct (DataGenerator.generatePoint rnd sin None (Some (start + i * 100)) (g, n))
      as [p [g' n']].
    cbn [fst snd] in Hp, Hg. unfold DataGenerator.bind at 1.
    specialize (IH (i + 1) start g' n' (eq_trans Hg Hr)).
    destruct (DataGenerator.generateBatch_loop rnd sin todo (i + 1) start (g', n'))
      as [ps st].
    cbn [fst] in *. constructor; assumption.
Qed.

Lemma generateBatch_loop_length (rnd : nat -> Q) (sin : Q -> Q) (todo : nat) :
  forall (i start : Z) (st : DataGenerator.t * nat),
    length (fst (DataGenerator.generateBatch_loop rnd sin todo i start st)) = todo.
Proof.
  induction todo as [| todo IH]; intros i start st; [reflexivity |].
  cbn [DataGenerator.generateBatch_loop]. unfold DataGenerator.bind at 1.
  destruct (DataGenerator.generatePoint rnd sin None (Some (start + i * 100)) st)
    as [p st1].
  unfold DataGenerator.bind at 1. specialize (IH (i + 1) start st1).
  destruct (DataGenerator.generateBatch_loop rnd sin todo (i + 1) start st1)
    as [ps st2].
  unfold DataGenerator.ret. cbn [fst length] in *. rewrite IH. reflexivity.
Qed.

(** C10: under the default value range [{ min: 0, max: 100 }], whatever the
    random draws, the sine, the category and the offset, the sample made by
    [generatePoint], and so the one made by [generateNext] and each one made
    by [generateBatch], has a value within [0, 100] that is a whole number
    of hundredths. *)
Theorem generated_value_clamped (rnd : nat -> Q) (sin : Q -> Q)
    (g : DataGenerator.t) (n : nat) :
  DataGenerator.valueRange g = (0, 100)%Q ->
  (forall category offset,
      clampedSample (fst (DataGenerator.generatePoint rnd sin category offset (g, n))))
  /\ (forall lastTimestamp,
      clampedSample (fst (DataGenerator.generateNext rnd sin lastTimestamp (g, n))))
  /\ (forall count startTime,
      length (fst (DataGenerator.generateBatch rnd sin count startTime (g, n))) = count
      /\ Forall clampedSample
                (fst (DataGenerator.generateBatch rnd sin count startTime (g, n)))).
Proof.
  intros Hr. split; [| split].
  - intros category offset. apply generatePoint_clamped. exact Hr.
  - intros lastTimestamp. apply generatePoint_clamped. exact Hr.
  - intros count startTime. unfold DataGenerator.generateBatch, DataGenerator.bind.
    cbn [DataGenerator.this fst]. split.
    + apply generateBatch_loop_length.
    + apply generateBatch_loop_clamped. exact Hr.
Qed.

Lemma generated_value_clamped_witness :
  let g := DataGenerator.new 1700000000000 in
  let rnd := fun k : nat => (inject_Z (Z.of_nat k) / 7)%Q in
  clampedSample
    (fst (DataGenerator.generatePoint rnd (fun _ => 1%Q) None (Some 300) (g, 0%nat)))
  /\ Forall clampedSample
            (fst (DataGenerator.generateBatch rnd (fun _ => 1%Q) 3 None (g, 0%nat))).
Proof.
  cbv zeta.
  pose proof (generated_value_clamped
                (fun k : nat => (inject_Z (Z.of_nat k) / 7)%Q) (fun _ => 1%Q)
                (DataGenerator.new 1700000000000) 0 eq_refl) as (H1 & _ & H3).
  split; [apply H1 | apply H3].
Defined.

(** ** Viewport calculator *)

Lemma Math_min_lower (vs : list Q) :
  forall v, (JS.Math_min v vs <= v)%Q
            /\ (forall x, In x vs -> (JS.Math_min v vs <= x)%Q).
Proof.
  unfold JS.Math_min. induction vs as [| y vs IH]; intros v; cbn [fold_left].
  - split; [apply Qle_refl | intros x []].
  - destruct (IH (Qmin v y)) as [H1 H2]. split.
    + eapply Qle_trans; [exact H1 | apply Q.le_min_l].
    + intros x [<- | Hx]; [| exact (H2 x Hx)].
      eapply Qle_trans; [exact H1 | apply Q.le_min_r].
Qed.

Lemma Math_max_upper (vs : list Q) :
  forall v, (v <= JS.Math_max v vs)%Q
            /\ (forall x, In x vs -> (x <= JS.Math_max v vs)%Q).
Proof.
  unfold JS.Math_max. induction vs as [| y vs IH]; intros v; cbn [fold_left].
  - split; [apply Qle_refl | intros x []].
  - destruct (IH (Qmax v y)) as [H1 H2]. split.
    + eapply Qle_trans; [apply Q.le_max_l | exact H1].
    + intros x [<- | Hx]; [| exact (H2 x Hx)].
      eapply Qle_trans; [apply Q.le_max_r | exact H1].
Qed.

(** The minimum and the maximum are among the arguments. *)
Lemma Math_min_in (vs : list Q) :
  forall v, In (JS.Math_min v vs) (v :: vs).
Proof.
  unfold JS.Math_min. induction vs as [| y vs IH]; intros v; cbn [fold_left].
  - left. reflexivity.
  - assert (E : Qmin v y = v \/ Qmin v y = y).
    { unfold Qmin, GenericMinMax.gmin. destruct (v ?= y)%Q; auto. }
    specialize (IH (Qmin v y)).
    destruct IH as [H | H]; [| right; right; exact H].
    destruct E as [E | E]; rewrite E in H at 1; [left | right; left]; exact H.
Qed.

Lemma Math_max_in (vs : list Q) :
  forall v, In (JS.Math_max v vs) (v :: vs).
Proof.
  unfold JS.Math_max. induction vs as [| y vs IH]; intros v; cbn [fold_left].
  - left. reflexivity.
  - assert (E : Qmax v y = v \/ Qmax v y = y).
    { unfold Qmax, GenericMinMax.gmax. destruct (v ?= y)%Q; auto. }
    specialize (IH (Qmax v y)).
    destruct IH as [H | H]; [| right; right; exact H].
    destruct E as [E | E]; rewrite E in H at 1; [left | right; left]; exact H.
Qed.

(** When all arguments are equal, so are the minimum and the maximum. *)
Lemma Math_min_max_constant (v : Q) (vs : list Q) :
  (forall x, In x vs -> (x == v)%Q) ->
  (JS.Math_min v vs == v)%Q /\ (JS.Math_max v vs == v)%Q.
Proof.
  intros Hall. split.
  - destruct (Math_min_in vs v) as [<- | H]; [reflexivity | apply Hall, H].
  - destruct (Math_max_in vs v) as [<- | H]; [reflexivity | apply Hall, H].
Qed.

(** When two arguments differ, the minimum is below the maximum. *)
Lemma Math_min_lt_max (v : Q) (vs : list Q) (x : Q) :
  In x vs -> ~ (x == v)%Q -> (JS.Math_min v vs < JS.Math_max v vs)%Q.
Proof.
  intros Hx Hne.
  destruct (Math_min_lower vs v) as [Hm1 Hm2].
  destruct (Math_max_upper vs v) as [HM1 HM2].
  specialize (Hm2 x Hx). specialize (HM2 x Hx).
  destruct (Q_dec x v) as [[Hlt | Hgt] | Heq]; [lra | lra | contradiction].
Qed.

Lemma map_in_Z (f : DataPoint -> Q) (ps : list DataPoint) (x : Q) :
  In x (map f ps) -> exists q, In q ps /\ x = f q.
Proof.
  intros H. apply in_map_iff in H. destruct H as (q & <- & Hq).
  exists q. split; [exact Hq | reflexivity].
Qed.

(** C2 (as the code has it): [calculateViewport] substitutes no epsilon.  For
    a non-empty input and a padding that is not negative: when all
    timestamps are equal the viewport has zero width ([xMax = xMin]), and
    when two differ [xMax > xMin]; when all values are equal
    [yMax <= yMin], and when two differ [yMax > yMin] exactly when
    [yMax > 0]. *)
Theorem viewport_extent (now : Z) (p : DataPoint) (ps : list DataPoint)
    (padding : option Q) :
  (forall q, padding = Some q -> (0 <= q)%Q) ->
  let vp := calculateViewport now (p :: ps) padding in
  ((forall q, In q ps -> timestamp q = timestamp p) -> (xMax vp == xMin vp)%Q)
  /\ ((exists q, In q ps /\ timestamp q <> timestamp p) -> (xMin vp < xMax vp)%Q)
  /\ ((forall q, In q ps -> (value q == value p)%Q) -> (yMax vp <= yMin vp)%Q)
  /\ ((exists q, In q ps /\ ~ (value q == value p)%Q) ->
      ((yMin vp < yMax vp)%Q <-> (0 < yMax vp)%Q)).
Proof.
  intros Hpad vp.
  set (pad := match padding with Some q => q | None => (1 # 10)%Q end).
  assert (Hp : (0 <= pad)%Q).
  { unfold pad. destruct padding as [q |]; [apply Hpad; reflexivity | discriminate]. }
  set (ts := map (fun q => inject_Z (timestamp q)) ps).
  set (vs := map value ps).
  assert (Hx : xMin vp = (JS.Math_min (inject_Z (timestamp p)) ts
                          - (JS.Math_max (inject_Z (timestamp p)) ts
                             - JS.Math_min (inject_Z (timestamp p)) ts) * pad)%Q
               /\ xMax vp = (JS.Math_max (inject_Z (timestamp p)) ts
                             + (JS.Math_max (inject_Z (timestamp p)) ts
                                - JS.Math_min (inject_Z (timestamp p)) ts) * pad)%Q
               /\ yMin vp = Qmax 0 (JS.Math_min (value p) vs
                                    - (JS.Math_max (value p) vs
                                       - JS.Math_min (value p) vs) * pad)
               /\ yMax vp = (JS.Math_max (value p) vs
                             + (JS.Math_max (value p) vs
                                - JS.Math_min (value p) vs) * pad)%Q).
  { repeat split; reflexivity. }
  destruct Hx as (-> & -> & -> & ->). clearbody pad. clear vp.
  split; [| split; [| split]].
  - intros Hall.
    destruct (Math_min_max_constant (inject_Z (timestamp p)) ts) as [Hm HM].
    { intros x Hin. apply map_in_Z in Hin. destruct Hin as (q & Hq & ->).
      rewrite (Hall q Hq). reflexivity. }
    rewrite Hm, HM. ring.
  - intros (q & Hq & Hne).
    assert (Hlt : (JS.Math_min (inject_Z (timestamp p)) ts
                   < JS.Math_max (inject_Z (timestamp p)) ts)%Q).
    { apply (Math_min_lt_max _ _ (inject_Z (timestamp q))).
      - unfold ts. apply (in_map (fun q => inject_Z (timestamp q))). exact Hq.
      - intros E. apply Hne. apply inject_Z_injective. exact E. }
    generalize dependent (JS.Math_min (inject_Z (timestamp p)) ts).
    generalize dependent (JS.Math_max (inject_Z (timestamp p)) ts).
    intros M m Hlt. nra.
  - intros Hall.
    destruct (Math_min_max_constant (value p) vs) as [Hm HM].
    { intros x Hin. apply map_in_Z in Hin. destruct Hin as (q & Hq & ->).
      apply Hall, Hq. }
    rewrite Hm, HM.
    eapply Qle_trans; [| apply Q.le_max_r]. ring_simplify. apply Qle_refl.
  - intros (q & Hq & Hne).
    assert (Hlt : (JS.Math_min (value p) vs < JS.Math_max (value p) vs)%Q).
    { apply (Math_min_lt_max _ _ (value q)); [| exact Hne].
      unfold vs. apply in_map. exact Hq. }
    generalize dependent (JS.Math_min (value p) vs).
    generalize dependent (JS.Math_max (value p) vs).
    intros M m Hlt. rewrite Q.max_lub_lt_iff. split; [tauto |].
    intros H0. split; [exact H0 | nra].
Qed.

Lemma viewport_extent_witness :
  let a := {| timestamp := 1000; value := 10; category := "humidity"; metadata := None |} in
  let b := {| timestamp := 1000; value := 30; category := "humidity"; metadata := None |} in
  let vp := calculateViewport 0 [a; b] (Some (1 # 10)%Q) in
  (xMax vp == xMin vp)%Q /\ (yMin vp < yMax vp)%Q.
Proof.
  cbv zeta.
  pose proof (viewport_extent 0
    {| timestamp := 1000; value := 10; category := "humidity"; metadata := None |}
    [ {| timestamp := 1000; value := 30; category := "humidity"; metadata := None |} ]
    (Some (1 # 10)%Q)) as H.
  cbv zeta in H. destruct H as (Hx & _ & _ & Hy).
  - intros q [= <-]. discriminate.
  - split.
    + apply Hx. intros q [<- | []]. reflexivity.
    + apply Hy; [| reflexivity].
      eexists. split; [left; reflexivity | discriminate].
Defined.

(** C2, the claim as stated fails: the viewport of a single sample has
    [xMin = xMax] and [yMin = yMax]; no epsilon range is substituted. *)
Lemma viewport_single_sample_degenerate :
  let a := {| timestamp := 1000; value := 10; category := "humidity"; metadata := None |} in
  let vp := calculateViewport 0 [a] None in
  (xMin vp == 1000)%Q /\ (xMax vp == 1000)%Q
  /\ (yMin vp == 10)%Q /\ (yMax vp == 10)%Q
  /\ ~ ((xMin vp < xMax vp)%Q /\ (yMin vp < yMax vp)%Q).
Proof.
  cbv zeta. repeat split; try reflexivity.
  intros [H _]. vm_compute in H. discriminate H.
Qed.

(** ** Level-of-detail decimation *)

(** The loop visits the indices [i, i + step, i + 2 step, ...]: the [k]-th
    output comes from index [i + k * step], as long as that is an index.
    The fuel [length data] is never what stops it. *)
Lemma forStride_nth_error {A B} (body : A -> B) (data : list A) (step : nat) :
  (1 <= step)%nat ->
  forall fuel i k,
    (length data <= i + fuel)%nat ->
    nth_error (forStride fuel body data step i) k
    = option_map body (nth_error data (i + k * step)).
Proof.
  intros Hs. induction fuel as [| fuel IH]; intros i k Hlen; cbn [forStride].
  - rewrite nth_error_nil. symmetry.
    replace (nth_error data (i + k * step)) with (@None A); [reflexivity |].
    symmetry. apply nth_error_None. lia.
  - destruct (nth_error data i) as [point |] eqn:Hi.
    + destruct k as [| k]; cbn [nth_error].
      * rewrite Nat.mul_0_l, Nat.add_0_r, Hi. reflexivity.
      * rewrite IH by lia. do 2 f_equal. lia.
    + rewrite nth_error_nil. apply nth_error_None in Hi. symmetry.
      replace (nth_error data (i + k * step)) with (@None A); [reflexivity |].
      symmetry. apply nth_error_None. nia.
Qed.

Lemma ceilDiv_bounds (n s : nat) :
  (1 <= s)%nat ->
  (n <= ceilDiv n s * s)%nat
  /\ (1 <= ceilDiv n s -> (ceilDiv n s - 1) * s < n)%nat
  /\ (1 <= n -> 1 <= ceilDiv n s)%nat.
Proof.
  intros Hs. unfold ceilDiv.
  pose proof (Nat.div_mod_eq (n + s - 1) s) as E.
  pose proof (Nat.mod_upper_bound (n + s - 1) s ltac:(lia)) as Hm.
  set (q := ((n + s - 1) / s)%nat) in *. set (r := ((n + s - 1) mod s)%nat) in *.
  repeat split; nia.
Qed.

(** The output of a strided loop from index 0 with enough fuel. *)
Lemma forStride_spec {A} (data : list A) (s : nat) :
  (1 <= s)%nat ->
  let out := forStride (length data) (fun point => point) data s 0 in
  (forall k, nth_error out k = nth_error data (k * s))
  /\ length out = ceilDiv (length data) s
  /\ (forall x, In x out -> In x data)
  /\ (data <> [] -> out <> []).
Proof.
  intros Hs out.
  assert (Hnth : forall k, nth_error out k = nth_error data (k * s)).
  { intros k. unfold out. rewrite forStride_nth_error by lia.
    cbn [Nat.add]. destruct (nth_error data (k * s)); reflexivity. }
  destruct (ceilDiv_bounds (length data) s Hs) as (Hup & Hlow & Hpos).
  assert (Hlen : length out = ceilDiv (length data) s).
  { apply Nat.le_antisymm.
    - apply nth_error_None. rewrite Hnth. apply nth_error_None. exact Hup.
    - destruct (ceilDiv (length data) s) as [| c] eqn:Ec; [lia |].
      apply Nat.le_succ_l. apply nth_error_Some. rewrite Hnth.
      apply nth_error_Some. specialize (Hlow ltac:(lia)).
      replace (S c - 1)%nat with c in Hlow by lia. exact Hlow. }
  split; [exact Hnth | split; [exact Hlen | split]].
  - intros x Hx. apply In_nth_error in Hx. destruct Hx as [k Hk].
    rewrite Hnth in Hk. eapply nth_error_In. exact Hk.
  - intros Hne Hout. rewrite Hout in Hlen. cbn in Hlen.
    destruct data as [| a data]; [contradiction |].
    specialize (Hpos ltac:(cbn; lia)). lia.
Qed.

(** Both renderers hand the visited points to [dataToCanvas] one by one. *)
Lemma forStride_map {A B} (body : A -> B) (data : list A) (step : nat) :
  forall fuel i,
    forStride fuel body data step i
    = map body (forStride fuel (fun point => point) data step i).
Proof.
  induction fuel as [| fuel IH]; intros i; cbn [forStride]; [reflexivity |].
  destruct (nth_error data i); [| reflexivity].
  cbn [map]. rewrite IH. reflexivity.
Qed.

Lemma path_of_sampled (data : list DataPoint) (bounds : ChartBounds) (viewport : Viewport) :
  ChartRenderer.path data bounds viewport
  = map (fun point => dataToCanvas point bounds viewport) (ChartRenderer.sampled data)
  /\ ScatterPlot.discs data bounds viewport
     = map (fun point => dataToCanvas point bounds viewport) (ScatterPlot.sampled data).
Proof. split; apply forStride_map. Qed.

(** C7 (as the code has it): the scatter plot draws with stride
    [max(1, floor(length / 10000))]; the line renderer draws with stride
    [max(1, floor(length / 2000))] only above 50000 points and with stride 1
    up to there.  With its stride [s], each renderer visits exactly the
    elements at indices 0, s, 2s, ... of the input, in that order:
    [ceil(length / s)] of them, at least one when the input is not empty,
    and none that is not in the input. *)
Theorem lod_stride (data : list DataPoint) :
  let n := Z.of_nat (length data) in
  ScatterPlot.step data = Z.max 1 (n / 10000)
  /\ ChartRenderer.step data = (if n >? 50000 then Z.max 1 (n / 2000) else 1)
  /\ forall out s,
       (out = ScatterPlot.sampled data /\ s = Z.to_nat (ScatterPlot.step data))
       \/ (out = ChartRenderer.sampled data /\ s = Z.to_nat (ChartRenderer.step data)) ->
       (1 <= s)%nat
       /\ (forall k, nth_error out k = nth_error data (k * s))
       /\ (forall j k, (j < k)%nat -> (j * s < k * s)%nat)
       /\ length out = ceilDiv (length data) s
       /\ (forall x, In x out -> In x data)
       /\ (data <> [] -> out <> []).
Proof.
  intros n.
  assert (Hsc : ScatterPlot.step data = Z.max 1 (n / 10000)).
  { unfold ScatterPlot.step. fold n.
    destruct (Z.gtb_spec n 10000) as [H | H]; [reflexivity |].
    assert (n / 10000 <= 1) by (apply Z.div_le_upper_bound; lia). lia. }
  split; [exact Hsc | split; [reflexivity |]].
  intros out s Hcase.
  assert (Hs : (1 <= s)%nat).
  { destruct Hcase as [[_ ->] | [_ ->]].
    - rewrite Hsc. lia.
    - unfold ChartRenderer.step. destruct (ChartRenderer.useLowDetail data); lia. }
  assert (Hout : out = forStride (length data) (fun point => point) data s 0).
  { destruct Hcase as [[-> ->] | [-> ->]]; reflexivity. }
  destruct (forStride_spec data s Hs) as (H1 & H2 & H3 & H4).
  rewrite <- Hout in H1, H2, H3, H4.
  split; [exact Hs | split; [exact H1 | split; [| split; [exact H2 | split; [exact H3 | exact H4]]]]].
  intros j k Hjk. nia.
Qed.

(** C7, the claim as stated fails for the line renderer with target density
    2000: on 4000 points it draws with stride 1, all 4000 of them, where
    [max(1, floor(4000 / 2000))] is 2. *)
Lemma line_renderer_full_detail_at_4000 :
  let data := repeat {| timestamp := 0; value := 1; category := "current";
                        metadata := None |} 4000 in
  ChartRenderer.step data = 1
  /\ Z.max 1 (Z.of_nat (length data) / 2000) = 2
  /\ length (ChartRenderer.sampled data) = 4000%nat
  /\ ChartRenderer.step data <> Z.max 1 (Z.of_nat (length data) / 2000).
Proof.
  cbv zeta. split; [vm_compute; reflexivity |].
  split; [vm_compute; reflexivity |].
  split; [vm_compute; reflexivity |].
  vm_compute. discriminate.
Qed.

(** ** Aggregation engine *)

(** For a positive period the bucket key is [floor(timestamp / w) * w] on
    integers. *)
Lemma bucketTimeOf_div (w : Z) (p : DataPoint) :
  bucketTimeOf w p = timestamp p / w * w.
Proof. unfold bucketTimeOf, JS.Math_floor. rewrite <- Zdiv_Qdiv. reflexivity. Qed.

(** [groupPoint] never throws: the key it reads was set just before. *)
Lemma groupPoint_read (k : Z) (p : DataPoint) (m : JS.Map (list DataPoint)) :
  exists ps,
    JS.Map_get k (if negb (JS.Map_has k m) then JS.Map_set k [] m else m) = Some ps
    /\ JS.Map_set k (ps ++ [p])
                   (if negb (JS.Map_has k m) then JS.Map_set k [] m else m)
       = pushPoint k p m.
Proof.
  induction m as [| [k' v] m IH].
  - cbn [JS.Map_has negb JS.Map_set JS.Map_get pushPoint].
    rewrite Z.eqb_refl. exists []. split; reflexivity.
  - cbn [JS.Map_has pushPoint]. destruct (Z.eqb_spec k k') as [-> | Hne].
    + cbn [orb negb JS.Map_get JS.Map_set]. rewrite Z.eqb_refl.
      exists v. split; reflexivity.
    + cbn [orb]. destruct IH as (ps & Hget & Hset). exists ps.
      destruct (JS.Map_has k m); cbn [negb] in *;
        cbn [JS.Map_set JS.Map_get];
        destruct (Z.eqb_spec k k'); try contradiction;
        cbn [JS.Map_set JS.Map_get];
        destruct (Z.eqb_spec k k'); try contradiction;
        (split; [exact Hget | rewrite Hset; reflexivity]).
Qed.

Lemma groupPoint_returns (w : Z) (m : JS.Map (list DataPoint)) (p : DataPoint) :
  groupPoint w m p = JS.Returned (pushPoint (bucketTimeOf w p) p m).
Proof.
  unfold groupPoint. cbv zeta.
  destruct (groupPoint_read (bucketTimeOf w p) p m) as (ps & Hget & Hset).
  rewrite Hget, Hset. reflexivity.
Qed.

Lemma groupPoints_returns (w : Z) (data : list DataPoint) :
  forall m, groupPoints w data m
            = JS.Returned (fold_left (fun m p => pushPoint (bucketTimeOf w p) p m) data m).
Proof.
  induction data as [| p data IH]; intros m; cbn [groupPoints fold_left].
  - reflexivity.
  - rewrite groupPoint_returns. cbn [JS.obind]. apply IH.
Qed.

Lemma Map_get_pushPoint (m : JS.Map (list DataPoint)) (k k0 : Z) (p : DataPoint) :
  JS.Map_get k (pushPoint k0 p m)
  = if k =? k0
    then Some (match JS.Map_get k0 m with Some ps => ps ++ [p] | None => [p] end)
    else JS.Map_get k m.
Proof.
  induction m as [| [k' v] m IH]; cbn [pushPoint JS.Map_get].
  - destruct (k =? k0); reflexivity.
  - destruct (Z.eqb_spec k0 k') as [-> | Hne]; cbn [JS.Map_get].
    + destruct (Z.eqb_spec k k'); reflexivity.
    + rewrite IH. destruct (Z.eqb_spec k k') as [-> | Hk]; [| reflexivity].
      destruct (Z.eqb_spec k' k0); [congruence | reflexivity].
Qed.

Lemma pushPoint_keys (m : JS.Map (list DataPoint)) (k0 : Z) (p : DataPoint) (k : Z) :
  In k (map fst (pushPoint k0 p m)) -> k = k0 \/ In k (map fst m).
Proof.
  induction m as [| [k' v] m IH]; cbn [pushPoint].
  - cbn. intros [<- | []]. left. reflexivity.
  - destruct (Z.eqb_spec k0 k'); cbn [map fst In]; [tauto |].
    intros [H | H]; [tauto |]. destruct (IH H); tauto.
Qed.

Lemma pushPoint_NoDup (m : JS.Map (list DataPoint)) (k0 : Z) (p : DataPoint) :
  NoDup (map fst m) -> NoDup (map fst (pushPoint k0 p m)).
Proof.
  induction m as [| [k' v] m IH]; cbn [pushPoint]; intros Hnd.
  - cbn. constructor; [intros [] | constructor].
  - destruct (Z.eqb_spec k0 k') as [-> | Hne]; [exact Hnd |].
    cbn [map fst] in *. inversion Hnd as [| ? ? Hin Hnd']; subst.
    constructor; [| apply IH, Hnd'].
    intros H. apply pushPoint_keys in H. destruct H as [-> | H]; [congruence | auto].
Qed.

Lemma members_app (w k : Z) (seen : list DataPoint) (p : DataPoint) :
  members w k (seen ++ [p])
  = members w k seen ++ (if bucketTimeOf w p =? k then [p] else []).
Proof. unfold members. rewrite filter_app. reflexivity. Qed.

Lemma grouped_nil (w : Z) : grouped w [] [].
Proof. split; [constructor | reflexivity]. Qed.

Lemma grouped_pushPoint (w : Z) (m : JS.Map (list DataPoint)) (seen : list DataPoint)
    (p : DataPoint) :
  grouped w m seen -> grouped w (pushPoint (bucketTimeOf w p) p m) (seen ++ [p]).
Proof.
  intros [Hnd Hget]. split; [apply pushPoint_NoDup, Hnd |].
  intros k. rewrite Map_get_pushPoint, members_app.
  rewrite (Z.eqb_sym (bucketTimeOf w p) k).
  destruct (Z.eqb_spec k (bucketTimeOf w p)) as [-> | Hne].
  - rewrite Hget. destruct (members w (bucketTimeOf w p) seen); reflexivity.
  - rewrite app_nil_r. apply Hget.
Qed.

Lemma grouped_fold (w : Z) (data : list DataPoint) :
  forall m seen,
    grouped w m seen ->
    grouped w (fold_left (fun m p => pushPoint (bucketTimeOf w p) p m) data m)
            (seen ++ data).
Proof.
  induction data as [| p data IH]; intros m seen H; cbn [fold_left].
  - rewrite app_nil_r. exact H.
  - replace (seen ++ p :: data) with ((seen ++ [p]) ++ data)
      by (rewrite <- app_assoc; reflexivity).
    apply IH, grouped_pushPoint, H.
Qed.

Lemma Map_get_In (m : JS.Map (list DataPoint)) (k : Z) (ps : list DataPoint) :
  JS.Map_get k m = Some ps -> In (k, ps) m.
Proof.
  induction m as [| [k' v] m IH]; cbn [JS.Map_get]; [discriminate |].
  destruct (Z.eqb_spec k k') as [-> | Hne].
  - intros [= ->]. left. reflexivity.
  - intros H. right. apply IH, H.
Qed.

Lemma In_Map_get (m : JS.Map (list DataPoint)) (k : Z) (ps : list DataPoint) :
  NoDup (map fst m) -> In (k, ps) m -> JS.Map_get k m = Some ps.
Proof.
  induction m as [| [k' v] m IH]; cbn [map fst JS.Map_get]; intros Hnd Hin.
  - destruct Hin.
  - inversion Hnd as [| ? ? Hnin Hnd']; subst.
    destruct Hin as [[= -> ->] | Hin].
    + rewrite Z.eqb_refl. reflexivity.
    + destruct (Z.eqb_spec k k') as [-> | Hne]; [| apply IH; assumption].
      exfalso. apply Hnin. apply (in_map fst) in Hin. exact Hin.
Qed.

(** Each bucket of a grouping holds exactly the samples of its key, in input
    order, and at least one. *)
Lemma grouped_In (w : Z) (m : JS.Map (list DataPoint)) (seen : list DataPoint)
    (k : Z) (ps : list DataPoint) :
  grouped w m seen -> In (k, ps) m -> ps = members w k seen /\ ps <> [].
Proof.
  intros [Hnd Hget] Hin. apply (In_Map_get m k ps Hnd) in Hin.
  rewrite Hget in Hin. destruct (members w k seen) as [| q qs]; [discriminate |].
  injection Hin as <-. split; [reflexivity | discriminate].
Qed.

(** Each sample seen is in the bucket of its key. *)
Lemma grouped_covers (w : Z) (m : JS.Map (list DataPoint)) (seen : list DataPoint)
    (p : DataPoint) :
  grouped w m seen -> In p seen ->
  exists ps, In (bucketTimeOf w p, ps) m.
Proof.
  intros [Hnd Hget] Hin. specialize (Hget (bucketTimeOf w p)).
  assert (Hp : In p (members w (bucketTimeOf w p) seen)).
  { unfold members. apply filter_In. split; [exact Hin | apply Z.eqb_refl]. }
  destruct (members w (bucketTimeOf w p) seen) as [| q qs]; [destruct Hp |].
  exists (q :: qs). apply Map_get_In, Hget.
Qed.

Lemma heldSamples_pushPoint (m : JS.Map (list DataPoint)) (k : Z) (p : DataPoint) :
  heldSamples (pushPoint k p m) = S (heldSamples m).
Proof.
  induction m as [| [k' v] m IH]; cbn [pushPoint]; [reflexivity |].
  destruct (k =? k'); cbn [heldSamples fold_right snd].
  - rewrite length_app. cbn. lia.
  - fold (heldSamples (pushPoint k p m)). rewrite IH.
    fold (heldSamples m). lia.
Qed.

Lemma heldSamples_fold (w : Z) (data : list DataPoint) :
  forall m,
    heldSamples (fold_left (fun m p => pushPoint (bucketTimeOf w p) p m) data m)
    = (heldSamples m + length data)%nat.
Proof.
  induction data as [| p data IH]; intros m; cbn [fold_left length].
  - lia.
  - rewrite IH, heldSamples_pushPoint. lia.
Qed.

(** The record [aggregateBucket] makes of a bucket. *)
Lemma aggregateBucket_fields (k : Z) (ps : list DataPoint) (b : DataPoint) :
  aggregateBucket k ps = JS.Returned b ->
  exists p0 rest,
    ps = p0 :: rest
    /\ timestamp b = k
    /\ category b = category p0
    /\ value b = (inject_Z (JS.Math_round (bucketAvg b * 100)) / 100)%Q
    /\ metadata b
       = Some (BucketMeta (length ps)
                 (JS.Math_min (value p0) (map value rest))
                 (JS.Math_max (value p0) (map value rest))
                 (JS.sum (map value ps) / inject_Z (Z.of_nat (length (map value ps))))).
Proof.
  unfold aggregateBucket. destruct ps as [| p0 rest]; [discriminate |].
  intros [= <-]. exists p0, rest. repeat split; reflexivity.
Qed.

Lemma aggregateBucket_count (k : Z) (ps : list DataPoint) (b : DataPoint) :
  aggregateBucket k ps = JS.Returned b -> bucketCount b = length ps.
Proof.
  intros H. apply aggregateBucket_fields in H.
  destruct H as (p0 & rest & _ & _ & _ & _ & Hm).
  unfold bucketCount. rewrite Hm. reflexivity.
Qed.

(** [aggregateBuckets] returns when no bucket is empty, one record per
    bucket in the order of the map. *)
Lemma aggregateBuckets_returns (m : JS.Map (list DataPoint)) :
  (forall k ps, In (k, ps) m -> ps <> []) ->
  exists bs,
    aggregateBuckets m = JS.Returned bs
    /\ Forall2 (fun e b => aggregateBucket (fst e) (snd e) = JS.Returned b) m bs.
Proof.
  induction m as [| [k ps] m IH]; intros Hne.
  - exists []. split; [reflexivity | constructor].
  - destruct IH as (bs & Hbs & Hall).
    { intros k' ps' Hin. apply (Hne k' ps'). right. exact Hin. }
    destruct ps as [| p0 rest]; [exfalso; apply (Hne k []); [left |]; reflexivity |].
    cbn [aggregateBuckets]. rewrite Hbs.
    destruct (aggregateBucket k (p0 :: rest)) as [b | e] eqn:Hb; [| discriminate Hb].
    cbn [JS.obind]. exists (b :: bs). split; [reflexivity |].
    constructor; [exact Hb | exact Hall].
Qed.

Lemma Forall2_In_right {A B} (R : A -> B -> Prop) (l : list A) (l' : list B) (b : B) :
  Forall2 R l l' -> In b l' -> exists a, In a l /\ R a b.
Proof.
  induction 1 as [| x y l l' Hxy Hall IH]; intros Hin; [destruct Hin |].
  destruct Hin as [<- | Hin].
  - exists x. split; [left; reflexivity | exact Hxy].
  - destruct (IH Hin) as (a & Ha & Hab). exists a. split; [right |]; assumption.
Qed.

Lemma Forall2_In_left {A B} (R : A -> B -> Prop) (l : list A) (l' : list B) (a : A) :
  Forall2 R l l' -> In a l -> exists b, In b l' /\ R a b.
Proof.
  induction 1 as [| x y l l' Hxy Hall IH]; intros Hin; [destruct Hin |].
  destruct Hin as [<- | Hin].
  - exists y. split; [left; reflexivity | exact Hxy].
  - destruct (IH Hin) as (b & Hb & Hab). exists b. split; [right |]; assumption.
Qed.

Lemma totalCount_heldSamples (m : JS.Map (list DataPoint)) (bs : list DataPoint) :
  Forall2 (fun e b => aggregateBucket (fst e) (snd e) = JS.Returned b) m bs ->
  totalCount bs = heldSamples m.
Proof.
  induction 1 as [| e b m bs Hb Hall IH]; [reflexivity |].
  cbn [totalCount heldSamples fold_right].
  fold (totalCount bs). fold (heldSamples m).
  rewrite (aggregateBucket_count _ _ _ Hb), IH. reflexivity.
Qed.

(** *** The sort *)

Section SortFacts.

Context {A : Type} (key : A -> Z).

Lemma insert_perm (x : A) (l : list A) : Permutation (JS.insert key x l) (x :: l).
Proof.
  induction l as [| y l IH]; cbn [JS.insert]; [reflexivity |].
  destruct (key x <=? key y); [reflexivity |].
  rewrite IH. apply perm_swap.
Qed.

Lemma sort_perm (l : list A) : Permutation (JS.sort key l) l.
Proof.
  induction l as [| x l IH]; cbn [JS.sort]; [reflexivity |].
  rewrite insert_perm. constructor. exact IH.
Qed.

Lemma insert_sorted (x : A) (l : list A) :
  StronglySorted (fun a b => key a <= key b) l -> StronglySorted (fun a b => key a <= key b) (JS.insert key x l).
Proof.
  induction l as [| y l IH]; cbn [JS.insert]; intros Hs.
  - constructor; constructor.
  - inversion Hs as [| ? ? Hs' Hall]; subst.
    destruct (Z.leb_spec (key x) (key y)) as [Hle | Hgt].
    + constructor; [exact Hs |]. constructor; [exact Hle |].
      eapply Forall_impl; [| exact Hall]. cbv beta. intros a Ha. lia.
    + constructor; [apply IH, Hs' |].
      eapply Permutation_Forall; [symmetry; apply insert_perm |].
      constructor; [lia | exact Hall].
Qed.

Lemma sort_sorted (l : list A) : StronglySorted (fun a b => key a <= key b) (JS.sort key l).
Proof.
  induction l as [| x l IH]; cbn [JS.sort]; [constructor |].
  apply insert_sorted, IH.
Qed.

End SortFacts.

Lemma totalCount_perm (l l' : list DataPoint) :
  Permutation l l' -> totalCount l = totalCount l'.
Proof.
  induction 1 as [| x l l' _ IH | x y l | l l' l'' _ IH1 _ IH2];
    cbn [totalCount fold_right]; try fold (totalCount l); try fold (totalCount l');
    try lia; congruence.
Qed.

(** What [aggregateData] computes: the map [m] groups the input, [bs] holds
    one record per bucket, and the result is [bs] sorted by timestamp.  It
    never throws. *)
Lemma aggregateData_returns (data : list DataPoint) (w : Z) :
  exists m bs,
    grouped w m data
    /\ heldSamples m = length data
    /\ Forall2 (fun e b => aggregateBucket (fst e) (snd e) = JS.Returned b) m bs
    /\ aggregateData data w = JS.Returned (JS.sort timestamp bs).
Proof.
  destruct data as [| p data].
  - exists [], []. repeat split; [constructor | constructor].
  - set (m := fold_left (fun m q => pushPoint (bucketTimeOf w q) q m) (p :: data) []).
    assert (Hg : grouped w m (p :: data)).
    { exact (grouped_fold w (p :: data) [] [] (grouped_nil w)). }
    destruct (aggregateBuckets_returns m) as (bs & Hbs & Hall).
    { intros k ps Hin. apply (grouped_In w m (p :: data) k ps Hg Hin). }
    exists m, bs. split; [exact Hg | split; [| split; [exact Hall |]]].
    + unfold m. rewrite heldSamples_fold. reflexivity.
    + unfold aggregateData. rewrite groupPoints_returns. cbn [JS.obind].
      fold m. rewrite Hbs. reflexivity.
Qed.

(** C3: for every input and every positive bucket width [w],
    [aggregateData] returns; its output is sorted non-decreasing by bucket
    start; each bucket's start is [floor(timestamp / w) * w] of a sample of
    the input, and each sample of the input has the bucket of that start;
    the [count] entries sum to the length of the input; and the empty
    input gives the empty output. *)
Theorem aggregate_sorted_counts (data : list DataPoint) (w : Z) :
  0 < w ->
  exists out,
    aggregateData data w = JS.Returned out
    /\ StronglySorted (fun a b => timestamp a <= timestamp b) out
    /\ (forall b, In b out ->
          exists p, In p data /\ timestamp b = timestamp p / w * w)
    /\ (forall p, In p data ->
          exists b, In b out /\ timestamp b = timestamp p / w * w)
    /\ totalCount out = length data
    /\ aggregateData [] w = JS.Returned [].
Proof.
  intros Hw.
  destruct (aggregateData_returns data w) as (m & bs & Hg & Hheld & Hall & Hout).
  exists (JS.sort timestamp bs).
  pose proof (sort_perm timestamp bs) as Hperm.
  split; [exact Hout | split; [apply sort_sorted | split; [| split; [| split]]]].
  - intros b Hb. apply (Permutation_in _ Hperm) in Hb.
    destruct (Forall2_In_right _ _ _ _ Hall Hb) as ([k ps] & Hin & Hagg).
    cbn [fst snd] in Hagg.
    destruct (grouped_In w m data k ps Hg Hin) as [Hps _].
    destruct (aggregateBucket_fields k ps b Hagg) as (p0 & rest & Hcons & Hts & _).
    assert (Hp0 : In p0 (members w k data)).
    { rewrite <- Hps, Hcons. left. reflexivity. }
    unfold members in Hp0. apply filter_In in Hp0. destruct Hp0 as [Hp0 Hk].
    exists p0. split; [exact Hp0 |].
    rewrite Hts, <- bucketTimeOf_div. symmetry. apply Z.eqb_eq, Hk.
  - intros p Hp. destruct (grouped_covers w m data p Hg Hp) as (ps & Hin).
    destruct (Forall2_In_left _ _ _ _ Hall Hin) as (b & Hb & Hagg).
    cbn [fst snd] in Hagg.
    destruct (aggregateBucket_fields _ ps b Hagg) as (_ & _ & _ & Hts & _).
    exists b. split; [apply (Permutation_in _ (Permutation_sym Hperm)), Hb |].
    rewrite Hts. apply bucketTimeOf_div.
  - rewrite (totalCount_perm _ _ Hperm), (totalCount_heldSamples m bs Hall).
    exact Hheld.
  - reflexivity.
Qed.

Lemma aggregate_sorted_counts_witness :
  let s := fun t v => {| timestamp := t; value := v; category := "voltage";
                         metadata := None |} in
  exists out,
    aggregateData [s 2500 4%Q; s 100 1%Q; s 2999 6%Q; s 1000 2%Q] 1000 = JS.Returned out
    /\ map timestamp out = [0; 1000; 2000]
    /\ totalCount out = 4%nat.
Proof.
  cbv zeta.
  destruct (aggregate_sorted_counts
    [ {| timestamp := 2500; value := 4; category := "voltage"; metadata := None |};
      {| timestamp := 100; value := 1; category := "voltage"; metadata := None |};
      {| timestamp := 2999; value := 6; category := "voltage"; metadata := None |};
      {| timestamp := 1000; value := 2; category := "voltage"; metadata := None |} ]
    1000 eq_refl) as (out & Hout & _ & _ & _ & Hcount & _).
  exists out. split; [exact Hout |]. split; [| exact Hcount].
  vm_compute in Hout. injection Hout as <-. reflexivity.
Defined.

(** *** Bucket statistics *)

Lemma fold_left_Qplus (vs : list Q) :
  forall a, (fold_left Qplus vs a == a + fold_right Qplus 0 vs)%Q.
Proof.
  induction vs as [| v vs IH]; intros a; cbn [fold_left fold_right].
  - ring.
  - rewrite IH. ring.
Qed.

(** The average [aggregateData] computes is the arithmetic mean. *)
Lemma sum_div_mean (vs : list Q) :
  (JS.sum vs / inject_Z (Z.of_nat (length vs)) == mean vs)%Q.
Proof.
  unfold JS.sum, mean. rewrite fold_left_Qplus. 
  apply Qdiv_comp; [ring | reflexivity].
Qed.

(** C8: for a positive period, [aggregateData] returns, and for every bucket
    [b] of its output, with [ms] the samples of the input whose key is the
    bucket's start, in input order: [ms] is not empty, the bucket's [avg] is
    the arithmetic mean of their values, its [min] and [max] are among
    their values and bound them, its [count] is their number, its category
    is that of the first of them, and its [value] is [avg] rounded to
    hundredths.  Samples at 0, 500, 1500 with values 10, 20, 40 and period
    1000 give exactly two buckets: start 0, mean 15, count 2 and start 1000,
    mean 40, count 1. *)
Theorem aggregate_bucket_statistics (data : list DataPoint) (w : Z) :
  0 < w ->
  (exists out,
     aggregateData data w = JS.Returned out
     /\ forall b, In b out ->
          let ms := members w (timestamp b) data in
          let vs := map value ms in
          exists mn mx,
            ms <> []
            /\ metadata b = Some (BucketMeta (length ms) mn mx (bucketAvg b))
            /\ (bucketAvg b == mean vs)%Q
            /\ In mn vs /\ (forall v, In v vs -> (mn <= v)%Q)
            /\ In mx vs /\ (forall v, In v vs -> (v <= mx)%Q)
            /\ option_map category (hd_error ms) = Some (category b)
            /\ value b = (inject_Z (JS.Math_round (bucketAvg b * 100)) / 100)%Q)
  /\ (forall c1 c2 c3 m1 m2 m3,
        exists b0 b1,
          aggregateData [ {| timestamp := 0; value := 10; category := c1; metadata := m1 |};
                          {| timestamp := 500; value := 20; category := c2; metadata := m2 |};
                          {| timestamp := 1500; value := 40; category := c3; metadata := m3 |} ]
                        1000
          = JS.Returned [b0; b1]
          /\ timestamp b0 = 0 /\ (bucketAvg b0 == 15)%Q /\ (value b0 == 15)%Q
          /\ bucketCount b0 = 2%nat
          /\ timestamp b1 = 1000 /\ (bucketAvg b1 == 40)%Q /\ (value b1 == 40)%Q
          /\ bucketCount b1 = 1%nat).
Proof.
  intros Hw. split.
  - destruct (aggregateData_returns data w) as (m & bs & Hg & _ & Hall & Hout).
    exists (JS.sort timestamp bs). split; [exact Hout |].
    intros b Hb ms vs. apply (Permutation_in _ (sort_perm timestamp bs)) in Hb.
    destruct (Forall2_In_right _ _ _ _ Hall Hb) as ([k ps] & Hin & Hagg).
    cbn [fst snd] in Hagg.
    destruct (grouped_In w m data k ps Hg Hin) as [Hps Hne].
    destruct (aggregateBucket_fields k ps b Hagg)
      as (p0 & rest & Hcons & Hts & Hcat & Hval & Hmeta).
    assert (Hms : ms = p0 :: rest).
    { unfold ms. rewrite Hts, <- Hps. exact Hcons. }
    assert (Havg : bucketAvg b
                   = (JS.sum (map value ps) / inject_Z (Z.of_nat (length (map value ps))))%Q).
    { unfold bucketAvg. rewrite Hmeta. reflexivity. }
    exists (JS.Math_min (value p0) (map value rest)),
           (JS.Math_max (value p0) (map value rest)).
    assert (Hvs : vs = value p0 :: map value rest).
    { unfold vs. rewrite Hms. reflexivity. }
    split; [rewrite Hms; discriminate |].
    split; [rewrite Hmeta, Havg, Hms, <- Hcons; reflexivity |].
    split; [rewrite Havg, Hcons, Hvs; exact (sum_div_mean (map value (p0 :: rest))) |].
    rewrite Hvs.
    split; [apply Math_min_in |].
    split.
    { destruct (Math_min_lower (map value rest) (value p0)) as [H1 H2].
      intros v [<- | Hv]; [exact H1 | exact (H2 v Hv)]. }
    split; [apply Math_max_in |].
    split.
    { destruct (Math_max_upper (map value rest) (value p0)) as [H1 H2].
      intros v [<- | Hv]; [exact H1 | exact (H2 v Hv)]. }
    split; [rewrite Hms, Hcat; reflexivity | exact Hval].
  - intros c1 c2 c3 m1 m2 m3. eexists. eexists.
    split; [reflexivity |]. cbn [timestamp value bucketCount bucketAvg metadata].
    repeat split; reflexivity.
Qed.

Lemma aggregate_bucket_statistics_witness :
  exists b0 b1,
    aggregateData [ {| timestamp := 0; value := 10; category := "humidity"; metadata := None |};
                    {| timestamp := 500; value := 20; category := "voltage"; metadata := None |};
                    {| timestamp := 1500; value := 40; category := "current"; metadata := None |} ]
                  1000
    = JS.Returned [b0; b1]
    /\ timestamp b0 = 0 /\ (bucketAvg b0 == 15)%Q /\ bucketCount b0 = 2%nat
    /\ category b0 = "humidity"%string
    /\ timestamp b1 = 1000 /\ (bucketAvg b1 == 40)%Q /\ bucketCount b1 = 1%nat.
Proof.
  destruct (proj2 (aggregate_bucket_statistics
                     [ {| timestamp := 0; value := 10; category := "humidity"; metadata := None |};
                       {| timestamp := 500; value := 20; category := "voltage"; metadata := None |};
                       {| timestamp := 1500; value := 40; category := "current"; metadata := None |} ]
                     1000 eq_refl)
              "humidity"%string "voltage"%string "current"%string None None None)
    as (b0 & b1 & Hout & Ht0 & Ha0 & _ & Hc0 & Ht1 & Ha1 & _ & Hc1).
  exists b0, b1. repeat split; try assumption.
  vm_compute in Hout. injection Hout as <- _. reflexivity.
Defined.

(** ** The bounded buffer of the stream hook *)

Lemma addDataPoints_loop_length (rnd : nat -> Q) (sin : Q -> Q) (todo : nat) :
  forall (ts : Z) (st : DataGenerator.t * nat),
    length (fst (DataStream.addDataPoints_loop rnd sin todo ts st)) = todo.
Proof.
  induction todo as [| todo IH]; intros ts st; [reflexivity |].
  cbn [DataStream.addDataPoints_loop]. unfold DataGenerator.bind at 1.
  destruct (DataGenerator.generateNext rnd sin ts st) as [p st1].
  unfold DataGenerator.bind at 1. specialize (IH (timestamp p) st1).
  destruct (DataStream.addDataPoints_loop rnd sin todo (timestamp p) st1) as [ps st2].
  unfold DataGenerator.ret. cbn [fst length] in *. rewrite IH. reflexivity.
Qed.

Lemma produced_length (rnd : nat -> Q) (sin : Q -> Q) (s : DataStream.Stream)
    (op : StreamOp) :
  length (produced rnd sin s op) = appendCount op.
Proof.
  destruct op; cbn [produced appendCount length]; try reflexivity.
  apply addDataPoints_loop_length.
Qed.

(** The interval callback and [addDataPoints] hand what the generator
    returned to the trimming update. *)
Lemma runOp_append (rnd : nat -> Q) (sin : Q -> Q) (s : DataStream.Stream)
    (op : StreamOp) :
  isAppend op = true ->
  DataStream.data (runOp rnd sin s op)
  = DataStream.appendPoints (DataStream.opt_maxDataPoints s) (DataStream.data s)
      (produced rnd sin s op).
Proof.
  destruct op as [now | now count | | now | |]; try discriminate; intros _;
    cbn [runOp produced].
  - unfold DataStream.onInterval, DataStream.withGenerator.
    destruct (DataGenerator.generateNext rnd sin _ _) as [p gn]. reflexivity.
  - unfold DataStream.addDataPoints, DataStream.withGenerator.
    destruct (DataStream.addDataPoints_loop rnd sin _ _ _) as [pts gn]. reflexivity.
Qed.

(** No operation touches the options. *)
Lemma runOp_options (rnd : nat -> Q) (sin : Q -> Q) (s : DataStream.Stream)
    (op : StreamOp) :
  DataStream.opt_maxDataPoints (runOp rnd sin s op) = DataStream.opt_maxDataPoints s
  /\ DataStream.opt_initialCount (runOp rnd sin s op) = DataStream.opt_initialCount s.
Proof.
  destruct op as [now | now count | | now | |]; cbn [runOp].
  - unfold DataStream.onInterval, DataStream.withGenerator.
    destruct (DataGenerator.generateNext rnd sin _ _) as [p gn]. split; reflexivity.
  - unfold DataStream.addDataPoints, DataStream.withGenerator.
    destruct (DataStream.addDataPoints_loop rnd sin _ _ _) as [pts gn]. split; reflexivity.
  - unfold DataStream.initialize, DataStream.withGenerator.
    destruct (DataGenerator.generateBatch rnd sin _ _ _) as [ps gn].
    destruct (DataStream.lastTimestamp ps); split; reflexivity.
  - unfold DataStream.resetData, DataStream.withGenerator.
    destruct (DataGenerator.generateBatch rnd sin _ _ _) as [ps gn].
    destruct (DataStream.lastTimestamp ps); split; reflexivity.
  - unfold DataStream.startStreaming. destruct (DataStream.isStreaming s); split; reflexivity.
  - split; reflexivity.
Qed.

(** The "Initialize data" effect and [resetData] replace the buffer by the
    batch, whatever the capacity. *)
Lemma runOp_refill (rnd : nat -> Q) (sin : Q -> Q) (s : DataStream.Stream)
    (op : StreamOp) :
  (op = Initialize \/ exists now, op = ResetData now) ->
  length (DataStream.data (runOp rnd sin s op)) = DataStream.opt_initialCount s.
Proof.
  assert (Hlen : forall count st,
             length (fst (DataGenerator.generateBatch rnd sin count None st)) = count).
  { intros count st. unfold DataGenerator.generateBatch, DataGenerator.bind,
      DataGenerator.this. apply generateBatch_loop_length. }
  intros [-> | [now ->]]; cbn [runOp].
  - unfold DataStream.initialize, DataStream.withGenerator.
    specialize (Hlen (DataStream.opt_initialCount s)
                     (DataStream.generatorRef s, DataStream.draws s)).
    destruct (DataGenerator.generateBatch rnd sin _ _ _) as [ps gn].
    cbn [fst] in Hlen.
    destruct (DataStream.lastTimestamp ps); exact Hlen.
  - unfold DataStream.resetData, DataStream.withGenerator.
    specialize (Hlen (DataStream.opt_initialCount s)
                     (DataGenerator.reset now (DataStream.generatorRef s),
                      DataStream.draws s)).
    cbn [DataStream.resetGenerator DataStream.stopStreaming DataStream.setIsStreaming
         DataStream.generatorRef DataStream.draws DataStream.opt_initialCount].
    destruct (DataGenerator.generateBatch rnd sin _ _ _) as [ps gn].
    cbn [fst] in Hlen.
    destruct (DataStream.lastTimestamp ps); exact Hlen.
Qed.

(** One operation keeps a buffer within the capacity there, when the
    initial batch fits the capacity. *)
Lemma runOp_within (rnd : nat -> Q) (sin : Q -> Q) (s : DataStream.Stream)
    (op : StreamOp) :
  0 < DataStream.opt_maxDataPoints s ->
  Z.of_nat (DataStream.opt_initialCount s) <= DataStream.opt_maxDataPoints s ->
  Z.of_nat (length (DataStream.data s)) <= DataStream.opt_maxDataPoints s ->
  Z.of_nat (length (DataStream.data (runOp rnd sin s op)))
  <= DataStream.opt_maxDataPoints s.
Proof.
  intros Hcap Hinit Hlen.
  destruct op as [now | now count | | now | |] eqn:E.
  - rewrite runOp_append by reflexivity.
    rewrite appendPoints_lastn, lastn_length by exact Hcap. lia.
  - rewrite runOp_append by reflexivity.
    rewrite appendPoints_lastn, lastn_length by exact Hcap. lia.
  - rewrite runOp_refill by (left; reflexivity). exact Hinit.
  - rewrite runOp_refill by (right; exists now; reflexivity). exact Hinit.
  - cbn [runOp]. unfold DataStream.startStreaming.
    destruct (DataStream.isStreaming s); exact Hlen.
  - exact Hlen.
Qed.

Lemma run_within (rnd : nat -> Q) (sin : Q -> Q) (ops : list StreamOp) :
  forall s,
    0 < DataStream.opt_maxDataPoints s ->
    Z.of_nat (DataStream.opt_initialCount s) <= DataStream.opt_maxDataPoints s ->
    Z.of_nat (length (DataStream.data s)) <= DataStream.opt_maxDataPoints s ->
    Z.of_nat (length (DataStream.data (fold_left (runOp rnd sin) ops s)))
    <= DataStream.opt_maxDataPoints s.
Proof.
  induction ops as [| op ops IH]; intros s Hcap Hinit Hlen; cbn [fold_left].
  - exact Hlen.
  - destruct (runOp_options rnd sin s op) as [Hm Hi].
    rewrite <- Hm. apply IH.
    + rewrite Hm. exact Hcap.
    + rewrite Hm, Hi. exact Hinit.
    + rewrite Hm. apply runOp_within; assumption.
Qed.

(** After at least one append the buffer is the last [maxDataPoints] of
    what was in it followed by everything the generator returned. *)
Lemma run_appends (rnd : nat -> Q) (sin : Q -> Q) (ops : list StreamOp) :
  forall s,
    0 < DataStream.opt_maxDataPoints s ->
    forallb isAppend ops = true -> ops <> [] ->
    DataStream.data (fold_left (runOp rnd sin) ops s)
    = lastn (Z.to_nat (DataStream.opt_maxDataPoints s))
        (DataStream.data s ++ producedBy rnd sin s ops).
Proof.
  induction ops as [| op ops IH]; intros s Hcap Hall Hne; [contradiction |].
  cbn [forallb] in Hall. apply andb_true_iff in Hall. destruct Hall as [Hop Hops].
  cbn [fold_left producedBy].
  destruct (runOp_options rnd sin s op) as [Hm _].
  assert (Hstep : DataStream.data (runOp rnd sin s op)
                  = lastn (Z.to_nat (DataStream.opt_maxDataPoints s))
                      (DataStream.data s ++ produced rnd sin s op)).
  { rewrite runOp_append by exact Hop. apply appendPoints_lastn. exact Hcap. }
  destruct ops as [| op' ops].
  - cbn [fold_left producedBy]. rewrite app_nil_r. exact Hstep.
  - rewrite IH; [| rewrite Hm; exact Hcap | exact Hops | discriminate].
    rewrite Hm, Hstep, lastn_app_lastn, <- app_assoc. reflexivity.
Qed.

(** C6, on the operations of the hook, for a capacity [maxDataPoints > 0]
    and from every state [s], whatever its buffer holds.  (1) A firing of the
    interval and [addDataPoints(count)] append what the generator returned,
    1 and [count] samples, and trim the whole concatenation once: the
    buffer becomes the last [maxDataPoints] of the old samples followed by
    the new ones, so its length is at most [maxDataPoints].  (2) After a run
    of such appends the buffer is the last [maxDataPoints] of the old
    samples followed by everything appended, in order; when more than
    [maxDataPoints] samples were appended it holds exactly the last
    [maxDataPoints] of them and has length [maxDataPoints].  (3) Over every
    run of operations of the hook, the "Initialize data" effect,
    [resetData], [startStreaming] and [stopStreaming] included, the length
    stays at most [maxDataPoints] when it starts so and [initialCount] is
    at most [maxDataPoints]. *)
Theorem bounded_buffer (rnd : nat -> Q) (sin : Q -> Q) (s : DataStream.Stream)
    (ops : list StreamOp) :
  0 < DataStream.opt_maxDataPoints s ->
  let cap := DataStream.opt_maxDataPoints s in
  let final := fold_left (runOp rnd sin) ops s in
  let all := producedBy rnd sin s ops in
  (forall op, isAppend op = true ->
      DataStream.data (runOp rnd sin s op)
      = lastn (Z.to_nat cap) (DataStream.data s ++ produced rnd sin s op)
      /\ length (produced rnd sin s op) = appendCount op
      /\ Z.of_nat (length (DataStream.data (runOp rnd sin s op))) <= cap)
  /\ (forallb isAppend ops = true -> ops <> [] ->
      DataStream.data final = lastn (Z.to_nat cap) (DataStream.data s ++ all)
      /\ Z.of_nat (length (DataStream.data final)) <= cap
      /\ (Z.of_nat (length all) > cap ->
          DataStream.data final = lastn (Z.to_nat cap) all
          /\ Z.of_nat (length (DataStream.data final)) = cap))
  /\ (Z.of_nat (DataStream.opt_initialCount s) <= cap ->
      Z.of_nat (length (DataStream.data s)) <= cap ->
      Z.of_nat (length (DataStream.data final)) <= cap).
Proof.
  intros Hcap cap final all. split; [| split].
  - intros op Hop.
    assert (Hstep : DataStream.data (runOp rnd sin s op)
                    = lastn (Z.to_nat cap) (DataStream.data s ++ produced rnd sin s op)).
    { rewrite runOp_append by exact Hop. apply appendPoints_lastn. exact Hcap. }
    split; [exact Hstep |]. split; [apply produced_length |].
    rewrite Hstep, lastn_length. lia.
  - intros Hall Hne.
    assert (Hfinal : DataStream.data final
                     = lastn (Z.to_nat cap) (DataStream.data s ++ all)).
    { apply run_appends; assumption. }
    split; [exact Hfinal |]. split; [rewrite Hfinal, lastn_length; lia |].
    intros Hlong.
    assert (Hlast : DataStream.data final = lastn (Z.to_nat cap) all).
    { rewrite Hfinal. apply lastn_app_long. lia. }
    split; [exact Hlast |]. rewrite Hlast, lastn_length. lia.
  - intros Hinit Hlen. apply run_within; assumption.
Qed.

Lemma bounded_buffer_witness :
  let rnd := fun _ : nat => (1 # 2)%Q in
  let sin := fun _ : Q => 0%Q in
  let s := {| DataStream.opt_updateInterval := 100;
              DataStream.opt_maxDataPoints := 2;
              DataStream.opt_initialCount := 1;
              DataStream.data := [];
              DataStream.isStreaming := true;
              DataStream.generatorRef := DataGenerator.new 1000;
              DataStream.lastTimestampRef := 0;
              DataStream.draws := 0%nat |} in
  map timestamp
      (DataStream.data
         (fold_left (runOp rnd sin) [Tick 5000; AddDataPoints 0 2; Tick 0] s))
  = [8300; 7200].
Proof.
  cbv zeta.
  pose proof (bounded_buffer (fun _ : nat => (1 # 2)%Q) (fun _ : Q => 0%Q)
    {| DataStream.opt_updateInterval := 100;
       DataStream.opt_maxDataPoints := 2;
       DataStream.opt_initialCount := 1;
       DataStream.data := [];
       DataStream.isStreaming := true;
       DataStream.generatorRef := DataGenerator.new 1000;
       DataStream.lastTimestampRef := 0;
       DataStream.draws := 0%nat |}
    [Tick 5000; AddDataPoints 0 2; Tick 0] eq_refl) as H.
  cbv zeta in H. destruct H as (_ & H & _).
  destruct H as (_ & _ & Hlong); [reflexivity | discriminate |].
  destruct Hlong as [Hlast _]; [reflexivity |].
  rewrite Hlast. vm_compute. reflexivity.
Defined.

(** C6, the claim as stated fails for the operations that are not appends:
    [resetData] (and likewise the "Initialize data" effect) installs
    [initialCount] samples without trimming; with [maxDataPoints = 2] and
    [initialCount = 3] the buffer then holds 3 samples. *)
Lemma resetData_exceeds_capacity :
  let rnd := fun _ : nat => (1 # 2)%Q in
  let sin := fun _ : Q => 0%Q in
  let s := {| DataStream.opt_updateInterval := 100;
              DataStream.opt_maxDataPoints := 2;
              DataStream.opt_initialCount := 3;
              DataStream.data := [];
              DataStream.isStreaming := false;
              DataStream.generatorRef := DataGenerator.new 1000;
              DataStream.lastTimestampRef := 0;
              DataStream.draws := 0%nat |} in
  length (DataStream.data (runOp rnd sin s (ResetData 1000))) = 3%nat
  /\ length (DataStream.data (runOp rnd sin s Initialize)) = 3%nat
  /\ ~ (Z.of_nat (length (DataStream.data (runOp rnd sin s (ResetData 1000))))
        <= DataStream.opt_maxDataPoints s).
Proof.
  cbv zeta. split; [vm_compute; reflexivity |]. split; [vm_compute; reflexivity |].
  vm_compute. intros H. apply H. reflexivity.
Qed.

(** ** Construction and failure *)

(** With capacity 0 the trim is [updated.slice(-0)], the whole array: an
    append keeps every sample. *)
Lemma appendPoint_zero_capacity (prev : list DataPoint) (p : DataPoint) :
  DataStream.appendPoint 0 prev p = prev ++ [p].
Proof.
  unfold DataStream.appendPoint.
  destruct (Z.of_nat (length (prev ++ [p])) >? 0); [apply slice_zero | reflexivity].
Qed.

(** *** The argument limit *)

Section ArgumentLimit.

Variable maxArguments : nat.

Lemma spread_within {A B : Type} (f : A -> list A -> B) (v : A) (vs : list A) :
  (length (v :: vs) <= maxArguments)%nat ->
  Engine.spread maxArguments f v vs = JS.Returned (f v vs).
Proof.
  intros H. unfold Engine.spread.
  destruct (Nat.ltb_spec maxArguments (length (v :: vs))); [lia | reflexivity].
Qed.

Lemma spread_beyond {A B : Type} (f : A -> list A -> B) (v : A) (vs : list A) :
  (maxArguments < length (v :: vs))%nat ->
  Engine.spread maxArguments f v vs = JS.Thrown JS.RangeError.
Proof.
  intros H. unfold Engine.spread.
  destruct (Nat.ltb_spec maxArguments (length (v :: vs))); [reflexivity | lia].
Qed.

Lemma aggregateBucket_within (k : Z) (ps : list DataPoint) :
  (length ps <= maxArguments)%nat ->
  Engine.aggregateBucket maxArguments k ps = aggregateBucket k ps.
Proof.
  intros H. destruct ps as [| p0 rest]; [reflexivity |].
  unfold Engine.aggregateBucket, aggregateBucket.
  rewrite !spread_within by (cbn [length] in *; rewrite length_map; exact H).
  reflexivity.
Qed.

Lemma aggregateBucket_beyond (k : Z) (ps : list DataPoint) :
  (maxArguments < length ps)%nat ->
  Engine.aggregateBucket maxArguments k ps = JS.Thrown JS.RangeError.
Proof.
  intros H. destruct ps as [| p0 rest]; [cbn in H; lia |].
  unfold Engine.aggregateBucket.
  rewrite spread_beyond by (cbn [length] in *; rewrite length_map; exact H).
  reflexivity.
Qed.

Lemma aggregateBuckets_within (m : JS.Map (list DataPoint)) :
  (forall k ps, In (k, ps) m -> (length ps <= maxArguments)%nat) ->
  Engine.aggregateBuckets maxArguments m = aggregateBuckets m.
Proof.
  induction m as [| [k ps] m IH]; intros H; [reflexivity |].
  cbn [Engine.aggregateBuckets aggregateBuckets].
  rewrite aggregateBucket_within by (apply (H k); left; reflexivity).
  rewrite IH by (intros k' ps' Hin; apply (H k'); right; exact Hin).
  reflexivity.
Qed.

Lemma aggregateBuckets_beyond (m : JS.Map (list DataPoint)) :
  (forall k ps, In (k, ps) m -> ps <> []) ->
  (exists k ps, In (k, ps) m /\ (maxArguments < length ps)%nat) ->
  Engine.aggregateBuckets maxArguments m = JS.Thrown JS.RangeError.
Proof.
  induction m as [| [k ps] m IH]; intros Hne (k' & ps' & Hin & Hlong).
  - destruct Hin.
  - cbn [Engine.aggregateBuckets].
    destruct (Nat.le_gt_cases (length ps) maxArguments) as [Hle | Hgt].
    + rewrite aggregateBucket_within by exact Hle.
      destruct Hin as [[= <- <-] | Hin]; [lia |].
      rewrite IH;
        [| intros k0 ps0 H0; apply (Hne k0); right; exact H0
         | exists k', ps'; split; assumption].
      destruct (aggregateBucket k ps) as [b | e] eqn:Hb; cbn [JS.obind]; [reflexivity |].
      unfold aggregateBucket in Hb. destruct ps; [| discriminate Hb].
      exfalso. apply (Hne k []); [left |]; reflexivity.
    + rewrite aggregateBucket_beyond by exact Hgt. reflexivity.
Qed.

(** Either every bucket of the data is within the limit or one is beyond. *)
Lemma buckets_within_or_beyond (w : Z) (data : list DataPoint) :
  (forall k, (length (members w k data) <= maxArguments)%nat)
  \/ (exists k, (maxArguments < length (members w k data))%nat).
Proof.
  destruct (Forall_Exists_dec
              (fun p => (length (members w (bucketTimeOf w p) data) <= maxArguments)%nat)
              (fun p => le_dec _ _) data) as [Hall | Hex].
  - left. intros k.
    destruct (members w k data) as [| q qs] eqn:E; [cbn; lia |].
    assert (Hq : In q (members w k data)) by (rewrite E; left; reflexivity).
    unfold members in Hq. apply filter_In in Hq. destruct Hq as [Hq Hk].
    apply Z.eqb_eq in Hk. rewrite Forall_forall in Hall.
    specialize (Hall q Hq). rewrite Hk, E in Hall. exact Hall.
  - right. apply Exists_exists in Hex. destruct Hex as (p & _ & Hp).
    exists (bucketTimeOf w p). lia.
Qed.

Lemma aggregateData_within (data : list DataPoint) (w : Z) :
  (forall k, (length (members w k data) <= maxArguments)%nat) ->
  Engine.aggregateData maxArguments data w = aggregateData data w.
Proof.
  intros H. destruct data as [| p data]; [reflexivity |].
  unfold Engine.aggregateData, aggregateData.
  rewrite groupPoints_returns. cbn [JS.obind].
  set (m := fold_left (fun m q => pushPoint (bucketTimeOf w q) q m) (p :: data) []).
  assert (Hg : grouped w m (p :: data))
    by exact (grouped_fold w (p :: data) [] [] (grouped_nil w)).
  rewrite aggregateBuckets_within; [reflexivity |].
  intros k ps Hin. destruct (grouped_In w m (p :: data) k ps Hg Hin) as [-> _].
  apply H.
Qed.

Lemma aggregateData_beyond (data : list DataPoint) (w : Z) :
  (exists k, (maxArguments < length (members w k data))%nat) ->
  Engine.aggregateData maxArguments data w = JS.Thrown JS.RangeError.
Proof.
  intros [k Hk]. destruct data as [| p data]; [cbn in Hk; lia |].
  unfold Engine.aggregateData.
  rewrite groupPoints_returns. cbn [JS.obind].
  set (m := fold_left (fun m q => pushPoint (bucketTimeOf w q) q m) (p :: data) []).
  assert (Hg : grouped w m (p :: data))
    by exact (grouped_fold w (p :: data) [] [] (grouped_nil w)).
  rewrite aggregateBuckets_beyond; [reflexivity | |].
  - intros k' ps Hin. apply (grouped_In w m (p :: data) k' ps Hg Hin).
  - destruct (members w k (p :: data)) as [| q qs] eqn:E; [cbn in Hk; lia |].
    assert (Hq : In q (members w k (p :: data))) by (rewrite E; left; reflexivity).
    unfold members in Hq. apply filter_In in Hq. destruct Hq as [Hq Hkq].
    apply Z.eqb_eq in Hkq.
    destruct (grouped_covers w m (p :: data) q Hg Hq) as [ps Hin].
    rewrite Hkq in Hin. exists k, ps. split; [exact Hin |].
    destruct (grouped_In w m (p :: data) k ps Hg Hin) as [-> _].
    rewrite E. exact Hk.
Qed.

(** A bucket holds no more samples than the data. *)
Lemma members_length (w k : Z) (data : list DataPoint) :
  (length (members w k data) <= length data)%nat.
Proof. unfold members. apply filter_length_le. Qed.

Lemma calculateViewport_within (now : Z) (data : list DataPoint) (padding : option Q) :
  (length data <= maxArguments)%nat ->
  Engine.calculateViewport maxArguments now data padding
  = JS.Returned (calculateViewport now data padding).
Proof.
  intros H. destruct data as [| p ps]; [reflexivity |].
  unfold Engine.calculateViewport, calculateViewport.
  rewrite !spread_within by (cbn [length] in *; rewrite length_map; exact H).
  reflexivity.
Qed.

Lemma calculateViewport_beyond (now : Z) (data : list DataPoint) (padding : option Q) :
  (maxArguments < length data)%nat ->
  Engine.calculateViewport maxArguments now data padding = JS.Thrown JS.RangeError.
Proof.
  intros H. destruct data as [| p ps]; [cbn in H; lia |].
  unfold Engine.calculateViewport.
  rewrite spread_beyond by (cbn [length] in *; rewrite length_map; exact H).
  reflexivity.
Qed.

End ArgumentLimit.

(** C9 (as the code has it).  Construction validates nothing: for every
    options object, whatever the capacity, [useDataStream] returns a stream
    with an empty buffer that holds the capacity it was given (10000 when
    none was given).  Valid-typed inputs raise no configuration error and
    no type error, but they can raise: on an engine that takes at most
    [maxArguments] arguments in a call, [aggregateData] returns (what it
    returns without the limit) when no bucket of the data holds more than
    [maxArguments] samples and throws a RangeError when one does, whatever
    the period; and [calculateViewport] returns when the data has at most
    [maxArguments] samples and throws a RangeError when it has more. *)
Theorem construction_never_fails (maxArguments : nat) (now : Z)
    (options : option DataStream.Options) :
  (exists s,
      DataStream.useDataStream now options = JS.Returned s
      /\ DataStream.data s = []
      /\ DataStream.generatorRef s = DataGenerator.new now
      /\ DataStream.opt_maxDataPoints s
         = match options with
           | Some o => match DataStream.maxDataPoints o with
                       | Some m => m
                       | None => 10000
                       end
           | None => 10000
           end)
  /\ (forall data w,
        ((forall k, (length (members w k data) <= maxArguments)%nat) ->
         exists out,
           Engine.aggregateData maxArguments data w = JS.Returned out
           /\ aggregateData data w = JS.Returned out)
        /\ ((exists k, (maxArguments < length (members w k data))%nat) ->
            Engine.aggregateData maxArguments data w = JS.Thrown JS.RangeError)
        /\ ((length data <= maxArguments)%nat ->
            exists out, Engine.aggregateData maxArguments data w = JS.Returned out)
        /\ (forall e, Engine.aggregateData maxArguments data w = JS.Thrown e ->
                      e = JS.RangeError))
  /\ (forall data padding,
        ((length data <= maxArguments)%nat ->
         Engine.calculateViewport maxArguments now data padding
         = JS.Returned (calculateViewport now data padding))
        /\ ((maxArguments < length data)%nat ->
            Engine.calculateViewport maxArguments now data padding
            = JS.Thrown JS.RangeError)).
Proof.
  split; [| split].
  - eexists. split; [reflexivity |]. split; [reflexivity |]. split; [reflexivity |].
    destruct options as [o |]; reflexivity.
  - intros data w.
    destruct (aggregateData_returns data w) as (m & bs & _ & _ & _ & Hout).
    split; [| split; [| split]].
    + intros H. eexists. split; [| exact Hout].
      rewrite aggregateData_within by exact H. exact Hout.
    + apply aggregateData_beyond.
    + intros H. eexists.
      rewrite aggregateData_within; [exact Hout |].
      intros k. pose proof (members_length w k data). lia.
    + intros e He.
      destruct (buckets_within_or_beyond maxArguments w data) as [H | H].
      * rewrite aggregateData_within, Hout in He by exact H. discriminate He.
      * rewrite (aggregateData_beyond maxArguments data w H) in He.
        injection He as <-. reflexivity.
  - intros data padding. split.
    + apply calculateViewport_within.
    + apply calculateViewport_beyond.
Qed.

(** C9, the claim as stated fails: a stream built with capacity 0, or with
    capacity -3, is returned, not refused, and holds that capacity. *)
Lemma construction_accepts_invalid_capacity :
  let zero := Some {| DataStream.updateInterval := None;
                      DataStream.maxDataPoints := Some 0;
                      DataStream.initialCount := None |} in
  let negative := Some {| DataStream.updateInterval := None;
                          DataStream.maxDataPoints := Some (-3);
                          DataStream.initialCount := None |} in
  DataStream.useDataStream 0 zero <> JS.Thrown JS.ConfigurationError
  /\ DataStream.useDataStream 0 negative <> JS.Thrown JS.ConfigurationError
  /\ (exists s, DataStream.useDataStream 0 zero = JS.Returned s
                /\ DataStream.opt_maxDataPoints s = 0)
  /\ (exists s, DataStream.useDataStream 0 negative = JS.Returned s
                /\ DataStream.opt_maxDataPoints s = -3).
Proof.
  cbv zeta. split; [discriminate |]. split; [discriminate |].
  split; eexists; split; reflexivity.
Qed.

(** * Further properties of the code *)

(** ** Filtering *)

Lemma filter_twice {A} (f : A -> bool) (l : list A) :
  filter f (filter f l) = filter f l.
Proof.
  induction l as [| x l IH]; cbn [filter]; [reflexivity |].
  destruct (f x) eqn:E; cbn [filter]; [rewrite E, IH |]; auto.
Qed.

(** The predicate of [filterData], field by field. *)
Lemma filterPredicate_fields (c : FilterCriteria) (p : DataPoint) :
  filterPredicate c p
  = match crit_categories c with
    | Some cs => includes cs (category p)
    | None => true
    end
    && (valueWithin (crit_minValue c) (crit_maxValue c) (value p)
        && timeWithin (crit_timeRange c) (timestamp p)).
Proof.
  destruct c as [cs lo hi r]. cbn [crit_categories crit_minValue crit_maxValue crit_timeRange].
  rewrite <- filterPredicate_no_categories.
  unfold filterPredicate. cbn [crit_categories crit_minValue crit_maxValue crit_timeRange].
  destruct cs as [cs |]; [| reflexivity].
  destruct (includes cs (category p)); reflexivity.
Qed.

Lemma includes_In (cs : list string) (c : string) :
  includes cs c = true <-> In c cs.
Proof.
  unfold includes. rewrite existsb_exists. split.
  - intros (x & Hx & E). apply String.eqb_eq in E. subst. exact Hx.
  - intros H. exists c. split; [exact H | apply String.eqb_refl].
Qed.

Lemma valueWithin_bounds (lo hi : option Q) (v : Q) :
  valueWithin lo hi v = true
  <-> (forall m, lo = Some m -> (m <= v)%Q) /\ (forall m, hi = Some m -> (v <= m)%Q).
Proof.
  unfold valueWithin. rewrite andb_true_iff. split.
  - intros [H1 H2]. split; intros m ->; apply Qle_bool_iff; assumption.
  - intros [H1 H2]. split.
    + destruct lo as [m |]; [apply Qle_bool_iff, H1 |]; reflexivity.
    + destruct hi as [m |]; [apply Qle_bool_iff, H2 |]; reflexivity.
Qed.

Lemma timeWithin_bounds (r : option TimeRange) (t : Z) :
  timeWithin r t = true
  <-> (forall x, r = Some x -> range_start x <= t <= range_end x).
Proof.
  unfold timeWithin. destruct r as [x |].
  - rewrite andb_true_iff, !Z.leb_le. split.
    + intros H y [= <-]. exact H.
    + intros H. apply H. reflexivity.
  - split; [intros _ x; discriminate | reflexivity].
Qed.

(** X1: filtering is idempotent: filtering the result of [filterData] again
    with the same criteria, or the result of the provider's filter stage
    again with the same filters, changes nothing. *)
Theorem filter_idempotent (data : list DataPoint) :
  (forall criteria,
      filterData (filterData data criteria) criteria = filterData data criteria)
  /\ (forall filters,
        DataProvider.applyFilters (DataProvider.applyFilters data filters) filters
        = DataProvider.applyFilters data filters).
Proof.
  split.
  - intros criteria. unfold filterData. apply filter_twice.
  - intros filters. unfold DataProvider.applyFilters.
    destruct (0 <? length (categories filters))%nat.
    + unfold filterData. apply filter_twice.
    + destruct (DataProvider.isSome (minValue filters)
                || DataProvider.isSome (maxValue filters)
                || DataProvider.isSome (timeRange filters)).
      * unfold filterData. apply filter_twice.
      * reflexivity.
Qed.

(** X2: the provider's filter stage keeps the input order and keeps a sample
    exactly when its category is among the selected ones (or none is
    selected), its value is within the bounds that are set, and its
    timestamp is within the time range if one is set. *)
Theorem applyFilters_keeps (data : list DataPoint) (filters : FilterOptions) :
  (exists keep, DataProvider.applyFilters data filters = filter keep data)
  /\ forall p,
       In p (DataProvider.applyFilters data filters)
       <-> In p data
           /\ (categories filters = [] \/ In (category p) (categories filters))
           /\ (forall m, minValue filters = Some m -> (m <= value p)%Q)
           /\ (forall m, maxValue filters = Some m -> (value p <= m)%Q)
           /\ (forall r, timeRange filters = Some r ->
                 range_start r <= timestamp p <= range_end r).
Proof.
  set (keep := fun p =>
         match categories filters with
         | [] => true
         | cs => includes cs (category p)
         end
         && (valueWithin (minValue filters) (maxValue filters) (value p)
             && timeWithin (timeRange filters) (timestamp p))).
  assert (H : DataProvider.applyFilters data filters = filter keep data).
  { unfold DataProvider.applyFilters, keep.
    destruct (categories filters) as [| c cs] eqn:Hc.
    - cbn [length Nat.ltb Nat.leb].
      destruct (DataProvider.isSome (minValue filters)
                || DataProvider.isSome (maxValue filters)
                || DataProvider.isSome (timeRange filters)) eqn:E.
      + unfold filterData. apply filter_ext. intros p.
        rewrite filterPredicate_fields. reflexivity.
      + symmetry. apply filter_all. intros p.
        destruct (minValue filters), (maxValue filters), (timeRange filters);
          try discriminate E. reflexivity.
    - cbn [length Nat.ltb Nat.leb]. unfold filterData. apply filter_ext.
      intros p. rewrite filterPredicate_fields. reflexivity. }
  split; [exists keep; exact H |].
  intros p. rewrite H, filter_In. unfold keep.
  rewrite !andb_true_iff, valueWithin_bounds, timeWithin_bounds.
  destruct (categories filters) as [| c cs] eqn:Hc.
  - split; [intros (? & _ & ? & ?) | intros (? & _ & ? & ?)]; tauto.
  - rewrite includes_In. split.
    + intros (? & ? & ? & ?). tauto.
    + intros (? & [? | ?] & ? & ?); [discriminate | tauto].
Qed.

(** ** Aggregation, continued *)

Lemma Forall2_length_eq {A B} (R : A -> B -> Prop) (l : list A) (l' : list B) :
  Forall2 R l l' -> length l = length l'.
Proof. induction 1; cbn; congruence. Qed.

Lemma buckets_le_heldSamples (m : JS.Map (list DataPoint)) :
  (forall k ps, In (k, ps) m -> ps <> []) -> (length m <= heldSamples m)%nat.
Proof.
  induction m as [| [k ps] m IH]; intros Hne; [cbn; lia |].
  cbn [length heldSamples fold_right snd]. fold (heldSamples m).
  assert (ps <> []) by (apply (Hne k); left; reflexivity).
  assert (length m <= heldSamples m)%nat.
  { apply IH. intros k' ps' Hin. apply (Hne k'). right. exact Hin. }
  destruct ps; [contradiction | cbn [length]; lia].
Qed.

(** The output of [aggregateData] has one entry per bucket, and no more
    entries than the input has samples. *)
Lemma aggregateData_length (data : list DataPoint) (w : Z) :
  exists out, aggregateData data w = JS.Returned out
              /\ (length out <= length data)%nat.
Proof.
  destruct (aggregateData_returns data w) as (m & bs & Hg & Hheld & Hall & Hout).
  exists (JS.sort timestamp bs). split; [exact Hout |].
  rewrite (Permutation_length (sort_perm timestamp bs)).
  rewrite <- (Forall2_length_eq _ _ _ Hall), <- Hheld.
  apply buckets_le_heldSamples. intros k ps Hin.
  apply (grouped_In w m data k ps Hg Hin).
Qed.

Lemma applyFilters_length (data : list DataPoint) (filters : FilterOptions) :
  (length (DataProvider.applyFilters data filters) <= length data)%nat.
Proof.
  unfold DataProvider.applyFilters, filterData.
  repeat match goal with |- context [if ?b then _ else _] => destruct b end;
    try apply filter_length_le; lia.
Qed.

(** [aggregateData] on an engine with the argument limit: it returns what
    it returns without the limit, or throws a RangeError, and then on more
    than [maxArguments] samples. *)
Lemma aggregateData_limited (maxArguments : nat) (data : list DataPoint) (w : Z) :
  (exists out,
      Engine.aggregateData maxArguments data w = JS.Returned out
      /\ (length out <= length data)%nat)
  \/ (Engine.aggregateData maxArguments data w = JS.Thrown JS.RangeError
      /\ (maxArguments < length data)%nat).
Proof.
  destruct (buckets_within_or_beyond maxArguments w data) as [H | H].
  - left. destruct (aggregateData_length data w) as (out & Hout & Hle).
    exists out. split; [| exact Hle].
    rewrite aggregateData_within by exact H. exact Hout.
  - right. split; [apply aggregateData_beyond; exact H |].
    destruct H as [k Hk]. pose proof (members_length w k data). lia.
Qed.

(** X3: on an engine that takes at most [maxArguments] arguments in a call,
    the provider's [filteredData] returns whenever the data has at most
    [maxArguments] samples, whatever the filters and the period, and what
    it returns never has more entries than the data; at the period ['1min']
    it is the filter stage alone and returns whatever the size; the only
    error it throws is the RangeError of [aggregateData], on data of more
    than [maxArguments] samples at another period; and with the filters
    and the period that [resetFilters] installs it is the data itself. *)
Theorem filteredData_returns (maxArguments : nat) (data : list DataPoint)
    (filters : FilterOptions) (period : AggregationPeriod) :
  ((length data <= maxArguments)%nat ->
   exists out, Engine.filteredData maxArguments data filters period = JS.Returned out)
  /\ (forall out,
        Engine.filteredData maxArguments data filters period = JS.Returned out ->
        (length out <= length data)%nat)
  /\ (period = P1min ->
      Engine.filteredData maxArguments data filters period
      = JS.Returned (DataProvider.applyFilters data filters))
  /\ (forall e,
        Engine.filteredData maxArguments data filters period = JS.Thrown e ->
        e = JS.RangeError /\ period <> P1min /\ (maxArguments < length data)%nat)
  /\ Engine.filteredData maxArguments data (fst resetFilters) (snd resetFilters)
     = JS.Returned data.
Proof.
  pose proof (applyFilters_length data filters) as Hlen.
  assert (Hcases :
    (exists out, Engine.filteredData maxArguments data filters period = JS.Returned out
                 /\ (length out <= length data)%nat)
    \/ (Engine.filteredData maxArguments data filters period = JS.Thrown JS.RangeError
        /\ period <> P1min /\ (maxArguments < length data)%nat)).
  { unfold Engine.filteredData.
    destruct (negb (DataProvider.is1min period)
              && (0 <? length (DataProvider.applyFilters data filters))%nat) eqn:E.
    - destruct (aggregateData_limited maxArguments
                  (DataProvider.applyFilters data filters)
                  (DataProvider.aggregationPeriods period))
        as [(out & Hout & Hle) | [Hthrow Hlong]].
      + left. exists out. split; [exact Hout | lia].
      + right. split; [exact Hthrow |]. split; [| lia].
        intros ->. discriminate E.
    - left. eexists. split; [reflexivity | exact Hlen]. }
  split; [| split; [| split; [| split]]].
  - intros Hfit. destruct Hcases as [(out & Hout & _) | (_ & _ & Hlong)]; [| lia].
    exists out. exact Hout.
  - intros out Hout. destruct Hcases as [(out' & Hout' & Hle) | (Hthrow & _)].
    + rewrite Hout in Hout'. injection Hout' as <-. exact Hle.
    + rewrite Hout in Hthrow. discriminate Hthrow.
  - intros ->. reflexivity.
  - intros e He. destruct Hcases as [(out & Hout & _) | (Hthrow & Hp & Hlong)].
    + rewrite He in Hout. discriminate Hout.
    + rewrite He in Hthrow. injection Hthrow as ->. split; [reflexivity |].
      split; assumption.
  - reflexivity.
Qed.

(** Where a bucket of the output comes from: its samples are the samples of
    the input with its key, and the first of them has that key. *)
Lemma bucket_origin (w : Z) (data : list DataPoint) (m : JS.Map (list DataPoint))
    (bs : list DataPoint) (b : DataPoint) :
  grouped w m data ->
  Forall2 (fun e b => aggregateBucket (fst e) (snd e) = JS.Returned b) m bs ->
  In b bs ->
  exists p0 rest,
    members w (timestamp b) data = p0 :: rest
    /\ aggregateBucket (timestamp b) (p0 :: rest) = JS.Returned b
    /\ In p0 data
    /\ timestamp b = timestamp p0 / w * w.
Proof.
  intros Hg Hall Hb.
  destruct (Forall2_In_right _ _ _ _ Hall Hb) as ([k ps] & Hin & Hagg).
  cbn [fst snd] in Hagg.
  destruct (grouped_In w m data k ps Hg Hin) as [Hps _].
  destruct (aggregateBucket_fields k ps b Hagg) as (p0 & rest & Hcons & Hts & _).
  subst k. exists p0, rest.
  assert (Hm : members w (timestamp b) data = p0 :: rest) by congruence.
  assert (Hp0 : In p0 (members w (timestamp b) data)) by (rewrite Hm; left; reflexivity).
  unfold members in Hp0. apply filter_In in Hp0. destruct Hp0 as [Hp0 Hk].
  split; [exact Hm | split; [congruence | split; [exact Hp0 |]]].
  rewrite <- bucketTimeOf_div. symmetry. apply Z.eqb_eq, Hk.
Qed.

Lemma bucket_timestamps (m : JS.Map (list DataPoint)) (bs : list DataPoint) :
  Forall2 (fun e b => aggregateBucket (fst e) (snd e) = JS.Returned b) m bs ->
  map timestamp bs = map fst m.
Proof.
  induction 1 as [| e b m bs Hb Hall IH]; [reflexivity |].
  cbn [map]. rewrite IH.
  destruct (aggregateBucket_fields _ _ _ Hb) as (_ & _ & _ & Hts & _).
  rewrite Hts. reflexivity.
Qed.

Lemma sorted_map_key {A} (key : A -> Z) (l : list A) :
  StronglySorted (fun a b => key a <= key b) l -> StronglySorted Z.le (map key l).
Proof.
  induction 1 as [| x l Hs IH Hall]; cbn [map]; constructor; [exact IH |].
  apply Forall_map. exact Hall.
Qed.

Lemma sorted_NoDup_strict (l : list Z) :
  StronglySorted Z.le l -> NoDup l -> StronglySorted Z.lt l.
Proof.
  induction 1 as [| x l Hs IH Hall]; intros Hnd; constructor.
  - apply IH. inversion Hnd; assumption.
  - inversion Hnd as [| ? ? Hnin _]; subst.
    rewrite Forall_forall in *. intros y Hy. specialize (Hall y Hy).
    assert (x <> y) by (intros ->; contradiction). lia.
Qed.

(** The shape of the output of [aggregateData] for a positive period. *)
Lemma aggregateData_shape (data : list DataPoint) (w : Z) :
  0 < w ->
  exists out,
    aggregateData data w = JS.Returned out
    /\ StronglySorted Z.lt (map timestamp out)
    /\ (forall b, In b out -> exists q, timestamp b = q * w)
    /\ (forall b, In b out ->
          exists k, value b = (inject_Z k / 100)%Q)
    /\ (length out <= length data)%nat.
Proof.
  intros Hw.
  destruct (aggregateData_returns data w) as (m & bs & Hg & Hheld & Hall & Hout).
  exists (JS.sort timestamp bs).
  pose proof (sort_perm timestamp bs) as Hperm.
  split; [exact Hout | split; [| split; [| split]]].
  - apply sorted_NoDup_strict.
    + apply sorted_map_key, sort_sorted.
    + apply (Permutation_NoDup (l := map timestamp bs)).
      * apply Permutation_map. symmetry. exact Hperm.
      * rewrite (bucket_timestamps m bs Hall). apply Hg.
  - intros b Hb. apply (Permutation_in _ Hperm) in Hb.
    destruct (bucket_origin w data m bs b Hg Hall Hb) as (p0 & _ & _ & _ & _ & Hts).
    exists (timestamp p0 / w). exact Hts.
  - intros b Hb. apply (Permutation_in _ Hperm) in Hb.
    destruct (bucket_origin w data m bs b Hg Hall Hb) as (p0 & rest & _ & Hagg & _ & _).
    destruct (aggregateBucket_fields _ _ _ Hagg) as (_ & _ & _ & _ & _ & Hval & _).
    eexists. exact Hval.
  - destruct (aggregateData_length data w) as (out & Hout' & Hle).
    rewrite Hout in Hout'. injection Hout' as <-. exact Hle.
Qed.

(** X4: for a positive period the bucket starts of the output of
    [aggregateData] increase strictly (no two buckets share a start), each
    is a multiple of the period, and there are at most as many buckets as
    samples. *)
Theorem aggregate_strictly_increasing (data : list DataPoint) (w : Z) :
  0 < w ->
  exists out,
    aggregateData data w = JS.Returned out
    /\ strictlyIncreasing (map timestamp out)
    /\ (forall b, In b out -> exists q, timestamp b = q * w)
    /\ (length out <= length data)%nat.
Proof.
  intros Hw.
  destruct (aggregateData_shape data w Hw) as (out & Hout & Hinc & Hmul & _ & Hlen).
  exists out. split; [exact Hout | split; [exact Hinc | split; assumption]].
Qed.

Lemma aggregate_strictly_increasing_witness :
  let s := fun t v => {| timestamp := t; value := v; category := "voltage";
                         metadata := None |} in
  exists out,
    aggregateData [s 2500 4%Q; s 100 1%Q; s 2999 6%Q; s 1000 2%Q; s 150 3%Q] 1000
    = JS.Returned out
    /\ strictlyIncreasing (map timestamp out)
    /\ map timestamp out = [0; 1000; 2000].
Proof.
  cbv zeta.
  destruct (aggregate_strictly_increasing
    [ {| timestamp := 2500; value := 4; category := "voltage"; metadata := None |};
      {| timestamp := 100; value := 1; category := "voltage"; metadata := None |};
      {| timestamp := 2999; value := 6; category := "voltage"; metadata := None |};
      {| timestamp := 1000; value := 2; category := "voltage"; metadata := None |};
      {| timestamp := 150; value := 3; category := "voltage"; metadata := None |} ]
    1000 eq_refl) as (out & Hout & Hinc & _).
  exists out. split; [exact Hout | split; [exact Hinc |]].
  vm_compute in Hout. injection Hout as <-. reflexivity.
Defined.

(** *** Mean and extrema *)

Lemma inject_nat_succ (n : nat) :
  (inject_Z (Z.of_nat (S n)) == inject_Z (Z.of_nat n) + 1)%Q.
Proof. rewrite Nat2Z.inj_succ. unfold Z.succ. rewrite inject_Z_plus. reflexivity. Qed.

Lemma sum_bounds (lo hi : Q) (vs : list Q) :
  (forall v, In v vs -> (lo <= v)%Q /\ (v <= hi)%Q) ->
  (inject_Z (Z.of_nat (length vs)) * lo <= fold_right Qplus 0 vs)%Q
  /\ (fold_right Qplus 0 vs <= inject_Z (Z.of_nat (length vs)) * hi)%Q.
Proof.
  induction vs as [| v vs IH]; intros Hall.
  - cbn [length fold_right]. change (inject_Z (Z.of_nat 0)) with 0%Q. split; lra.
  - destruct IH as [IH1 IH2]; [intros x Hx; apply Hall; right; exact Hx |].
    destruct (Hall v (or_introl eq_refl)) as [Hv1 Hv2].
    cbn [length fold_right]. rewrite inject_nat_succ.
    set (n := inject_Z (Z.of_nat (length vs))) in *.
    set (s := fold_right Qplus 0%Q vs) in *.
    assert (Hn : (0 <= n)%Q) by (unfold n, Qle; cbn; lia).
    clearbody n s. split; nra.
Qed.

(** The mean of a non-empty list lies between any bounds of its elements. *)
Lemma mean_bounds (lo hi : Q) (vs : list Q) :
  vs <> [] ->
  (forall v, In v vs -> (lo <= v)%Q /\ (v <= hi)%Q) ->
  (lo <= mean vs)%Q /\ (mean vs <= hi)%Q.
Proof.
  intros Hne Hall. destruct (sum_bounds lo hi vs Hall) as [H1 H2].
  unfold mean.
  assert (Hn : (0 < inject_Z (Z.of_nat (length vs)))%Q).
  { destruct vs as [| v vs]; [contradiction |].
    unfold Qlt. cbn. lia. }
  split.
  - apply Qle_shift_div_l; [exact Hn |]. rewrite Qmult_comm. exact H1.
  - apply Qle_shift_div_r; [exact Hn |]. rewrite Qmult_comm. exact H2.
Qed.

(** Rounding to hundredths moves a number by at most half a hundredth. *)
Lemma round_hundredths_close (x : Q) :
  let r := (inject_Z (JS.Math_round (x * 100)) / 100)%Q in
  (x - (1 # 200) < r)%Q /\ (r <= x + (1 # 200))%Q.
Proof.
  intros r. unfold r, JS.Math_round.
  pose proof (Qfloor_le (x * 100 + (1 # 2))) as H1.
  pose proof (Qlt_floor (x * 100 + (1 # 2))) as H2.
  rewrite inject_Z_plus in H2.
  generalize dependent (inject_Z (Qfloor (x * 100 + (1 # 2)))). intros k H1 H2.
  change (inject_Z 1) with 1%Q in H2.
  split.
  - apply Qlt_shift_div_l; [reflexivity | lra].
  - apply Qle_shift_div_r; [reflexivity | lra].
Qed.

(** *** Aggregating twice *)

Lemma pushPoint_fresh (k : Z) (p : DataPoint) (m : JS.Map (list DataPoint)) :
  ~ In k (map fst m) -> pushPoint k p m = m ++ [(k, [p])].
Proof.
  induction m as [| [k' ps] m IH]; intros Hnin; cbn [pushPoint app]; [reflexivity |].
  cbn [map fst In] in Hnin.
  destruct (Z.eqb_spec k k') as [-> | Hne]; [tauto |].
  rewrite IH by tauto. reflexivity.
Qed.

(** Samples with distinct keys open one bucket each, in input order. *)
Lemma group_distinct (w : Z) (l : list DataPoint) :
  forall m,
    NoDup (map (bucketTimeOf w) l) ->
    (forall b, In b l -> ~ In (bucketTimeOf w b) (map fst m)) ->
    fold_left (fun m p => pushPoint (bucketTimeOf w p) p m) l m
    = m ++ map (fun b => (bucketTimeOf w b, [b])) l.
Proof.
  induction l as [| b l IH]; intros m Hnd Hfresh; cbn [fold_left map].
  - rewrite app_nil_r. reflexivity.
  - inversion Hnd as [| ? ? Hnin Hnd']; subst.
    rewrite pushPoint_fresh by (apply Hfresh; left; reflexivity).
    rewrite IH; [rewrite <- app_assoc; reflexivity | exact Hnd' |].
    intros c Hc. rewrite map_app, in_app_iff. cbn [map fst In].
    intros [H | [H | []]].
    + apply (Hfresh c); [right; exact Hc | exact H].
    + apply Hnin. rewrite H. apply in_map. exact Hc.
Qed.

Lemma aggregateBuckets_singletons (key : DataPoint -> Z) (l : list DataPoint) :
  (forall b, In b l -> key b = timestamp b) ->
  aggregateBuckets (map (fun b => (key b, [b])) l) = JS.Returned (map rebucket l).
Proof.
  induction l as [| b l IH]; intros Hkey; [reflexivity |].
  cbn [map aggregateBuckets]. rewrite IH by (intros c Hc; apply Hkey; right; exact Hc).
  cbn [JS.obind aggregateBucket]. rewrite (Hkey b (or_introl eq_refl)). reflexivity.
Qed.

(** Sorting a sorted list leaves it as it is. *)
Lemma sort_of_sorted {A} (key : A -> Z) (l : list A) :
  StronglySorted (fun a b => key a <= key b) l -> JS.sort key l = l.
Proof.
  induction 1 as [| x l Hs IH Hall]; cbn [JS.sort]; [reflexivity |].
  rewrite IH. destruct l as [| y l]; [reflexivity |].
  cbn [JS.insert]. inversion Hall as [| ? ? Hxy _]; subst.
  destruct (Z.leb_spec (key x) (key y)); [reflexivity | lia].
Qed.

Lemma Qfloor_plus_half (k : Z) : Qfloor (inject_Z k + (1 # 2)) = k.
Proof.
  unfold Qfloor, inject_Z, Qplus. cbn [Qnum Qden].
  change (Z.pos (1 * 2)) with 2. symmetry.
  apply (Z.div_unique _ 2 k 1); lia.
Qed.

(** Rounding a whole number of hundredths to hundredths gives it back. *)
Lemma rebucket_value (b : DataPoint) (k : Z) :
  value b = (inject_Z k / 100)%Q -> value (rebucket b) = value b.
Proof.
  intros Hv. unfold rebucket, JS.Math_round, JS.sum. cbn [value fold_left].
  rewrite Hv.
  assert (E : ((0 + inject_Z k / 100) / inject_Z (Z.of_nat 1) * 100 + (1 # 2)
               == inject_Z k + (1 # 2))%Q) by (change (inject_Z (Z.of_nat 1)) with 1%Q; field).
  rewrite (Qfloor_comp _ _ E), Qfloor_plus_half. reflexivity.
Qed.

Lemma strict_to_le (l : list Z) : StronglySorted Z.lt l -> StronglySorted Z.le l.
Proof.
  induction 1 as [| x l Hs IH Hall]; constructor; [exact IH |].
  eapply Forall_impl; [| exact Hall]. intros y Hy. lia.
Qed.

Lemma sorted_of_map_key {A} (key : A -> Z) (l : list A) :
  StronglySorted Z.le (map key l) -> StronglySorted (fun a b => key a <= key b) l.
Proof.
  induction l as [| x l IH]; cbn [map]; intros Hs; [constructor |].
  inversion Hs as [| ? ? Hs' Hall]; subst. constructor; [apply IH, Hs' |].
  rewrite Forall_map in Hall. exact Hall.
Qed.

Lemma strict_NoDup (l : list Z) : StronglySorted Z.lt l -> NoDup l.
Proof.
  induction 1 as [| x l Hs IH Hall]; constructor; [| exact IH].
  intros Hin. rewrite Forall_forall in Hall. specialize (Hall x Hin). lia.
Qed.

(** X6: aggregating the output of [aggregateData] again with the same
    positive period changes neither the bucket starts, nor the values, nor
    the categories: every bucket becomes a bucket of its own, with count 1. *)
Theorem aggregate_twice (data : list DataPoint) (w : Z) :
  0 < w ->
  exists out again,
    aggregateData data w = JS.Returned out
    /\ aggregateData out w = JS.Returned again
    /\ map timestamp again = map timestamp out
    /\ map value again = map value out
    /\ map category again = map category out
    /\ Forall (fun b => bucketCount b = 1%nat) again.
Proof.
  intros Hw.
  destruct (aggregateData_shape data w Hw) as (out & Hout & Hinc & Hmul & Hval & _).
  assert (Hkey : forall b, In b out -> bucketTimeOf w b = timestamp b).
  { intros b Hb. destruct (Hmul b Hb) as [q Hq].
    rewrite bucketTimeOf_div, Hq, Z.div_mul by lia. reflexivity. }
  assert (Hkeys : map (bucketTimeOf w) out = map timestamp out).
  { apply map_ext_in. exact Hkey. }
  exists out, (map rebucket out). split; [exact Hout |].
  assert (Hts : map timestamp (map rebucket out) = map timestamp out).
  { rewrite map_map. reflexivity. }
  split; [| split; [exact Hts | split; [| split]]].
  - destruct out as [| b0 out']; [reflexivity |].
    unfold aggregateData. rewrite groupPoints_returns. cbn [JS.obind].
    rewrite group_distinct; [| rewrite Hkeys; apply strict_NoDup, Hinc | intros b _ []].
    cbn [app]. rewrite aggregateBuckets_singletons by exact Hkey.
    cbn [JS.obind]. rewrite sort_of_sorted; [reflexivity |].
    apply sorted_of_map_key. rewrite Hts. apply strict_to_le, Hinc.
  - rewrite map_map. apply map_ext_in. intros b Hb.
    destruct (Hval b Hb) as [k Hk]. apply (rebucket_value b k Hk).
  - rewrite map_map. reflexivity.
  - apply Forall_map. apply Forall_forall. intros b _. reflexivity.
Qed.

Lemma aggregate_twice_witness :
  let s := fun t v => {| timestamp := t; value := v; category := "voltage";
                         metadata := None |} in
  exists out again,
    aggregateData [s 2500 4%Q; s 100 1%Q; s 2999 (13 # 3)%Q; s 150 2%Q] 1000
    = JS.Returned out
    /\ aggregateData out 1000 = JS.Returned again
    /\ map timestamp again = map timestamp out
    /\ map value again = map value out.
Proof.
  cbv zeta.
  destruct (aggregate_twice
    [ {| timestamp := 2500; value := 4; category := "voltage"; metadata := None |};
      {| timestamp := 100; value := 1; category := "voltage"; metadata := None |};
      {| timestamp := 2999; value := 13 # 3; category := "voltage"; metadata := None |};
      {| timestamp := 150; value := 2; category := "voltage"; metadata := None |} ]
    1000 eq_refl) as (out & again & H1 & H2 & H3 & H4 & _).
  exists out, again. repeat split; assumption.
Defined.

(** ** Viewport and canvas, continued *)

(** The viewport of a non-empty input, field by field. *)
Lemma calculateViewport_fields (now : Z) (p : DataPoint) (ps : list DataPoint)
    (padding : option Q) :
  let pad := match padding with Some q => q | None => (1 # 10)%Q end in
  let tmin := JS.Math_min (inject_Z (timestamp p)) (map (fun q => inject_Z (timestamp q)) ps) in
  let tmax := JS.Math_max (inject_Z (timestamp p)) (map (fun q => inject_Z (timestamp q)) ps) in
  let vmin := JS.Math_min (value p) (map value ps) in
  let vmax := JS.Math_max (value p) (map value ps) in
  let vp := calculateViewport now (p :: ps) padding in
  xMin vp = (tmin - (tmax - tmin) * pad)%Q
  /\ xMax vp = (tmax + (tmax - tmin) * pad)%Q
  /\ yMin vp = Qmax 0 (vmin - (vmax - vmin) * pad)
  /\ yMax vp = (vmax + (vmax - vmin) * pad)%Q.
Proof. repeat split; reflexivity. Qed.

Lemma extrema_enclose (f : DataPoint -> Q) (p : DataPoint) (ps : list DataPoint)
    (q : DataPoint) :
  In q (p :: ps) ->
  (JS.Math_min (f p) (map f ps) <= f q)%Q /\ (f q <= JS.Math_max (f p) (map f ps))%Q.
Proof.
  destruct (Math_min_lower (map f ps) (f p)) as [H1 H2].
  destruct (Math_max_upper (map f ps) (f p)) as [H3 H4].
  intros [<- | Hq]; [split; assumption |].
  split; [apply H2 | apply H4]; apply in_map; exact Hq.
Qed.

(** The viewport of a non-empty input encloses it. *)
Lemma viewport_encloses_data_aux (now : Z) (data : list DataPoint) (padding : option Q)
    (q : DataPoint) :
  (forall x, padding = Some x -> (0 <= x)%Q) ->
  In q data ->
  let vp := calculateViewport now data padding in
  (xMin vp <= inject_Z (timestamp q))%Q /\ (inject_Z (timestamp q) <= xMax vp)%Q
  /\ (value q <= yMax vp)%Q
  /\ ((0 <= value q)%Q -> (yMin vp <= value q)%Q)
  /\ (0 <= yMin vp)%Q
  /\ ((value q < 0)%Q -> (value q < yMin vp)%Q).
Proof.
  intros Hpad Hq vp. destruct data as [| p ps]; [destruct Hq |].
  destruct (calculateViewport_fields now p ps padding) as (Hx & HX & Hy & HY).
  fold vp in Hx, HX, Hy, HY. rewrite Hx, HX, Hy, HY. clear Hx HX Hy HY vp.
  set (pad := match padding with Some x => x | None => (1 # 10)%Q end).
  assert (Hp : (0 <= pad)%Q).
  { unfold pad. destruct padding as [x |]; [apply Hpad; reflexivity | discriminate]. }
  destruct (extrema_enclose (fun d => inject_Z (timestamp d)) p ps q Hq) as [Ht1 Ht2].
  destruct (extrema_enclose value p ps q Hq) as [Hv1 Hv2].
  cbv beta in Ht1, Ht2.
  set (tmin := JS.Math_min (inject_Z (timestamp p))
                 (map (fun d => inject_Z (timestamp d)) ps)) in *.
  set (tmax := JS.Math_max (inject_Z (timestamp p))
                 (map (fun d => inject_Z (timestamp d)) ps)) in *.
  set (vmin := JS.Math_min (value p) (map value ps)) in *.
  set (vmax := JS.Math_max (value p) (map value ps)) in *.
  clearbody pad tmin tmax vmin vmax.
  assert (Hlow : (0 <= Qmax 0 (vmin - (vmax - vmin) * pad))%Q) by apply Q.le_max_l.
  split; [nra | split; [nra | split; [nra | split; [| split; [exact Hlow |]]]]].
  - intros Hv. apply Q.max_lub; nra.
  - intros Hv. lra.
Qed.

(** X7: with a padding that is not negative, the viewport computed from a
    non-empty input encloses it in time and from above: every sample has
    [xMin <= timestamp <= xMax] and [value <= yMax].  The lower edge [yMin]
    is never negative, so samples of negative value fall below it, and every
    sample of non-negative value has [yMin <= value]. *)
Theorem viewport_encloses_data (now : Z) (data : list DataPoint) (padding : option Q)
    (q : DataPoint) :
  (forall x, padding = Some x -> (0 <= x)%Q) ->
  In q data ->
  let vp := calculateViewport now data padding in
  (xMin vp <= inject_Z (timestamp q))%Q /\ (inject_Z (timestamp q) <= xMax vp)%Q
  /\ (value q <= yMax vp)%Q
  /\ (0 <= yMin vp)%Q
  /\ ((0 <= value q)%Q -> (yMin vp <= value q)%Q)
  /\ ((value q < 0)%Q -> (value q < yMin vp)%Q).
Proof.
  intros Hpad Hq vp.
  destruct (viewport_encloses_data_aux now data padding q Hpad Hq)
    as (H1 & H2 & H3 & H4 & H5 & H6).
  fold vp in H1, H2, H3, H4, H5, H6.
  split; [exact H1 | split; [exact H2 | split; [exact H3 | split; [exact H5 | split; assumption]]]].
Qed.

Lemma viewport_encloses_data_witness :
  let a := {| timestamp := 1000; value := 10; category := "humidity"; metadata := None |} in
  let b := {| timestamp := 3000; value := -4; category := "humidity"; metadata := None |} in
  let vp := calculateViewport 0 [a; b] None in
  (xMin vp <= 3000)%Q /\ (3000 <= xMax vp)%Q /\ (-4 < yMin vp)%Q /\ (yMin vp <= 10)%Q.
Proof.
  cbv zeta.
  pose proof (viewport_encloses_data 0
    [ {| timestamp := 1000; value := 10; category := "humidity"; metadata := None |};
      {| timestamp := 3000; value := -4; category := "humidity"; metadata := None |} ]
    None) as H.
  destruct (H {| timestamp := 3000; value := -4; category := "humidity"; metadata := None |})
    as (H1 & H2 & _ & _ & _ & H3); [discriminate | right; left; reflexivity |].
  destruct (H {| timestamp := 1000; value := 10; category := "humidity"; metadata := None |})
    as (_ & _ & _ & _ & H4 & _); [discriminate | left; reflexivity |].
  split; [exact H1 | split; [exact H2 | split; [apply H3; reflexivity | apply H4; discriminate]]].
Defined.

(** A point of an interval, as a fraction of the interval. *)
Lemma fraction_bounds (a b t : Q) :
  (a < b)%Q -> (a <= t)%Q -> (t <= b)%Q ->
  (0 <= (t - a) / (b - a))%Q /\ ((t - a) / (b - a) <= 1)%Q.
Proof.
  intros Hab Hat Htb. assert (Hc : (0 < b - a)%Q) by lra. split.
  - apply Qle_shift_div_l; [exact Hc | lra].
  - apply Qle_shift_div_r; [exact Hc | lra].
Qed.

Lemma fraction_monotone (a b s t : Q) :
  (a < b)%Q -> (s < t)%Q -> ((s - a) / (b - a) < (t - a) / (b - a))%Q.
Proof.
  intros Hab Hst. assert (Hc : (0 < b - a)%Q) by lra.
  apply Qlt_shift_div_l; [exact Hc |].
  setoid_replace ((s - a) / (b - a) * (b - a))%Q with (s - a)%Q by (field; lra).
  lra.
Qed.

(** [dataToCanvas] keeps the viewport inside the display rectangle. *)
Lemma dataToCanvas_inside_aux (point : DataPoint) (bounds : ChartBounds)
    (viewport : Viewport) :
  (xMin viewport < xMax viewport)%Q -> (yMin viewport < yMax viewport)%Q ->
  (0 <= width bounds)%Q -> (0 <= height bounds)%Q ->
  (xMin viewport <= inject_Z (timestamp point))%Q ->
  (inject_Z (timestamp point) <= xMax viewport)%Q ->
  (yMin viewport <= value point)%Q -> (value point <= yMax viewport)%Q ->
  insideBounds bounds (dataToCanvas point bounds viewport).
Proof.
  intros Hx Hy Hw Hh Ht1 Ht2 Hv1 Hv2.
  destruct (fraction_bounds _ _ _ Hx Ht1 Ht2) as [Hf1 Hf2].
  destruct (fraction_bounds _ _ _ Hy Hv1 Hv2) as [Hg1 Hg2].
  unfold insideBounds, dataToCanvas. cbn [fst snd].
  set (f := ((inject_Z (timestamp point) - xMin viewport)
             / (xMax viewport - xMin viewport))%Q) in *.
  set (g := ((value point - yMin viewport) / (yMax viewport - yMin viewport))%Q) in *.
  clearbody f g. split; [nra | split; [nra | split; nra]].
Qed.

(** X8: with a viewport of positive extent and a display rectangle whose
    width and height are not negative, [dataToCanvas] puts every sample
    that lies in the viewport inside the rectangle. *)
Theorem dataToCanvas_inside (point : DataPoint) (bounds : ChartBounds)
    (viewport : Viewport) :
  (xMin viewport < xMax viewport)%Q -> (yMin viewport < yMax viewport)%Q ->
  (0 <= width bounds)%Q -> (0 <= height bounds)%Q ->
  (xMin viewport <= inject_Z (timestamp point))%Q ->
  (inject_Z (timestamp point) <= xMax viewport)%Q ->
  (yMin viewport <= value point)%Q -> (value point <= yMax viewport)%Q ->
  insideBounds bounds (dataToCanvas point bounds viewport).
Proof. apply dataToCanvas_inside_aux. Qed.

Lemma dataToCanvas_inside_witness :
  insideBounds {| bx := 60; by_ := 20; width := 720; height := 340 |}
    (dataToCanvas {| timestamp := 5; value := 7; category := "pressure"; metadata := None |}
                  {| bx := 60; by_ := 20; width := 720; height := 340 |}
                  {| xMin := 0; xMax := 10; yMin := 0; yMax := 20 |}).
Proof.
  apply dataToCanvas_inside; cbn; try reflexivity; discriminate.
Defined.

(** X9: with a viewport of positive extent and a display rectangle of
    positive width and height, [dataToCanvas] keeps the order of timestamps
    along x and reverses the order of values along y (larger values are
    drawn higher up). *)
Theorem dataToCanvas_monotone (p q : DataPoint) (bounds : ChartBounds)
    (viewport : Viewport) :
  (xMin viewport < xMax viewport)%Q -> (yMin viewport < yMax viewport)%Q ->
  (0 < width bounds)%Q -> (0 < height bounds)%Q ->
  (timestamp p < timestamp q ->
   (fst (dataToCanvas p bounds viewport) < fst (dataToCanvas q bounds viewport))%Q)
  /\ ((value p < value q)%Q ->
      (snd (dataToCanvas q bounds viewport) < snd (dataToCanvas p bounds viewport))%Q).
Proof.
  intros Hx Hy Hw Hh. unfold dataToCanvas. cbn [fst snd]. split.
  - intros Hlt. assert (Hq : (inject_Z (timestamp p) < inject_Z (timestamp q))%Q).
    { rewrite <- Zlt_Qlt. exact Hlt. }
    pose proof (fraction_monotone _ _ _ _ Hx Hq) as Hf.
    set (f := (_ / _)%Q) in *. set (g := (_ / _)%Q) in Hf |- *.
    clearbody f g. nra.
  - intros Hlt. pose proof (fraction_monotone _ _ _ _ Hy Hlt) as Hf.
    set (f := ((value p - _) / _)%Q) in *. set (g := ((value q - _) / _)%Q) in *.
    clearbody f g. nra.
Qed.

Lemma dataToCanvas_monotone_witness :
  let bounds := {| bx := 60; by_ := 20; width := 720; height := 340 |} in
  let viewport := {| xMin := 0; xMax := 10; yMin := 0; yMax := 20 |} in
  let p := {| timestamp := 2; value := 3; category := "pressure"; metadata := None |} in
  let q := {| timestamp := 5; value := 7; category := "pressure"; metadata := None |} in
  (fst (dataToCanvas p bounds viewport) < fst (dataToCanvas q bounds viewport))%Q
  /\ (snd (dataToCanvas q bounds viewport) < snd (dataToCanvas p bounds viewport))%Q.
Proof.
  cbv zeta.
  destruct (dataToCanvas_monotone
    {| timestamp := 2; value := 3; category := "pressure"; metadata := None |}
    {| timestamp := 5; value := 7; category := "pressure"; metadata := None |}
    {| bx := 60; by_ := 20; width := 720; height := 340 |}
    {| xMin := 0; xMax := 10; yMin := 0; yMax := 20 |}
    eq_refl eq_refl eq_refl eq_refl) as [H1 H2].
  split; [apply H1 | apply H2]; reflexivity.
Defined.

(** *** What the renderers draw *)

Lemma differs_from_head (f : DataPoint -> Q) (d : DataPoint) (ds : list DataPoint) :
  (exists p q, In p (d :: ds) /\ In q (d :: ds) /\ ~ (f p == f q)%Q) ->
  exists x, In x ds /\ ~ (f x == f d)%Q.
Proof.
  intros (p & q & Hp & Hq & Hne).
  destruct (Qeq_dec (f p) (f d)) as [E | E].
  - exists q. destruct Hq as [<- | Hq]; [contradiction |].
    split; [exact Hq |]. intros E'. apply Hne. rewrite E, E'. reflexivity.
  - exists p. destruct Hp as [<- | Hp]; [exfalso; apply E; reflexivity |].
    split; [exact Hp | exact E].
Qed.

(** A viewport computed from samples of non-negative value that differ in
    time and in value has positive extent on both axes. *)
Lemma viewport_positive_extent (now : Z) (data : list DataPoint) (padding : option Q) :
  (forall x, padding = Some x -> (0 <= x)%Q) ->
  (exists p q, In p data /\ In q data /\ timestamp p <> timestamp q) ->
  (exists p q, In p data /\ In q data /\ ~ (value p == value q)%Q) ->
  (forall p, In p data -> (0 <= value p)%Q) ->
  let vp := calculateViewport now data padding in
  (xMin vp < xMax vp)%Q /\ (yMin vp < yMax vp)%Q.
Proof.
  intros Hpad Ht Hv Hpos vp. destruct data as [| d ds].
  { destruct Ht as (p & _ & [] & _). }
  destruct (calculateViewport_fields now d ds padding) as (Hx & HX & Hy & HY).
  fold vp in Hx, HX, Hy, HY. rewrite Hx, HX, Hy, HY. clear Hx HX Hy HY vp.
  set (pad := match padding with Some x => x | None => (1 # 10)%Q end).
  assert (Hp : (0 <= pad)%Q).
  { unfold pad. destruct padding as [x |]; [apply Hpad; reflexivity | discriminate]. }
  assert (Htl : (JS.Math_min (inject_Z (timestamp d)) (map (fun q => inject_Z (timestamp q)) ds)
                 < JS.Math_max (inject_Z (timestamp d)) (map (fun q => inject_Z (timestamp q)) ds))%Q).
  { destruct (differs_from_head (fun q => inject_Z (timestamp q)) d ds) as (x & Hx & Hne).
    - destruct Ht as (p & q & Hp' & Hq & Hne). exists p, q.
      split; [exact Hp' | split; [exact Hq |]].
      intros E. apply Hne. apply inject_Z_injective. exact E.
    - apply (Math_min_lt_max _ _ (inject_Z (timestamp x))); [| exact Hne].
      apply (in_map (fun q => inject_Z (timestamp q))). exact Hx. }
  assert (Hvl : (JS.Math_min (value d) (map value ds)
                 < JS.Math_max (value d) (map value ds))%Q).
  { destruct (differs_from_head value d ds Hv) as (x & Hx & Hne).
    apply (Math_min_lt_max _ _ (value x)); [apply in_map; exact Hx | exact Hne]. }
  assert (Hv0 : (0 <= JS.Math_min (value d) (map value ds))%Q).
  { destruct (Math_min_in (map value ds) (value d)) as [<- | Hin].
    - apply Hpos. left. reflexivity.
    - apply in_map_iff in Hin. destruct Hin as (x & <- & Hx). apply Hpos. right. exact Hx. }
  set (tmin := JS.Math_min (inject_Z (timestamp d)) _) in *.
  set (tmax := JS.Math_max (inject_Z (timestamp d)) _) in *.
  set (vmin := JS.Math_min (value d) _) in *.
  set (vmax := JS.Math_max (value d) _) in *.
  clearbody pad tmin tmax vmin vmax. split; [nra |].
  apply Q.max_lub_lt; nra.
Qed.

(** X10: on a canvas of at least 80 by 60 pixels, with the viewport computed
    from the data, every position the line renderer and the scatter plot
    draw lies inside the chart area (the canvas less the axis padding),
    provided the samples have non-negative values and differ in time and
    in value. *)
Theorem drawn_points_inside (now : Z) (data : list DataPoint)
    (canvasWidth canvasHeight : Q) :
  (80 <= canvasWidth)%Q -> (60 <= canvasHeight)%Q ->
  (exists p q, In p data /\ In q data /\ timestamp p <> timestamp q) ->
  (exists p q, In p data /\ In q data /\ ~ (value p == value q)%Q) ->
  (forall p, In p data -> (0 <= value p)%Q) ->
  let bounds := chartBounds canvasWidth canvasHeight in
  let viewport := chartViewport now None data in
  Forall (insideBounds bounds) (ChartRenderer.path data bounds viewport)
  /\ Forall (insideBounds bounds) (ScatterPlot.discs data bounds viewport).
Proof.
  intros HW HH Ht Hv Hpos bounds viewport.
  assert (Hnone : forall x : Q, @None Q = Some x -> (0 <= x)%Q) by discriminate.
  destruct (viewport_positive_extent now data None Hnone Ht Hv Hpos) as [Hx Hy].
  assert (Hin : forall p, In p data -> insideBounds bounds (dataToCanvas p bounds viewport)).
  { intros p Hp.
    destruct (viewport_encloses_data_aux now data None p Hnone Hp)
      as (H1 & H2 & H3 & H4).
    apply dataToCanvas_inside_aux; try assumption.
    - unfold bounds, chartBounds. cbn [width]. lra.
    - unfold bounds, chartBounds. cbn [height]. lra.
    - apply H4. apply Hpos. exact Hp. }
  destruct (path_of_sampled data bounds viewport) as [-> ->].
  assert (Hs : (1 <= Z.to_nat (ChartRenderer.step data))%nat).
  { unfold ChartRenderer.step. destruct (ChartRenderer.useLowDetail data); lia. }
  assert (Hs' : (1 <= Z.to_nat (ScatterPlot.step data))%nat).
  { unfold ScatterPlot.step. destruct (Z.of_nat (length data) >? 10000); lia. }
  split; apply Forall_map, Forall_forall; intros p Hp; apply Hin.
  - apply (proj1 (proj2 (proj2 (forStride_spec data _ Hs)))). exact Hp.
  - apply (proj1 (proj2 (proj2 (forStride_spec data _ Hs')))). exact Hp.
Qed.

Lemma drawn_points_inside_witness :
  let a := {| timestamp := 1000; value := 10; category := "humidity"; metadata := None |} in
  let b := {| timestamp := 3000; value := 30; category := "humidity"; metadata := None |} in
  Forall (insideBounds (chartBounds 800 400))
         (ChartRenderer.path [a; b] (chartBounds 800 400) (chartViewport 0 None [a; b])).
Proof.
  cbv zeta.
  refine (proj1 (drawn_points_inside 0
    [ {| timestamp := 1000; value := 10; category := "humidity"; metadata := None |};
      {| timestamp := 3000; value := 30; category := "humidity"; metadata := None |} ]
    800 400 _ _ _ _ _)).
  - discriminate.
  - discriminate.
  - eexists; eexists. split; [left; reflexivity | split; [right; left; reflexivity | discriminate]].
  - eexists; eexists. split; [left; reflexivity | split; [right; left; reflexivity | discriminate]].
  - intros p [<- | [<- | []]]; discriminate.
Defined.

(** X11: for a viewport of positive extent, the bar chart fills one
    rectangle per sample, in input order: at least 2 wide, starting half its
    width left of the sample's canvas x, with its top at the sample's canvas
    y and reaching from there down to the lower edge of the chart area;
    when the chart area's height is not negative and the viewport contains
    the sample's value, the bar's height lies between 0 and the height of
    the chart area. *)
Theorem bars_geometry (data : list DataPoint) (bounds : ChartBounds)
    (viewport : Viewport) :
  (xMin viewport < xMax viewport)%Q -> (yMin viewport < yMax viewport)%Q ->
  length (BarChart.bars data bounds viewport) = length data
  /\ forall i point,
       nth_error data i = Some point ->
       exists r,
         nth_error (BarChart.bars data bounds viewport) i = Some r
         /\ (2 <= rect_w r)%Q
         /\ (rect_x r == fst (dataToCanvas point bounds viewport) - rect_w r / 2)%Q
         /\ rect_y r = snd (dataToCanvas point bounds viewport)
         /\ (rect_h r == by_ bounds + height bounds - rect_y r)%Q
         /\ ((0 <= height bounds)%Q ->
             (yMin viewport <= value point)%Q -> (value point <= yMax viewport)%Q ->
             (0 <= rect_h r)%Q /\ (rect_h r <= height bounds)%Q).
Proof.
  intros Hx Hy.
  unfold BarChart.bars. destruct data as [| d ds].
  { split; [reflexivity |]. intros [| i] point; discriminate. }
  cbn [length Nat.ltb Nat.leb]. split; [apply length_map |].
  intros i point Hi. rewrite nth_error_map, Hi. cbn [option_map].
  eexists. split; [reflexivity |].
  unfold dataToCanvas. cbn [rect_w rect_x rect_y rect_h fst snd].
  set (f := ((inject_Z (timestamp point) - xMin viewport)
             / (xMax viewport - xMin viewport))%Q).
  set (g := ((value point - yMin viewport) / (yMax viewport - yMin viewport))%Q).
  split; [apply Q.le_max_l |].
  split; [reflexivity |]. split; [reflexivity |].
  split; [reflexivity |].
  intros Hh Hv1 Hv2.
  destruct (fraction_bounds _ _ _ Hy Hv1 Hv2) as [Hg1 Hg2].
  fold g in Hg1, Hg2. clearbody g. split; nra.
Qed.

Lemma bars_geometry_witness :
  let s := fun t v => {| timestamp := t; value := v; category := "voltage";
                         metadata := None |} in
  let bounds := {| bx := 60; by_ := 20; width := 720; height := 340 |} in
  let viewport := {| xMin := 0; xMax := 10; yMin := 0; yMax := 20 |} in
  exists r,
    nth_error (BarChart.bars [s 2 5%Q; s 5 10%Q] bounds viewport) 1 = Some r
    /\ (0 <= rect_h r)%Q /\ (rect_h r <= 340)%Q.
Proof.
  cbv zeta.
  destruct (bars_geometry
              [ {| timestamp := 2; value := 5; category := "voltage"; metadata := None |};
                {| timestamp := 5; value := 10; category := "voltage"; metadata := None |} ]
              {| bx := 60; by_ := 20; width := 720; height := 340 |}
              {| xMin := 0; xMax := 10; yMin := 0; yMax := 20 |} eq_refl eq_refl)
    as [_ H].
  destruct (H 1%nat _ eq_refl) as (r & Hr & _ & _ & _ & _ & Hb).
  exists r. split; [exact Hr |]. apply Hb; discriminate.
Defined.

(** ** Virtualization, continued *)

(** A slice between two in-range bounds. *)
Lemma slice_in_range {A} (l : list A) (s e : Z) :
  0 <= s -> 0 <= e <= Z.of_nat (length l) ->
  JS.slice l s (Some e) = firstn (Z.to_nat (e - s)) (skipn (Z.to_nat s) l).
Proof.
  intros Hs He. unfold JS.slice, JS.relative_index.
  destruct (Z.ltb_spec s 0); [lia |]. destruct (Z.ltb_spec e 0); [lia |].
  rewrite (Z.min_l e) by lia.
  destruct (Z.le_gt_cases s (Z.of_nat (length l))) as [Hle | Hgt].
  - rewrite Z.min_l by lia. reflexivity.
  - rewrite Z.min_r by lia. rewrite Nat2Z.id.
    rewrite (skipn_all2 l) by lia. rewrite (skipn_all2 l) by lia.
    rewrite !firstn_nil. reflexivity.
Qed.

Lemma In_combine_seq {A} (l : list A) (s : Z) (x : A) (idx : Z) :
  In (x, idx) (combine l (map (fun i => s + Z.of_nat i) (seq 0 (length l))))
  <-> exists i, nth_error l i = Some x /\ idx = s + Z.of_nat i.
Proof.
  assert (G : forall (l : list A) (b : nat),
             In (x, idx) (combine l (map (fun i => s + Z.of_nat i) (seq b (length l))))
             <-> exists i, nth_error l i = Some x /\ idx = s + Z.of_nat (b + i)).
  { clear l. induction l as [| y l IH]; intros b.
    - cbn. split; [intros [] | intros ([| i] & H & _); discriminate].
    - cbn [length seq map combine In]. rewrite IH. split.
      + intros [[= -> <-] | (i & Hi & ->)].
        * exists 0%nat. split; [reflexivity | f_equal; lia].
        * exists (S i). split; [exact Hi | f_equal; lia].
      + intros ([| i] & Hi & ->).
        * left. cbn in Hi. injection Hi as ->. f_equal. f_equal. lia.
        * right. exists i. split; [exact Hi | f_equal; lia]. }
  rewrite G. reflexivity.
Qed.

(** The clamps of the visible range. *)
Lemma visibleRange_clamps {T} (items : list T) (options : Virtualization.Options)
    (scrollTop : Q) :
  (0 < Virtualization.itemHeight options)%Q ->
  (0 <= scrollTop + Virtualization.containerHeight options)%Q ->
  0 <= Virtualization.overscanOrDefault options ->
  let r := Virtualization.visibleRange items options scrollTop in
  0 <= Virtualization.start r
  /\ -1 <= Virtualization.end_ r <= Z.of_nat (length items) - 1.
Proof.
  intros Hh Hc Ho r. unfold r, Virtualization.visibleRange.
  cbn [Virtualization.start Virtualization.end_].
  assert (Hceil : 0 <= JS.Math_ceil ((scrollTop + Virtualization.containerHeight options)
                                     / Virtualization.itemHeight options)).
  { unfold JS.Math_ceil. change 0 with (Qceiling 0). apply Qceiling_resp_le.
    apply Qle_shift_div_l; [exact Hh | lra]. }
  lia.
Qed.

(** Which rows are materialized: those of the visible range, each with its
    own index. *)
Lemma visibleItems_In {T} (items : list T) (options : Virtualization.Options)
    (scrollTop : Q) (item : T) (idx : Z) :
  (0 < Virtualization.itemHeight options)%Q ->
  (0 <= scrollTop + Virtualization.containerHeight options)%Q ->
  0 <= Virtualization.overscanOrDefault options ->
  let r := Virtualization.visibleRange items options scrollTop in
  In (item, idx) (Virtualization.visibleItems items options scrollTop)
  <-> Virtualization.start r <= idx <= Virtualization.end_ r
      /\ nth_error items (Z.to_nat idx) = Some item.
Proof.
  intros Hh Hc Ho r.
  destruct (visibleRange_clamps items options scrollTop Hh Hc Ho) as [Hs He].
  fold r in Hs, He. unfold Virtualization.visibleItems. fold r.
  rewrite In_combine_seq, slice_in_range by lia.
  set (s := Virtualization.start r) in *. set (e := Virtualization.end_ r) in *.
  split.
  - intros (i & Hi & ->).
    assert (Hlt : (i < Z.to_nat (e + 1 - s))%nat).
    { assert (Hsome : nth_error (firstn (Z.to_nat (e + 1 - s)) (skipn (Z.to_nat s) items)) i
                      <> None) by congruence.
      apply nth_error_Some in Hsome. rewrite length_firstn in Hsome. lia. }
    rewrite nth_error_firstn in Hi.
    destruct (Nat.ltb_spec i (Z.to_nat (e + 1 - s))); [| lia].
    rewrite nth_error_skipn in Hi.
    split; [lia |]. replace (Z.to_nat (s + Z.of_nat i)) with (Z.to_nat s + i)%nat by lia.
    exact Hi.
  - intros [Hidx Hnth]. exists (Z.to_nat (idx - s)). split; [| lia].
    rewrite nth_error_firstn.
    destruct (Nat.ltb_spec (Z.to_nat (idx - s)) (Z.to_nat (e + 1 - s))); [| lia].
    rewrite nth_error_skipn.
    replace (Z.to_nat s + Z.to_nat (idx - s))%nat with (Z.to_nat idx) by lia.
    exact Hnth.
Qed.

(** X12: for a positive item height, a viewport that does not end above the
    list ([scrollTop + containerHeight >= 0]) and an overscan that is not
    negative, the rows [useVirtualization] materializes are exactly the
    items whose index lies in the visible range, each paired with its own
    index in the list; so no index is out of range, and there are
    [end - start + 1] rows (none when the range is empty). *)
Theorem visible_rows {T : Type} (items : list T) (options : Virtualization.Options)
    (scrollTop : Q) :
  (0 < Virtualization.itemHeight options)%Q ->
  (0 <= scrollTop + Virtualization.containerHeight options)%Q ->
  0 <= Virtualization.overscanOrDefault options ->
  let r := Virtualization.visibleRange items options scrollTop in
  let rows := Virtualization.visibleItems items options scrollTop in
  (forall item idx,
      In (item, idx) rows
      <-> Virtualization.start r <= idx <= Virtualization.end_ r
          /\ nth_error items (Z.to_nat idx) = Some item)
  /\ (forall item idx, In (item, idx) rows -> 0 <= idx < Z.of_nat (length items))
  /\ length rows = Z.to_nat (Virtualization.end_ r + 1 - Virtualization.start r).
Proof.
  intros Hh Hc Ho r rows.
  destruct (visibleRange_clamps items options scrollTop Hh Hc Ho) as [Hs He].
  fold r in Hs, He.
  split; [intros item idx; apply visibleItems_In; assumption |].
  split.
  - intros item idx Hin. apply visibleItems_In in Hin; try assumption.
    fold r in Hin. destruct Hin as [Hidx Hnth]. split; lia.
  - unfold rows, Virtualization.visibleItems. fold r.
    rewrite length_combine, length_map, length_seq, Nat.min_id.
    rewrite slice_in_range by lia. rewrite length_firstn, length_skipn. lia.
Qed.

Lemma visible_rows_witness :
  let items := ["a"; "b"; "c"; "d"; "e"; "f"; "g"; "h"]%string in
  let options := {| Virtualization.itemHeight := 10;
                    Virtualization.containerHeight := 20;
                    Virtualization.overscan := Some 1 |} in
  Virtualization.visibleItems items options 30
  = [("c", 2); ("d", 3); ("e", 4); ("f", 5); ("g", 6)]%string
  /\ length (Virtualization.visibleItems items options 30) = 5%nat.
Proof.
  cbv zeta. split; [reflexivity |].
  pose proof (visible_rows ["a"; "b"; "c"; "d"; "e"; "f"; "g"; "h"]%string
                {| Virtualization.itemHeight := 10;
                   Virtualization.containerHeight := 20;
                   Virtualization.overscan := Some 1 |} 30
                eq_refl ltac:(discriminate) ltac:(discriminate)) as H.
  cbv zeta in H. destruct H as (_ & _ & H). rewrite H. reflexivity.
Defined.

(** X13: for a positive item height and an overscan that is not negative,
    the visible range misses no row of the viewport: every row [i] of the
    list whose extent [i * itemHeight, (i + 1) * itemHeight) meets the
    viewport [scrollTop, scrollTop + containerHeight) has
    [start <= i <= end]. *)
Theorem visible_range_covers_viewport {T : Type} (items : list T)
    (options : Virtualization.Options) (scrollTop : Q) (i : Z) :
  (0 < Virtualization.itemHeight options)%Q ->
  0 <= Virtualization.overscanOrDefault options ->
  0 <= i < Z.of_nat (length items) ->
  (inject_Z i * Virtualization.itemHeight options
   < scrollTop + Virtualization.containerHeight options)%Q ->
  (scrollTop < inject_Z (i + 1) * Virtualization.itemHeight options)%Q ->
  let r := Virtualization.visibleRange items options scrollTop in
  Virtualization.start r <= i <= Virtualization.end_ r.
Proof.
  intros Hh Ho Hi Hbot Htop r. unfold r, Virtualization.visibleRange.
  cbn [Virtualization.start Virtualization.end_]. unfold JS.Math_floor, JS.Math_ceil.
  set (h := Virtualization.itemHeight options) in *.
  assert (Hfloor : Qfloor (scrollTop / h) <= i).
  { assert (H : (inject_Z (Qfloor (scrollTop / h)) < inject_Z (i + 1))%Q).
    { eapply Qle_lt_trans; [apply Qfloor_le |].
      apply Qlt_shift_div_r; [exact Hh | exact Htop]. }
    rewrite <- Zlt_Qlt in H. lia. }
  assert (Hceil : i < Qceiling ((scrollTop + Virtualization.containerHeight options) / h)).
  { rewrite Zlt_Qlt. eapply Qlt_le_trans; [| apply Qle_ceiling].
    apply Qlt_shift_div_l; [exact Hh | exact Hbot]. }
  lia.
Qed.

Lemma visible_range_covers_viewport_witness :
  let items := repeat tt 100 in
  let options := {| Virtualization.itemHeight := 40;
                    Virtualization.containerHeight := 400;
                    Virtualization.overscan := None |} in
  let r := Virtualization.visibleRange items options 1990 in
  Virtualization.start r <= 49 <= Virtualization.end_ r
  /\ Virtualization.start r <= 59 <= Virtualization.end_ r.
Proof.
  cbv zeta. split.
  - apply (visible_range_covers_viewport (repeat tt 100)
             {| Virtualization.itemHeight := 40;
                Virtualization.containerHeight := 400;
                Virtualization.overscan := None |} 1990 49);
      [reflexivity | discriminate | split; [discriminate | reflexivity]
      | reflexivity | reflexivity].
  - apply (visible_range_covers_viewport (repeat tt 100)
             {| Virtualization.itemHeight := 40;
                Virtualization.containerHeight := 400;
                Virtualization.overscan := None |} 1990 59);
      [reflexivity | discriminate | split; [discriminate | reflexivity]
      | reflexivity | reflexivity].
Defined.

(** X14: on a mounted container, for a positive item height, a container
    height and an overscan that are not negative, [scrollToItem(index)] with
    an index of the list sets the hook's scroll offset to
    [index * itemHeight] and the item at that index is then among the
    materialized rows; so [scrollToTop] shows the first item and
    [scrollToBottom] the last one.  On an unmounted container the offset
    stays as it is. *)
Theorem scrollToItem_shows_item {T : Type} (items : list T)
    (options : Virtualization.Options) (scrollTop : Q) (index : Z) (item : T) :
  (0 < Virtualization.itemHeight options)%Q ->
  (0 <= Virtualization.containerHeight options)%Q ->
  0 <= Virtualization.overscanOrDefault options ->
  nth_error items (Z.to_nat index) = Some item -> 0 <= index ->
  let scrollTop' := scrollToItem options true index scrollTop in
  (scrollTop' == inject_Z index * Virtualization.itemHeight options)%Q
  /\ In (item, index) (Virtualization.visibleItems items options scrollTop')
  /\ (index = 0 ->
      In (item, 0) (Virtualization.visibleItems items options
                      (scrollToTop options true scrollTop)))
  /\ (index = Z.of_nat (length items) - 1 ->
      In (item, index) (Virtualization.visibleItems items options
                          (scrollToBottom items options true scrollTop)))
  /\ scrollToItem options false index scrollTop = scrollTop.
Proof.
  intros Hh Hc Ho Hnth Hidx scrollTop'.
  assert (Hshown : In (item, index) (Virtualization.visibleItems items options scrollTop'));
    [| split; [reflexivity |]; split; [exact Hshown |]; split; [| split];
       [intros E; subst index; exact Hshown
       | intros E; unfold scrollToBottom; rewrite <- E; exact Hshown
       | reflexivity]].
  assert (Hs : scrollTop' = (inject_Z index * Virtualization.itemHeight options)%Q)
    by reflexivity.
  set (h := Virtualization.itemHeight options) in *.
  assert (Hi0 : (0 <= inject_Z index)%Q) by (rewrite <- (Zle_Qle 0); exact Hidx).
  assert (Hlen : index < Z.of_nat (length items)).
  { assert (Hsome : nth_error items (Z.to_nat index) <> None) by congruence.
    apply nth_error_Some in Hsome. lia. }
  apply visibleItems_In; fold h.
  - exact Hh.
  - rewrite Hs. nra.
  - exact Ho.
  - split; [| exact Hnth].
    unfold Virtualization.visibleRange.
    cbn [Virtualization.start Virtualization.end_]. unfold JS.Math_floor, JS.Math_ceil.
    fold h. rewrite Hs.
    assert (Hfloor : Qfloor (inject_Z index * h / h) = index).
    { rewrite <- (Qfloor_Z index) at 2. apply Qfloor_comp. field. lra. }
    assert (Hceil : index <= Qceiling ((inject_Z index * h
                                        + Virtualization.containerHeight options) / h)).
    { rewrite <- (Qceiling_Z index) at 1. apply Qceiling_resp_le.
      apply Qle_shift_div_l; [exact Hh | lra]. }
    rewrite Hfloor. lia.
Qed.

Lemma scrollToItem_shows_item_witness :
  let items := ["a"; "b"; "c"; "d"; "e"; "f"; "g"; "h"]%string in
  let options := {| Virtualization.itemHeight := 10;
                    Virtualization.containerHeight := 20;
                    Virtualization.overscan := Some 1 |} in
  In ("g"%string, 6)
     (Virtualization.visibleItems items options (scrollToItem options true 6 0)).
Proof.
  cbv zeta.
  refine (proj1 (proj2
            (scrollToItem_shows_item ["a"; "b"; "c"; "d"; "e"; "f"; "g"; "h"]%string
               {| Virtualization.itemHeight := 10;
                  Virtualization.containerHeight := 20;
                  Virtualization.overscan := Some 1 |} 0 6 "g"%string _ _ _ _ _)));
    [reflexivity | discriminate | discriminate | reflexivity | discriminate].
Defined.

(** ** Sample source, continued *)

(** What [generatePoint] does to the generator and to the count of random
    draws, and the timestamp it gives the sample. *)
Lemma generatePoint_state (rnd : nat -> Q) (sin : Q -> Q) (category : option string)
    (offset : option Z) (g : DataGenerator.t) (n : nat) :
  let res := DataGenerator.generatePoint rnd sin category offset (g, n) in
  let g' := fst (snd res) in
  DataGenerator.baseTime g' = DataGenerator.baseTime g
  /\ DataGenerator.categories g' = DataGenerator.categories g
  /\ DataGenerator.valueRange g' = DataGenerator.valueRange g
  /\ (-2 <= DataGenerator.trend g')%Q /\ (DataGenerator.trend g' <= 2)%Q
  /\ timestamp (fst res)
     = DataGenerator.baseTime g + match offset with Some o => o | None => 0 end
  /\ snd (snd res)
     = match category with
       | Some c => if String.eqb c "" then (n + 5)%nat else (n + 4)%nat
       | None => (n + 5)%nat
       end.
Proof.
  assert (Hclamp : forall x, (-2 <= Qmax (-2) (Qmin 2 x))%Q /\ (Qmax (-2) (Qmin 2 x) <= 2)%Q).
  { intros x. split; [apply Q.le_max_l |].
    apply Q.max_lub; [discriminate | apply Q.le_min_l]. }
  unfold DataGenerator.generatePoint.
  destruct category as [c |]; [destruct (String.eqb c "") |]; cbn;
    (split; [reflexivity |]); (split; [reflexivity |]); (split; [reflexivity |]);
    (split; [apply Hclamp |]); (split; [apply Hclamp |]);
    (split; [reflexivity |]); f_equal; lia.
Qed.

Lemma generateBatch_loop_timestamps (rnd : nat -> Q) (sin : Q -> Q) (todo : nat) :
  forall (i start : Z) (g : DataGenerator.t) (n : nat),
    let res := DataGenerator.generateBatch_loop rnd sin todo i start (g, n) in
    map timestamp (fst res)
    = map (fun k => DataGenerator.baseTime g + (start + (i + Z.of_nat k) * 100))
          (seq 0 todo)
    /\ DataGenerator.baseTime (fst (snd res)) = DataGenerator.baseTime g
    /\ DataGenerator.valueRange (fst (snd res)) = DataGenerator.valueRange g
    /\ DataGenerator.categories (fst (snd res)) = DataGenerator.categories g
    /\ snd (snd res) = (n + 5 * todo)%nat.
Proof.
  induction todo as [| todo IH]; intros i start g n.
  - cbn. repeat split; lia.
  - cbn [DataGenerator.generateBatch_loop]. cbv zeta. unfold DataGenerator.bind.
    pose proof (generatePoint_state rnd sin None (Some (start + i * 100)) g n) as Hp.
    cbv zeta in Hp.
    destruct (DataGenerator.generatePoint rnd sin None (Some (start + i * 100)) (g, n))
      as [p [g' n']].
    cbn [fst snd] in Hp. destruct Hp as (Hb & Hc & Hr & _ & _ & Hts & Hn).
    specialize (IH (i + 1) start g' n'). cbv zeta in IH.
    destruct (DataGenerator.generateBatch_loop rnd sin todo (i + 1) start (g', n'))
      as [ps [g'' n'']].
    cbn [fst snd] in IH. destruct IH as (IHts & IHb & IHr & IHc & IHn).
    unfold DataGenerator.ret. cbn [fst snd map seq].
    split; [| split; [congruence | split; [congruence | split; [congruence | lia]]]].
    rewrite Hts, IHts, Hb. f_equal; [f_equal; lia |].
    rewrite <- seq_shift, map_map. apply map_ext. intros k. f_equal. lia.
Qed.

(** The timestamps of a batch. *)
Lemma generateBatch_timestamps_aux (rnd : nat -> Q) (sin : Q -> Q) (count : nat)
    (startTime : option Z) (g : DataGenerator.t) (n : nat) :
  let res := DataGenerator.generateBatch rnd sin count startTime (g, n) in
  let start := match startTime with
               | Some s => if s =? 0 then DataGenerator.baseTime g else s
               | None => DataGenerator.baseTime g
               end in
  map timestamp (fst res)
  = map (fun k => DataGenerator.baseTime g + start + 100 * Z.of_nat k) (seq 0 count)
  /\ DataGenerator.baseTime (fst (snd res)) = DataGenerator.baseTime g
  /\ DataGenerator.valueRange (fst (snd res)) = DataGenerator.valueRange g
  /\ DataGenerator.categories (fst (snd res)) = DataGenerator.categories g
  /\ snd (snd res) = (n + 5 * count)%nat.
Proof.
  intros res start.
  destruct (generateBatch_loop_timestamps rnd sin count 0 start g n)
    as (Hts & Hrest).
  split; [| exact Hrest].
  unfold res, DataGenerator.generateBatch, DataGenerator.bind.
  cbn [DataGenerator.this fst]. fold start. rewrite Hts.
  apply map_ext. intros k. lia.
Qed.

(** X15: [generateBatch(count, startTime)] returns [count] samples whose
    timestamps are 100 ms apart, the first being
    [baseTime + (startTime || baseTime)]: the start passed on as offset
    is added to the base time once more.  It leaves the generator's base
    time, value range and categories as they are and draws five random
    numbers per sample. *)
Theorem generateBatch_timestamps (rnd : nat -> Q) (sin : Q -> Q) (count : nat)
    (startTime : option Z) (g : DataGenerator.t) (n : nat) :
  let res := DataGenerator.generateBatch rnd sin count startTime (g, n) in
  let start := match startTime with
               | Some s => if s =? 0 then DataGenerator.baseTime g else s
               | None => DataGenerator.baseTime g
               end in
  map timestamp (fst res)
  = map (fun k => DataGenerator.baseTime g + start + 100 * Z.of_nat k) (seq 0 count)
  /\ DataGenerator.baseTime (fst (snd res)) = DataGenerator.baseTime g
  /\ DataGenerator.valueRange (fst (snd res)) = DataGenerator.valueRange g
  /\ DataGenerator.categories (fst (snd res)) = DataGenerator.categories g
  /\ snd (snd res) = (n + 5 * count)%nat.
Proof. apply generateBatch_timestamps_aux. Qed.

(** X16: whatever the random draws, [generatePoint] leaves the generator's
    base time, categories and value range as they are and its trend within
    [-2, 2]; the sample's timestamp is [baseTime + offset]; and it draws
    four random numbers when a non-empty category is given, five
    otherwise. *)
Theorem generatePoint_keeps_generator (rnd : nat -> Q) (sin : Q -> Q)
    (category : option string) (offset : option Z) (g : DataGenerator.t) (n : nat) :
  let res := DataGenerator.generatePoint rnd sin category offset (g, n) in
  let g' := fst (snd res) in
  DataGenerator.baseTime g' = DataGenerator.baseTime g
  /\ DataGenerator.categories g' = DataGenerator.categories g
  /\ DataGenerator.valueRange g' = DataGenerator.valueRange g
  /\ (-2 <= DataGenerator.trend g')%Q /\ (DataGenerator.trend g' <= 2)%Q
  /\ timestamp (fst res)
     = DataGenerator.baseTime g + match offset with Some o => o | None => 0 end
  /\ snd (snd res)
     = match category with
       | Some c => if String.eqb c "" then (n + 5)%nat else (n + 4)%nat
       | None => (n + 5)%nat
       end.
Proof. apply generatePoint_state. Qed.

(** X17: when no category (or the empty one) is asked for, the generator's
    category list is not empty and the first random draw lies in [0, 1),
    the sample's category is one of the generator's categories. *)
Theorem generatePoint_random_category (rnd : nat -> Q) (sin : Q -> Q)
    (asked : option string) (offset : option Z) (g : DataGenerator.t) (n : nat) :
  asked = None \/ asked = Some ""%string ->
  DataGenerator.categories g <> [] ->
  (0 <= rnd n)%Q -> (rnd n < 1)%Q ->
  In (category (fst (DataGenerator.generatePoint rnd sin asked offset (g, n))))
     (DataGenerator.categories g).
Proof.
  intros Hcat Hne H0 H1.
  assert (Hpick : category (fst (DataGenerator.generatePoint rnd sin asked offset (g, n)))
                  = nth (Z.to_nat (JS.Math_floor
                                     (rnd n * inject_Z (Z.of_nat (length (DataGenerator.categories g))))))
                        (DataGenerator.categories g) ""%string).
  { destruct Hcat as [-> | ->]; reflexivity. }
  rewrite Hpick. apply nth_In.
  set (len := length (DataGenerator.categories g)) in *.
  assert (Hlen : (0 < len)%nat).
  { unfold len. destruct (DataGenerator.categories g); [contradiction | cbn; lia]. }
  assert (HL : (0 < inject_Z (Z.of_nat len))%Q).
  { rewrite <- (Zlt_Qlt 0). lia. }
  unfold JS.Math_floor.
  assert (Hlt : Qfloor (rnd n * inject_Z (Z.of_nat len)) < Z.of_nat len).
  { rewrite Zlt_Qlt. eapply Qle_lt_trans; [apply Qfloor_le |]. nra. }
  assert (Hge : 0 <= Qfloor (rnd n * inject_Z (Z.of_nat len))).
  { change 0 with (Qfloor 0). apply Qfloor_resp_le. nra. }
  lia.
Qed.

Lemma generatePoint_random_category_witness :
  category (fst (DataGenerator.generatePoint (fun _ => (7 # 10)%Q) (fun _ => 0%Q) None None
                   (DataGenerator.new 1700000000000, 0%nat)))
  = "voltage"%string
  /\ In (category (fst (DataGenerator.generatePoint (fun _ => (7 # 10)%Q) (fun _ => 0%Q)
                          None None (DataGenerator.new 1700000000000, 0%nat))))
        (DataGenerator.categories (DataGenerator.new 1700000000000)).
Proof.
  split; [reflexivity |].
  apply (generatePoint_random_category (fun _ => (7 # 10)%Q) (fun _ => 0%Q) None None
           (DataGenerator.new 1700000000000) 0);
    [left; reflexivity | discriminate | discriminate | reflexivity].
Defined.

(** X18: after [setValueRange(lo, hi)] with [lo <= hi], every sample made by
    [generatePoint] has a value within half a hundredth of [lo, hi]: the
    value is clamped into the range and then rounded to hundredths. *)
Theorem generatePoint_value_in_range (rnd : nat -> Q) (sin : Q -> Q)
    (asked : option string) (offset : option Z) (g : DataGenerator.t) (n : nat)
    (lo hi : Q) :
  (lo <= hi)%Q ->
  let p := fst (DataGenerator.generatePoint rnd sin asked offset
                  (DataGenerator.setValueRange lo hi g, n)) in
  (lo - (1 # 200) < value p)%Q /\ (value p <= hi + (1 # 200))%Q.
Proof.
  intros Hle p.
  destruct (generatePoint_value rnd sin asked offset
              (DataGenerator.setValueRange lo hi g) n) as (_ & x & Hx).
  fold p in Hx. rewrite Hx. cbn [DataGenerator.setValueRange DataGenerator.valueRange fst snd].
  destruct (round_hundredths_close (Qmax lo (Qmin hi x))) as [H1 H2].
  assert (Hc1 : (lo <= Qmax lo (Qmin hi x))%Q) by apply Q.le_max_l.
  assert (Hc2 : (Qmax lo (Qmin hi x) <= hi)%Q).
  { apply Q.max_lub; [exact Hle | apply Q.le_min_l]. }
  split; lra.
Qed.

Lemma generatePoint_value_in_range_witness :
  let p := fst (DataGenerator.generatePoint (fun _ => (9 # 10)%Q) (fun _ => 1%Q) None (Some 300)
                  (DataGenerator.setValueRange (1 # 3) (2 # 3)
                     (DataGenerator.new 1700000000000), 0%nat)) in
  ((1 # 3) - (1 # 200) < value p)%Q /\ (value p <= (2 # 3) + (1 # 200))%Q.
Proof.
  exact (generatePoint_value_in_range (fun _ => (9 # 10)%Q) (fun _ => 1%Q) None (Some 300)
           (DataGenerator.new 1700000000000) 0 (1 # 3) (2 # 3) ltac:(discriminate)).
Defined.

(** ** The stream hook, continued *)

Lemma lastn_snoc {A} (n : nat) (l : list A) (x : A) :
  (1 <= n)%nat -> exists front, lastn n (l ++ [x]) = front ++ [x].
Proof.
  intros Hn. unfold lastn. rewrite length_app, skipn_app. cbn [length].
  exists (skipn (length l + 1 - n) l).
  replace (length l + 1 - n - length l)%nat with 0%nat by lia. reflexivity.
Qed.

(** One firing of the interval. *)
Lemma onInterval_fields (rnd : nat -> Q) (sin : Q -> Q) (now : Z) (s : DataStream.Stream) :
  let s' := DataStream.onInterval rnd sin now s in
  DataStream.opt_maxDataPoints s' = DataStream.opt_maxDataPoints s
  /\ DataStream.opt_initialCount s' = DataStream.opt_initialCount s
  /\ DataStream.isStreaming s' = DataStream.isStreaming s
  /\ DataGenerator.baseTime (DataStream.generatorRef s')
     = DataGenerator.baseTime (DataStream.generatorRef s)
  /\ DataStream.lastTimestampRef s'
     = DataGenerator.baseTime (DataStream.generatorRef s)
       + ((if DataStream.lastTimestampRef s =? 0 then now
           else DataStream.lastTimestampRef s) + 100)
  /\ exists p,
       timestamp p = DataStream.lastTimestampRef s'
       /\ DataStream.data s'
          = DataStream.appendPoint (DataStream.opt_maxDataPoints s) (DataStream.data s) p.
Proof.
  unfold DataStream.onInterval, DataStream.withGenerator, DataGenerator.generateNext.
  pose proof (generatePoint_state rnd sin None
                (Some ((if DataStream.lastTimestampRef s =? 0 then now
                        else DataStream.lastTimestampRef s) + 100))
                (DataStream.generatorRef s) (DataStream.draws s)) as Hp.
  cbv zeta in Hp.
  destruct (DataGenerator.generatePoint rnd sin None _ _) as [p [g' n']].
  cbn [fst snd] in Hp. destruct Hp as (Hb & _ & _ & _ & _ & Hts & _).
  cbn. split; [reflexivity |]. split; [reflexivity |]. split; [reflexivity |].
  split; [exact Hb |]. split; [exact Hts |].
  exists p. split; reflexivity.
Qed.

(** X19: with a positive capacity, a positive timestamp cursor and a
    non-negative base time, [n >= 1] firings of the streaming interval
    advance the cursor [lastTimestampRef] by [n * (baseTime + 100)] (the
    generator adds its base time to every offset), as long as the cursor
    they reach is at most [Number.MAX_SAFE_INTEGER], where the additions
    are exact; they leave [min(length + n, maxDataPoints)] samples in the
    buffer, the newest last and stamped with the cursor, and change neither
    the options nor the streaming flag. *)
Theorem stream_after_ticks (rnd : nat -> Q) (sin : Q -> Q) (now : Z)
    (s : DataStream.Stream) (n : nat) :
  0 < DataStream.opt_maxDataPoints s ->
  0 < DataStream.lastTimestampRef s ->
  0 <= DataGenerator.baseTime (DataStream.generatorRef s) ->
  (Z.of_nat (length (DataStream.data s)) <= DataStream.opt_maxDataPoints s) ->
  (1 <= n)%nat ->
  DataStream.lastTimestampRef s
  + Z.of_nat n * (DataGenerator.baseTime (DataStream.generatorRef s) + 100)
  <= JS.MAX_SAFE_INTEGER ->
  let s' := Nat.iter n (DataStream.onInterval rnd sin now) s in
  DataStream.lastTimestampRef s'
  = DataStream.lastTimestampRef s
    + Z.of_nat n * (DataGenerator.baseTime (DataStream.generatorRef s) + 100)
  /\ Z.of_nat (length (DataStream.data s'))
     = Z.min (Z.of_nat (length (DataStream.data s)) + Z.of_nat n)
             (DataStream.opt_maxDataPoints s)
  /\ (exists front p, DataStream.data s' = front ++ [p]
                      /\ timestamp p = DataStream.lastTimestampRef s')
  /\ DataStream.opt_maxDataPoints s' = DataStream.opt_maxDataPoints s
  /\ DataStream.isStreaming s' = DataStream.isStreaming s.
Proof.
  intros Hmax Hlast Hbase Hlen Hn Hsafe s'.
  assert (G : forall k,
             let sk := Nat.iter k (DataStream.onInterval rnd sin now) s in
             DataStream.lastTimestampRef sk
             = DataStream.lastTimestampRef s
               + Z.of_nat k * (DataGenerator.baseTime (DataStream.generatorRef s) + 100)
             /\ Z.of_nat (length (DataStream.data sk))
                = Z.min (Z.of_nat (length (DataStream.data s)) + Z.of_nat k)
                        (DataStream.opt_maxDataPoints s)
             /\ DataStream.opt_maxDataPoints sk = DataStream.opt_maxDataPoints s
             /\ DataStream.isStreaming sk = DataStream.isStreaming s
             /\ DataGenerator.baseTime (DataStream.generatorRef sk)
                = DataGenerator.baseTime (DataStream.generatorRef s)
             /\ ((1 <= k)%nat ->
                 exists front p, DataStream.data sk = front ++ [p]
                                 /\ timestamp p = DataStream.lastTimestampRef sk)).
  { induction k as [| k IH]; cbv zeta.
    - unfold Nat.iter; cbn [nat_rect]. split; [lia |]. split; [lia |]. split; [reflexivity |].
      split; [reflexivity |]. split; [reflexivity |]. intros H. lia.
    - cbv zeta in IH. rewrite Nat.iter_succ.
      set (sk := Nat.iter k (DataStream.onInterval rnd sin now) s) in *.
      destruct IH as (IHl & IHn & IHm & IHs & IHb & _).
      destruct (onInterval_fields rnd sin now sk) as (Hm & _ & Hs & Hb & Hl & p & Hp & Hd).
      assert (Hnz : (DataStream.lastTimestampRef sk =? 0) = false).
      { apply Z.eqb_neq. nia. }
      rewrite Hnz in Hl.
      assert (Hdata : DataStream.data (DataStream.onInterval rnd sin now sk)
                      = lastn (Z.to_nat (DataStream.opt_maxDataPoints s))
                              (DataStream.data sk ++ [p])).
      { rewrite Hd, IHm. apply appendPoint_lastn. exact Hmax. }
      split; [rewrite Hl, IHl, IHb; lia |].
      split; [rewrite Hdata, lastn_length, length_app; cbn [length]; lia |].
      split; [congruence |]. split; [congruence |]. split; [congruence |].
      intros _. destruct (lastn_snoc (Z.to_nat (DataStream.opt_maxDataPoints s))
                            (DataStream.data sk) p ltac:(lia)) as [front Hfront].
      exists front, p. split; [rewrite Hdata; exact Hfront | exact Hp]. }
  destruct (G n) as (H1 & H2 & H3 & H4 & _ & H5).
  fold s' in H1, H2, H3, H4, H5.
  split; [exact H1 | split; [exact H2 | split; [apply H5, Hn | split; assumption]]].
Qed.

Lemma stream_after_ticks_witness :
  let s := {| DataStream.opt_updateInterval := 100;
              DataStream.opt_maxDataPoints := 2;
              DataStream.opt_initialCount := 0%nat;
              DataStream.data := [];
              DataStream.isStreaming := true;
              DataStream.generatorRef := DataGenerator.new 5;
              DataStream.lastTimestampRef := 7;
              DataStream.draws := 0%nat |} in
  let s' := Nat.iter 3 (DataStream.onInterval (fun _ => (1 # 2)%Q) (fun _ => 0%Q) 0) s in
  DataStream.lastTimestampRef s' = 322
  /\ Z.of_nat (length (DataStream.data s')) = 2.
Proof.
  cbv zeta.
  pose proof (stream_after_ticks (fun _ => (1 # 2)%Q) (fun _ => 0%Q) 0
    {| DataStream.opt_updateInterval := 100;
       DataStream.opt_maxDataPoints := 2;
       DataStream.opt_initialCount := 0%nat;
       DataStream.data := [];
       DataStream.isStreaming := true;
       DataStream.generatorRef := DataGenerator.new 5;
       DataStream.lastTimestampRef := 7;
       DataStream.draws := 0%nat |} 3
    eq_refl eq_refl ltac:(discriminate) ltac:(discriminate) ltac:(lia)
    ltac:(vm_compute; discriminate)) as H.
  cbv zeta in H. destruct H as (H1 & H2 & _).
  split; [rewrite H1 | rewrite H2]; reflexivity.
Defined.

Lemma lastTimestamp_nth (l : list DataPoint) :
  DataStream.lastTimestamp l = nth_error (map timestamp l) (length l - 1).
Proof.
  unfold DataStream.lastTimestamp.
  induction l as [| p l IH]; [reflexivity |].
  destruct l as [| q l]; [reflexivity |].
  cbn [map last length] in *. rewrite IH.
  replace (S (S (length l)) - 1)%nat with (S (length l - 0)) by lia.
  cbn [nth_error]. replace (length l - 0)%nat with (S (length l) - 1)%nat by lia.
  reflexivity.
Qed.

(** What a fresh batch does to the stream. *)
Lemma refill_fields (rnd : nat -> Q) (sin : Q -> Q) (s : DataStream.Stream) :
  let res := DataStream.withGenerator
               (DataGenerator.generateBatch rnd sin (DataStream.opt_initialCount s) None) s in
  let base := DataGenerator.baseTime (DataStream.generatorRef s) in
  map timestamp (fst res)
  = map (fun k => 2 * base + 100 * Z.of_nat k) (seq 0 (DataStream.opt_initialCount s))
  /\ DataStream.opt_maxDataPoints (snd res) = DataStream.opt_maxDataPoints s
  /\ DataStream.opt_initialCount (snd res) = DataStream.opt_initialCount s
  /\ DataStream.isStreaming (snd res) = DataStream.isStreaming s
  /\ DataStream.lastTimestampRef (snd res) = DataStream.lastTimestampRef s
  /\ DataGenerator.baseTime (DataStream.generatorRef (snd res)) = base.
Proof.
  unfold DataStream.withGenerator.
  pose proof (generateBatch_timestamps_aux rnd sin (DataStream.opt_initialCount s) None
                (DataStream.generatorRef s) (DataStream.draws s)) as H.
  cbv zeta in H.
  destruct (DataGenerator.generateBatch rnd sin _ None _) as [ps [g' n']].
  cbn [fst snd] in *. destruct H as (Hts & Hb & _).
  split; [| repeat split; assumption].
  rewrite Hts. apply map_ext. intros k. lia.
Qed.

(** X20: [resetData] stops the stream and replaces the buffer by a fresh
    batch of [initialCount] samples, whatever [maxDataPoints] is (the batch
    is not trimmed); their timestamps are [2 * now + 100 * k] for
    [k = 0 .. initialCount - 1], [now] being the reset generator's base
    time; and the timestamp cursor moves to the last of them (it is left
    alone when [initialCount] is 0).  The "Initialize data" effect does the
    same with the generator's base time and leaves the streaming flag. *)
Theorem resetData_refills (rnd : nat -> Q) (sin : Q -> Q) (now : Z)
    (s : DataStream.Stream) :
  let count := DataStream.opt_initialCount s in
  let stamps := fun base => map (fun k => 2 * base + 100 * Z.of_nat k) (seq 0 count) in
  let cursor := fun base =>
    match count with
    | O => DataStream.lastTimestampRef s
    | S c => 2 * base + 100 * Z.of_nat c
    end in
  (let s' := DataStream.resetData rnd sin now s in
   DataStream.isStreaming s' = false
   /\ map timestamp (DataStream.data s') = stamps now
   /\ length (DataStream.data s') = count
   /\ DataStream.lastTimestampRef s' = cursor now
   /\ DataStream.opt_maxDataPoints s' = DataStream.opt_maxDataPoints s)
  /\ (let s' := DataStream.initialize rnd sin s in
      let base := DataGenerator.baseTime (DataStream.generatorRef s) in
      DataStream.isStreaming s' = DataStream.isStreaming s
      /\ map timestamp (DataStream.data s') = stamps base
      /\ length (DataStream.data s') = count
      /\ DataStream.lastTimestampRef s' = cursor base
      /\ DataStream.opt_maxDataPoints s' = DataStream.opt_maxDataPoints s).
Proof.
  intros count stamps cursor.
  assert (G : forall s0 : DataStream.Stream,
             DataStream.opt_initialCount s0 = count ->
             DataStream.lastTimestampRef s0 = DataStream.lastTimestampRef s ->
             let res := DataStream.withGenerator
                          (DataGenerator.generateBatch rnd sin
                             (DataStream.opt_initialCount s0) None) s0 in
             let s1 := DataStream.setData (fst res) (snd res) in
             let s' := match DataStream.lastTimestamp (fst res) with
                       | Some ts => DataStream.setLastTimestamp ts s1
                       | None => s1
                       end in
             let base := DataGenerator.baseTime (DataStream.generatorRef s0) in
             DataStream.isStreaming s' = DataStream.isStreaming s0
             /\ map timestamp (DataStream.data s') = stamps base
             /\ length (DataStream.data s') = count
             /\ DataStream.lastTimestampRef s' = cursor base
             /\ DataStream.opt_maxDataPoints s' = DataStream.opt_maxDataPoints s0).
  { intros s0 Hc Hl. cbv zeta.
    destruct (refill_fields rnd sin s0) as (Hts & Hm & _ & Hs & Hlast & _).
    destruct (DataStream.withGenerator _ s0) as [ps s1]. cbn [fst snd] in *.
    rewrite Hc in Hts.
    assert (Hlen : length ps = count).
    { rewrite <- (length_map timestamp), Hts, length_map, length_seq. reflexivity. }
    assert (Hcur : DataStream.lastTimestamp ps
                   = match count with
                     | O => None
                     | S c => Some (2 * DataGenerator.baseTime (DataStream.generatorRef s0)
                                    + 100 * Z.of_nat c)
                     end).
    { rewrite lastTimestamp_nth, Hts, Hlen. destruct count as [| c]; [reflexivity |].
      replace (S c - 1)%nat with c by lia.
      rewrite nth_error_map, nth_error_seq.
      destruct (Nat.ltb_spec c (S c)); [reflexivity | lia]. }
    rewrite Hcur. unfold cursor, stamps.
    destruct count as [| c]; cbn; repeat split; try assumption; congruence. }
  split.
  - unfold DataStream.resetData.
    specialize (G (DataStream.resetGenerator now (DataStream.stopStreaming s))
                  eq_refl eq_refl).
    cbv zeta in G. cbn [DataStream.resetGenerator DataStream.stopStreaming
                        DataStream.setIsStreaming DataStream.isStreaming
                        DataStream.generatorRef DataStream.opt_maxDataPoints
                        DataGenerator.reset DataGenerator.baseTime] in G.
    destruct (DataStream.withGenerator _ _) as [ps s1]. exact G.
  - unfold DataStream.initialize. specialize (G s eq_refl eq_refl). cbv zeta in G.
    destruct (DataStream.withGenerator _ _) as [ps s1]. exact G.
Qed.

(** *** Stream statistics *)

Lemma Set_add_In (s : list string) (x c : string) :
  In c (Set_add s x) <-> In c s \/ c = x.
Proof.
  unfold Set_add. destruct (existsb (String.eqb x) s) eqn:E.
  - split; [tauto |]. intros [H | ->]; [exact H |].
    apply existsb_exists in E. destruct E as (y & Hy & Exy).
    apply String.eqb_eq in Exy. subst. exact Hy.
  - rewrite in_app_iff. cbn. split; intros [H | H]; auto.
    + destruct H as [<- | []]. auto.
Qed.

Lemma Set_add_NoDup (s : list string) (x : string) :
  NoDup s -> NoDup (Set_add s x).
Proof.
  intros Hnd. unfold Set_add. destruct (existsb (String.eqb x) s) eqn:E; [exact Hnd |].
  apply NoDup_app; [exact Hnd | constructor; [intros [] | constructor] |].
  intros y Hy [Exy | []]. subst y.
  assert (H : existsb (String.eqb x) s = true).
  { apply existsb_exists. exists x. split; [exact Hy | apply String.eqb_refl]. }
  congruence.
Qed.

Lemma Set_fold (xs : list string) :
  forall s, NoDup s ->
    NoDup (fold_left Set_add xs s)
    /\ forall c, In c (fold_left Set_add xs s) <-> In c s \/ In c xs.
Proof.
  induction xs as [| x xs IH]; intros s Hnd; cbn [fold_left].
  - split; [exact Hnd |]. intros c. cbn. tauto.
  - destruct (IH (Set_add s x) (Set_add_NoDup s x Hnd)) as [H1 H2].
    split; [exact H1 |]. intros c. rewrite H2, Set_add_In. cbn. split.
    + intros [[H | ->] | H]; auto.
    + intros [H | [<- | H]]; auto.
Qed.

(** X21: the [stats] of the stream hook: [count] is the number of samples;
    [min] and [max] are values of samples of the buffer and every value
    lies between them; [categories] lists each category that occurs in
    the data exactly once.  On the empty buffer [count], [min], [max] and
    [avg] are 0 and the list is empty. *)
Theorem stream_stats (data : list DataPoint) :
  let st := StreamStats.stats data in
  StreamStats.count st = length data
  /\ (forall p, In p data ->
        (StreamStats.min st <= value p)%Q /\ (value p <= StreamStats.max st)%Q)
  /\ (data <> [] ->
      (exists p, In p data /\ StreamStats.min st = value p)
      /\ (exists p, In p data /\ StreamStats.max st = value p))
  /\ (data = [] ->
      StreamStats.count st = 0%nat
      /\ StreamStats.min st = 0%Q /\ StreamStats.max st = 0%Q
      /\ StreamStats.avg st = 0%Q /\ StreamStats.categories st = [])
  /\ NoDup (StreamStats.categories st)
  /\ (forall c, In c (StreamStats.categories st)
                <-> exists p, In p data /\ category p = c).
Proof.
  destruct data as [| d ds]; cbv zeta.
  - cbn. split; [reflexivity |]. split; [intros p [] |].
    split; [intros H; contradiction |].
    split; [intros _; repeat split; reflexivity |].
    split; [constructor |]. intros c. split; [intros [] | intros (p & [] & _)].
  - cbn [StreamStats.stats StreamStats.count StreamStats.min StreamStats.max
         StreamStats.avg StreamStats.categories].
    split; [reflexivity |].
    split; [intros p Hp; apply (extrema_enclose value d ds p Hp) |].
    split.
    { intros _. split.
      - pose proof (Math_min_in (map value ds) (value d)) as H.
        change (value d :: map value ds) with (map value (d :: ds)) in H.
        apply in_map_iff in H. destruct H as (p & Hv & Hp).
        exists p. split; [exact Hp | symmetry; exact Hv].
      - pose proof (Math_max_in (map value ds) (value d)) as H.
        change (value d :: map value ds) with (map value (d :: ds)) in H.
        apply in_map_iff in H. destruct H as (p & Hv & Hp).
        exists p. split; [exact Hp | symmetry; exact Hv]. }
    split; [discriminate |].
    destruct (Set_fold (map category (d :: ds)) [] (NoDup_nil _)) as [Hnd Hin].
    split; [exact Hnd |]. intros c. unfold Array_from_Set. rewrite Hin, in_map_iff.
    cbn [In]. split.
    + intros [[] | (p & Hc & Hp)]. exists p. split; assumption.
    + intros (p & Hp & Hc). right. exists p. split; assumption.
Qed.

(** ** Performance monitor *)

Lemma measureFrame_fields (now : Q) (m : PerformanceMonitor.t) :
  (length (PerformanceMonitor.frameTimes m) <= 60)%nat ->
  let m' := PerformanceMonitor.measureFrame now m in
  PerformanceMonitor.frameTimes m'
  = lastn 60 (PerformanceMonitor.frameTimes m
              ++ [(now - PerformanceMonitor.lastFrameTime m)%Q])
  /\ PerformanceMonitor.frameCount m' = PerformanceMonitor.frameCount m + 1
  /\ PerformanceMonitor.lastFrameTime m' = now
  /\ PerformanceMonitor.frameTimes m' <> [].
Proof.
  intros Hlen m'.
  assert (H : PerformanceMonitor.frameTimes m'
              = lastn 60 (PerformanceMonitor.frameTimes m
                          ++ [(now - PerformanceMonitor.lastFrameTime m)%Q])).
  { unfold m', PerformanceMonitor.measureFrame. cbn [PerformanceMonitor.frameTimes].
    set (l := PerformanceMonitor.frameTimes m ++ _).
    assert (Hl : length l = S (length (PerformanceMonitor.frameTimes m))).
    { unfold l. rewrite length_app. cbn. lia. }
    unfold PerformanceMonitor.maxFrameTimeHistory.
    destruct (Z.gtb_spec (Z.of_nat (length l)) 60) as [Hgt | Hle].
    - unfold lastn, PerformanceMonitor.shift.
      replace (length l - 60)%nat with 1%nat by lia.
      destruct l; reflexivity.
    - symmetry. apply lastn_all. lia. }
  split; [exact H |]. split; [reflexivity |]. split; [reflexivity |].
  rewrite H. intros E. apply (f_equal (@length Q)) in E.
  rewrite lastn_length, length_app in E. cbn [length] in E. lia.
Qed.

Lemma last_cons_default {A} (l : list A) :
  forall x d, last (x :: l) d = last l x.
Proof.
  induction l as [| y l IH]; intros x d; [reflexivity |].
  change (last (x :: y :: l) d) with (last (y :: l) d).
  rewrite (IH y d), (IH y x). reflexivity.
Qed.

(** X22: the monitor keeps a rolling window of frame times: from a window of
    at most 60 entries, after frames measured at the times [nows] the
    window holds the last 60 of the old entries followed by the successive
    differences of the times, it has at most 60 entries, and the frame
    counter has grown by the number of frames. *)
Theorem monitor_rolling_window (nows : list Q) (m : PerformanceMonitor.t) :
  (length (PerformanceMonitor.frameTimes m) <= 60)%nat ->
  let m' := fold_left (fun m now => PerformanceMonitor.measureFrame now m) nows m in
  PerformanceMonitor.frameTimes m'
  = lastn 60 (PerformanceMonitor.frameTimes m
              ++ frameDeltas (PerformanceMonitor.lastFrameTime m) nows)
  /\ (length (PerformanceMonitor.frameTimes m') <= 60)%nat
  /\ PerformanceMonitor.frameCount m'
     = PerformanceMonitor.frameCount m + Z.of_nat (length nows)
  /\ PerformanceMonitor.lastFrameTime m'
     = last nows (PerformanceMonitor.lastFrameTime m).
Proof.
  revert m. induction nows as [| now nows IH]; intros m Hlen; cbv zeta.
  - cbn [fold_left frameDeltas length last]. rewrite app_nil_r.
    split; [symmetry; apply lastn_all; exact Hlen |].
    split; [exact Hlen |]. split; [lia | reflexivity].
  - cbn [fold_left frameDeltas].
    destruct (measureFrame_fields now m Hlen) as (Hw & Hc & Hl & _).
    assert (Hlen' : (length (PerformanceMonitor.frameTimes
                               (PerformanceMonitor.measureFrame now m)) <= 60)%nat).
    { rewrite Hw, lastn_length. lia. }
    destruct (IH _ Hlen') as (IHw & IHlen & IHc & IHl).
    split; [| split; [exact IHlen | split]].
    + rewrite IHw, Hw, Hl, lastn_app_lastn, <- app_assoc. reflexivity.
    + rewrite IHc, Hc. cbn [length]. lia.
    + rewrite IHl, Hl. symmetry. apply last_cons_default.
Qed.

Lemma monitor_rolling_window_witness :
  let m := fold_left (fun m now => PerformanceMonitor.measureFrame now m)
                     [16; 33; 50]%Q (PerformanceMonitor.new 0) in
  PerformanceMonitor.frameTimes m = lastn 60 ([] ++ frameDeltas 0 [16; 33; 50]%Q)
  /\ PerformanceMonitor.frameCount m = 3.
Proof.
  cbv zeta.
  pose proof (monitor_rolling_window [16; 33; 50]%Q (PerformanceMonitor.new 0)
                ltac:(cbn; lia)) as H.
  cbv zeta in H. destruct H as (H1 & _ & H2 & _).
  split; [exact H1 | exact H2].
Defined.

Lemma thousand_over_monotone (a b : Q) :
  (0 < a)%Q -> (a <= b)%Q -> (1000 / b <= 1000 / a)%Q.
Proof.
  intros Ha Hab. assert (Hb : (0 < b)%Q) by lra.
  apply Qle_shift_div_l; [exact Ha |].
  assert (Hf : (a / b <= 1)%Q) by (apply Qle_shift_div_r; [exact Hb | lra]).
  setoid_replace (1000 / b * a)%Q with (1000 * (a / b))%Q by (field; lra).
  lra.
Qed.

(** X23: after [measureFrame], when every frame time in the window lies in
    [lo, hi] with [lo > 0], the frame rate lies between
    [round(1000 / hi)] and [round(1000 / lo)]; with a constant frame time
    [d] it is [round(1000 / d)]. *)
Theorem monitor_fps_bounds (now : Q) (m : PerformanceMonitor.t) (lo hi : Q) :
  (length (PerformanceMonitor.frameTimes m) <= 60)%nat ->
  (0 < lo)%Q ->
  (forall d, In d (PerformanceMonitor.frameTimes (PerformanceMonitor.measureFrame now m)) ->
             (lo <= d)%Q /\ (d <= hi)%Q) ->
  JS.Math_round (1000 / hi)
  <= PerformanceMonitor.fps (PerformanceMonitor.measureFrame now m)
  <= JS.Math_round (1000 / lo).
Proof.
  intros Hlen Hlo Hall.
  destruct (measureFrame_fields now m Hlen) as (_ & _ & _ & Hne).
  set (w := PerformanceMonitor.frameTimes (PerformanceMonitor.measureFrame now m)) in *.
  assert (Hfps : PerformanceMonitor.fps (PerformanceMonitor.measureFrame now m)
                 = JS.Math_round (1000 / (JS.sum w / inject_Z (Z.of_nat (length w))))).
  { reflexivity. }
  rewrite Hfps.
  destruct (mean_bounds lo hi w Hne Hall) as [H1 H2].
  rewrite <- sum_div_mean in H1, H2.
  set (avg := (JS.sum w / inject_Z (Z.of_nat (length w)))%Q) in *. clearbody avg.
  pose proof (thousand_over_monotone lo avg Hlo H1) as Hup.
  pose proof (thousand_over_monotone avg hi ltac:(lra) H2) as Hdown.
  unfold JS.Math_round. split; apply Qfloor_resp_le; lra.
Qed.

Lemma monitor_fps_bounds_witness :
  PerformanceMonitor.fps
    (PerformanceMonitor.measureFrame 32
       (PerformanceMonitor.measureFrame 16 (PerformanceMonitor.new 0))) = 63.
Proof.
  apply Z.le_antisymm.
  - apply (monitor_fps_bounds 32 (PerformanceMonitor.measureFrame 16 (PerformanceMonitor.new 0))
             16 16); [cbn; lia | reflexivity |].
    intros d [<- | [<- | []]]; split; discriminate.
  - apply (monitor_fps_bounds 32 (PerformanceMonitor.measureFrame 16 (PerformanceMonitor.new 0))
             16 16); [cbn; lia | reflexivity |].
    intros d [<- | [<- | []]]; split; discriminate.
Defined.

(** X30: [getMetrics] reports the frame rate, the frame counter and the
    last frame time as they are; its render time is the mean of the window
    rounded to hundredths, so within half a hundredth of [lo, hi] when
    every frame time of a non-empty window lies in [lo, hi], and 0 on an
    empty window; without [performance.memory] the memory usage is 0.
    After [reset] the metrics show a frame counter and a render time of 0
    but still the frame rate measured before the reset. *)
Theorem metrics_after_reset (usedJSHeapSize : option Q) (now : Q)
    (m : PerformanceMonitor.t) (lo hi : Q) :
  (forall d, In d (PerformanceMonitor.frameTimes m) -> (lo <= d)%Q /\ (d <= hi)%Q) ->
  let r := PerformanceMonitor.getMetrics usedJSHeapSize m in
  let r0 := PerformanceMonitor.getMetrics usedJSHeapSize
              (PerformanceMonitor.reset now m) in
  pm_fps r = PerformanceMonitor.fps m
  /\ pm_frameCount r = PerformanceMonitor.frameCount m
  /\ pm_lastFrameTime r = PerformanceMonitor.lastFrameTime m
  /\ (PerformanceMonitor.frameTimes m <> [] ->
      (lo - (1 # 200) < pm_renderTime r)%Q /\ (pm_renderTime r <= hi + (1 # 200))%Q)
  /\ (PerformanceMonitor.frameTimes m = [] -> (pm_renderTime r == 0)%Q)
  /\ (usedJSHeapSize = None -> (pm_memoryUsage r == 0)%Q)
  /\ pm_fps r0 = PerformanceMonitor.fps m
  /\ pm_frameCount r0 = 0
  /\ (pm_renderTime r0 == 0)%Q
  /\ pm_lastFrameTime r0 = now.
Proof.
  intros Hall r r0.
  split; [reflexivity |]. split; [reflexivity |]. split; [reflexivity |].
  split.
  { intros Hne.
    destruct (mean_bounds lo hi _ Hne Hall) as [H1 H2].
    rewrite <- sum_div_mean in H1, H2.
    assert (Hr : pm_renderTime r
                 = (inject_Z (JS.Math_round
                      (JS.sum (PerformanceMonitor.frameTimes m)
                       / inject_Z (Z.of_nat (length (PerformanceMonitor.frameTimes m)))
                       * 100)) / 100)%Q).
    { unfold r, PerformanceMonitor.getMetrics. cbn [pm_renderTime].
      destruct (PerformanceMonitor.frameTimes m); [contradiction | reflexivity]. }
    rewrite Hr.
    set (avg := (JS.sum (PerformanceMonitor.frameTimes m)
                 / inject_Z (Z.of_nat (length (PerformanceMonitor.frameTimes m))))%Q) in *.
    destruct (round_hundredths_close avg) as [R1 R2].
    set (x := (inject_Z (JS.Math_round (avg * 100)) / 100)%Q) in *.
    clearbody x avg. split; lra. }
  split.
  { intros E. unfold r, PerformanceMonitor.getMetrics. cbn [pm_renderTime].
    rewrite E. reflexivity. }
  split.
  { intros E. unfold r, PerformanceMonitor.getMetrics. cbn [pm_memoryUsage].
    rewrite E. reflexivity. }
  split; [reflexivity |]. split; [reflexivity |]. split; [reflexivity |].
  reflexivity.
Qed.

Lemma metrics_after_reset_witness :
  let m := PerformanceMonitor.measureFrame 32
             (PerformanceMonitor.measureFrame 16 (PerformanceMonitor.new 0)) in
  (pm_renderTime (PerformanceMonitor.getMetrics None m) <= 16 + (1 # 200))%Q
  /\ pm_fps (PerformanceMonitor.getMetrics None (PerformanceMonitor.reset 40 m))
     = PerformanceMonitor.fps m.
Proof.
  cbv zeta.
  destruct (metrics_after_reset None 40
              (PerformanceMonitor.measureFrame 32
                 (PerformanceMonitor.measureFrame 16 (PerformanceMonitor.new 0)))
              16 16) as (_ & _ & _ & Hr & _ & _ & Hf & _).
  - intros d [<- | [<- | []]]; split; discriminate.
  - split; [| exact Hf]. apply Hr. discriminate.
Defined.

(** ** Filter panel *)

(** X24: toggling a category in the filter panel flips whether that
    category is selected and nothing else: every other category stays
    selected or unselected as it was, the value bounds are passed on
    unchanged, a selection without duplicates stays without duplicates,
    and the filters handed on carry no time range. *)
Theorem toggle_flips_category (selected : list string) (lo hi : option Q) (c : string) :
  let filters := handleCategoryToggle selected lo hi c in
  (In c (categories filters) <-> ~ In c selected)
  /\ (forall d, d <> c -> (In d (categories filters) <-> In d selected))
  /\ (NoDup selected -> NoDup (categories filters))
  /\ minValue filters = lo /\ maxValue filters = hi /\ timeRange filters = None.
Proof.
  intros filters. unfold filters, handleCategoryToggle. cbn [categories minValue maxValue timeRange].
  destruct (includes selected c) eqn:E.
  - apply includes_In in E.
    split; [| split; [| split; [| repeat split]]].
    + rewrite filter_In, negb_true_iff. split.
      * intros [_ H]. rewrite String.eqb_refl in H. discriminate.
      * intros H. contradiction.
    + intros d Hd. rewrite filter_In, negb_true_iff. split; [tauto |].
      intros H. split; [exact H |]. apply String.eqb_neq. exact Hd.
    + intros Hnd. apply NoDup_filter. exact Hnd.
  - assert (Hnin : ~ In c selected).
    { intros H. apply includes_In in H. congruence. }
    split; [| split; [| split; [| repeat split]]].
    + rewrite in_app_iff. cbn. tauto.
    + intros d Hd. rewrite in_app_iff. cbn. split; [| tauto].
      intros [H | [H | []]]; [exact H | congruence].
    + intros Hnd. apply NoDup_app; [exact Hnd | constructor; [intros [] | constructor] |].
      intros y Hy [Ey | []]. subst y. contradiction.
Qed.

(** ** Data table *)

(** X25: the data table shows the samples newest first: its sorted copy is a
    permutation of the data in non-increasing timestamp order, and, for a
    viewport that does not end above the list, every row is an entry of
    that copy paired with its index there, so a row with a smaller index
    never has an older timestamp than a row with a larger one. *)
Theorem table_rows_newest_first (data : list DataPoint) (height : option Q)
    (scrollTop : Q) :
  (0 <= scrollTop + Virtualization.containerHeight (DataTable.options height))%Q ->
  Permutation (DataTable.sortedData data) data
  /\ StronglySorted (fun a b => timestamp b <= timestamp a) (DataTable.sortedData data)
  /\ (forall item idx,
        In (item, idx) (DataTable.rows data height scrollTop) ->
        nth_error (DataTable.sortedData data) (Z.to_nat idx) = Some item)
  /\ (forall a i b j,
        In (a, i) (DataTable.rows data height scrollTop) ->
        In (b, j) (DataTable.rows data height scrollTop) ->
        i < j -> timestamp b <= timestamp a).
Proof.
  intros Hc.
  assert (Hsorted : StronglySorted (fun a b => timestamp b <= timestamp a)
                                   (DataTable.sortedData data)).
  { pose proof (sort_sorted (fun p => - timestamp p) data) as H.
    unfold DataTable.sortedData. induction H as [| x l Hs IH Hall]; constructor.
    - exact IH.
    - eapply Forall_impl; [| exact Hall]. cbv beta. intros y Hy. lia. }
  assert (Hrows : forall item idx,
             In (item, idx) (DataTable.rows data height scrollTop) ->
             0 <= idx
             /\ nth_error (DataTable.sortedData data) (Z.to_nat idx) = Some item).
  { intros item idx Hin. unfold DataTable.rows in Hin.
    apply visibleItems_In in Hin; [| reflexivity | exact Hc | discriminate].
    destruct Hin as [Hidx Hnth]. split; [| exact Hnth].
    pose proof (visibleRange_clamps (DataTable.sortedData data) (DataTable.options height)
                  scrollTop eq_refl Hc ltac:(discriminate)) as Hcl.
    cbv zeta in Hcl. lia. }
  split; [apply sort_perm |]. split; [exact Hsorted |].
  split; [intros item idx Hin; apply (Hrows item idx Hin) |].
  intros a i b j Ha Hb Hij.
  destruct (Hrows a i Ha) as [Hi Hna]. destruct (Hrows b j Hb) as [Hj Hnb].
  assert (G : forall (l : list DataPoint) (m n : nat) (x y : DataPoint),
             StronglySorted (fun a b => timestamp b <= timestamp a) l ->
             (m < n)%nat -> nth_error l m = Some x -> nth_error l n = Some y ->
             timestamp y <= timestamp x).
  { clear. intros l m n x y Hs. revert m n.
    induction Hs as [| z l Hs IH Hall]; intros m n Hmn Hx Hy.
    - destruct m; discriminate.
    - destruct n as [| n]; [lia |]. cbn [nth_error] in Hy.
      destruct m as [| m].
      + cbn in Hx. injection Hx as <-. rewrite Forall_forall in Hall.
        apply Hall. eapply nth_error_In. exact Hy.
      + cbn [nth_error] in Hx. apply (IH m n); [lia | exact Hx | exact Hy]. }
  apply (G (DataTable.sortedData data) (Z.to_nat i) (Z.to_nat j) a b Hsorted);
    [lia | exact Hna | exact Hnb].
Qed.

Lemma table_rows_newest_first_witness :
  let s := fun t => {| timestamp := t; value := 1; category := "voltage"; metadata := None |} in
  map timestamp (DataTable.sortedData [s 3; s 9; s 1; s 5]) = [9; 5; 3; 1]
  /\ map snd (DataTable.rows [s 3; s 9; s 1; s 5] None 0) = [0; 1; 2; 3]
  /\ forall item idx,
       In (item, idx) (DataTable.rows [s 3; s 9; s 1; s 5] None 0) ->
       nth_error (DataTable.sortedData [s 3; s 9; s 1; s 5]) (Z.to_nat idx) = Some item.
Proof.
  cbv zeta. split; [reflexivity |]. split; [reflexivity |].
  exact (proj1 (proj2 (proj2 (table_rows_newest_first
    [ {| timestamp := 3; value := 1; category := "voltage"; metadata := None |};
      {| timestamp := 9; value := 1; category := "voltage"; metadata := None |};
      {| timestamp := 1; value := 1; category := "voltage"; metadata := None |};
      {| timestamp := 5; value := 1; category := "voltage"; metadata := None |} ]
    None 0 ltac:(discriminate))))).
Defined.

(** ** Adding samples by hand *)

Lemma addDataPoints_loop_timestamps (rnd : nat -> Q) (sin : Q -> Q) (todo : nat) :
  forall (lastTs : Z) (g : DataGenerator.t) (n : nat),
    let res := DataStream.addDataPoints_loop rnd sin todo lastTs (g, n) in
    map timestamp (fst res)
    = map (fun k => lastTs + (Z.of_nat k + 1) * (DataGenerator.baseTime g + 100))
          (seq 0 todo)
    /\ DataGenerator.baseTime (fst (snd res)) = DataGenerator.baseTime g.
Proof.
  induction todo as [| todo IH]; intros lastTs g n; cbv zeta.
  - split; reflexivity.
  - cbn [DataStream.addDataPoints_loop]. unfold DataGenerator.bind, DataGenerator.generateNext.
    pose proof (generatePoint_state rnd sin None (Some (lastTs + 100)) g n) as Hp.
    cbv zeta in Hp.
    destruct (DataGenerator.generatePoint rnd sin None (Some (lastTs + 100)) (g, n))
      as [p [g' n']].
    cbn [fst snd] in Hp. destruct Hp as (Hb & _ & _ & _ & _ & Hts & _).
    specialize (IH (timestamp p) g' n'). cbv zeta in IH.
    destruct (DataStream.addDataPoints_loop rnd sin todo (timestamp p) (g', n'))
      as [ps [g'' n'']].
    cbn [fst snd] in IH. destruct IH as (IHts & IHb).
    unfold DataGenerator.ret. cbn [fst snd map seq].
    split; [| congruence].
    rewrite IHts, Hb, Hts. f_equal; [lia |].
    rewrite <- seq_shift, map_map. apply map_ext. intros k. lia.
Qed.

(** X26: with a positive capacity, [addDataPoints(count)] appends [count]
    samples and trims once: the buffer becomes the last [maxDataPoints] of
    the old samples followed by the new ones.  The new timestamps follow
    the last sample of the buffer ([now] when it is empty) in steps of
    [baseTime + 100], for a start and a base time that are not negative and
    as long as the last new timestamp is at most [Number.MAX_SAFE_INTEGER],
    where the additions are exact.  The timestamp cursor [lastTimestampRef]
    of the streaming interval is not moved. *)
Theorem addDataPoints_appends (rnd : nat -> Q) (sin : Q -> Q) (now : Z) (count : nat)
    (s : DataStream.Stream) :
  0 < DataStream.opt_maxDataPoints s ->
  let s' := DataStream.addDataPoints rnd sin now count s in
  let lastTs := match DataStream.lastTimestamp (DataStream.data s) with
                | Some ts => ts
                | None => now
                end in
  0 <= lastTs ->
  0 <= DataGenerator.baseTime (DataStream.generatorRef s) ->
  lastTs + Z.of_nat count * (DataGenerator.baseTime (DataStream.generatorRef s) + 100)
  <= JS.MAX_SAFE_INTEGER ->
  (exists newPoints,
      length newPoints = count
      /\ map timestamp newPoints
         = map (fun k => lastTs + (Z.of_nat k + 1)
                                  * (DataGenerator.baseTime (DataStream.generatorRef s) + 100))
               (seq 0 count)
      /\ DataStream.data s'
         = lastn (Z.to_nat (DataStream.opt_maxDataPoints s)) (DataStream.data s ++ newPoints))
  /\ Z.of_nat (length (DataStream.data s')) <= DataStream.opt_maxDataPoints s
  /\ DataStream.lastTimestampRef s' = DataStream.lastTimestampRef s
  /\ DataStream.isStreaming s' = DataStream.isStreaming s.
Proof.
  intros Hmax s' lastTs Hstart Hbase Hsafe.
  unfold s', DataStream.addDataPoints, DataStream.withGenerator.
  fold (DataStream.withDefault now (DataStream.lastTimestamp (DataStream.data s))).
  assert (Hl : DataStream.withDefault now (DataStream.lastTimestamp (DataStream.data s))
               = lastTs).
  { unfold lastTs, DataStream.withDefault.
    destruct (DataStream.lastTimestamp (DataStream.data s)); reflexivity. }
  rewrite Hl.
  destruct (addDataPoints_loop_timestamps rnd sin count lastTs
              (DataStream.generatorRef s) (DataStream.draws s)) as (Hts & _).
  destruct (DataStream.addDataPoints_loop rnd sin count lastTs
              (DataStream.generatorRef s, DataStream.draws s)) as [pts [g' n']].
  cbn [fst snd] in Hts.
  cbn [DataStream.setData DataStream.data DataStream.opt_maxDataPoints
       DataStream.lastTimestampRef DataStream.isStreaming].
  assert (Hd : DataStream.appendPoints (DataStream.opt_maxDataPoints s) (DataStream.data s) pts
               = lastn (Z.to_nat (DataStream.opt_maxDataPoints s)) (DataStream.data s ++ pts)).
  { apply appendPoints_lastn. exact Hmax. }
  split; [| split; [| split; reflexivity]].
  - exists pts. split; [| split; [exact Hts | exact Hd]].
    rewrite <- (length_map timestamp), Hts, length_map, length_seq. reflexivity.
  - rewrite Hd, lastn_length. lia.
Qed.

Lemma addDataPoints_appends_witness :
  let s := {| DataStream.opt_updateInterval := 100;
              DataStream.opt_maxDataPoints := 2;
              DataStream.opt_initialCount := 0%nat;
              DataStream.data := [];
              DataStream.isStreaming := false;
              DataStream.generatorRef := DataGenerator.new 5;
              DataStream.lastTimestampRef := 7;
              DataStream.draws := 0%nat |} in
  let s' := DataStream.addDataPoints (fun _ => (1 # 2)%Q) (fun _ => 0%Q) 1000 3 s in
  map timestamp (DataStream.data s') = [1210; 1315]
  /\ DataStream.lastTimestampRef s' = 7.
Proof.
  cbv zeta. split; [reflexivity |].
  pose proof (addDataPoints_appends (fun _ => (1 # 2)%Q) (fun _ => 0%Q) 1000 3
    {| DataStream.opt_updateInterval := 100;
       DataStream.opt_maxDataPoints := 2;
       DataStream.opt_initialCount := 0%nat;
       DataStream.data := [];
       DataStream.isStreaming := false;
       DataStream.generatorRef := DataGenerator.new 5;
       DataStream.lastTimestampRef := 7;
       DataStream.draws := 0%nat |} eq_refl) as H.
  cbv zeta in H.
  destruct H as (_ & _ & H & _);
    [discriminate | discriminate | vm_compute; discriminate | exact H].
Defined.

(** ** Grid and axes *)

Lemma tenth_bounds (i : nat) : (i < 11)%nat -> (0 <= tenth i)%Q /\ (tenth i <= 1)%Q.
Proof.
  intros Hi. unfold tenth. split.
  - apply Qle_shift_div_l; [reflexivity |]. rewrite Qmult_0_l, <- (Zle_Qle 0). lia.
  - apply Qle_shift_div_r; [reflexivity |]. rewrite Qmult_1_l, <- (Zle_Qle _ 10). lia.
Qed.

(** X27: for a display rectangle of positive width and height, every axis
    label of [drawAxes] shows the data coordinate that [canvasToData]
    assigns to the position it is drawn at; the labels stand on the grid
    lines of [drawGrid], all of which lie inside the rectangle; and the
    first and last x labels are [xMin] at the left edge and [xMax] at the
    right edge. *)
Theorem axis_labels_match_mapper (bounds : ChartBounds) (viewport : Viewport) :
  (0 < width bounds)%Q -> (0 < height bounds)%Q ->
  (forall ts x, In (ts, x) (xAxisLabels bounds viewport) ->
     (forall y, (coord_timestamp (canvasToData x y bounds viewport) == ts)%Q)
     /\ In x (gridVerticals bounds)
     /\ (bx bounds <= x)%Q /\ (x <= bx bounds + width bounds)%Q)
  /\ (forall v y, In (v, y) (yAxisLabels bounds viewport) ->
        (forall x, (coord_value (canvasToData x y bounds viewport) == v)%Q)
        /\ In y (gridHorizontals bounds)
        /\ (by_ bounds <= y)%Q /\ (y <= by_ bounds + height bounds)%Q)
  /\ (exists ts x, nth_error (xAxisLabels bounds viewport) 0 = Some (ts, x)
                   /\ (ts == xMin viewport)%Q /\ (x == bx bounds)%Q)
  /\ (exists ts x, nth_error (xAxisLabels bounds viewport) 10 = Some (ts, x)
                   /\ (ts == xMax viewport)%Q /\ (x == bx bounds + width bounds)%Q).
Proof.
  intros Hw Hh. split; [| split; [| split]].
  - intros ts x Hin. unfold xAxisLabels in Hin. apply in_map_iff in Hin.
    destruct Hin as (i & [= <- <-] & Hi). apply in_seq in Hi.
    destruct (tenth_bounds i ltac:(lia)) as [H0 H1].
    split; [| split; [| split]].
    + intros y. unfold canvasToData. cbn [coord_timestamp]. field. lra.
    + unfold gridVerticals. apply (in_map (fun i => (bx bounds + tenth i * width bounds)%Q)).
      apply in_seq. lia.
    + set (f := tenth i) in *. clearbody f. nra.
    + set (f := tenth i) in *. clearbody f. nra.
  - intros v y Hin. unfold yAxisLabels in Hin. apply in_map_iff in Hin.
    destruct Hin as (i & [= <- <-] & Hi). apply in_seq in Hi.
    destruct (tenth_bounds i ltac:(lia)) as [H0 H1].
    split; [| split; [| split]].
    + intros x. unfold canvasToData. cbn [coord_value]. field. lra.
    + unfold gridHorizontals.
      apply (in_map (fun i => (by_ bounds + height bounds - tenth i * height bounds)%Q)).
      apply in_seq. lia.
    + set (f := tenth i) in *. clearbody f. nra.
    + set (f := tenth i) in *. clearbody f. nra.
  - eexists. eexists. split; [reflexivity |]. unfold tenth. split; field.
  - eexists. eexists. split; [reflexivity |]. unfold tenth. split; field.
Qed.

Lemma axis_labels_match_mapper_witness :
  let bounds := {| bx := 60; by_ := 20; width := 720; height := 340 |} in
  let viewport := {| xMin := 0; xMax := 10; yMin := 0; yMax := 20 |} in
  (coord_timestamp (canvasToData 276 360 bounds viewport) == 3)%Q.
Proof.
  cbv zeta.
  destruct (axis_labels_match_mapper
              {| bx := 60; by_ := 20; width := 720; height := 340 |}
              {| xMin := 0; xMax := 10; yMin := 0; yMax := 20 |} eq_refl eq_refl)
    as (Hx & _).
  destruct (Hx (0 + tenth 3 * (10 - 0))%Q (60 + tenth 3 * 720)%Q) as (H & _).
  { unfold xAxisLabels. cbn [xMin xMax bx width].
    apply (in_map (fun i => ((0 + tenth i * (10 - 0))%Q, (60 + tenth i * 720)%Q)) (seq 0 11) 3%nat).
    apply in_seq. lia. }
  specialize (H 360%Q).
  assert (E1 : (60 + tenth 3 * 720 == 276)%Q) by reflexivity.
  assert (E2 : (0 + tenth 3 * (10 - 0) == 3)%Q) by reflexivity.
  rewrite <- E2, <- H. unfold canvasToData. cbn [coord_timestamp bx width xMin xMax].
  rewrite E1. reflexivity.
Defined.

(** ** Heatmap *)

(** *** The cell keys read back *)







(** *** The cell map *)




Section HeatmapFacts.

Variable bounds : ChartBounds.
Variable viewport : Viewport.
Variable cellSize : Q.




End HeatmapFacts.




(** *** Colours *)

Lemma floor_between (lo hi : Z) (x : Q) :
  (inject_Z lo <= x)%Q -> (x <= inject_Z hi)%Q -> lo <= Qfloor x <= hi.
Proof.
  intros H1 H2. split.
  - rewrite <- (Qfloor_Z lo). apply Qfloor_resp_le. exact H1.
  - rewrite <- (Qfloor_Z hi). apply Qfloor_resp_le. exact H2.
Qed.

(** X29: the heatmap's colour of a value between the least and the
    greatest value of the data has its red channel in [52, 255], its green
    channel in [84, 100] and its blue channel in [50, 209]; the least value
    gets (52, 84, 209) and the greatest (255, 100, 50); and when all values
    of the data are equal every value gets the colour [rgb(52, 84, 209)]. *)
Theorem heatmap_colour_range (d : DataPoint) (ds : list DataPoint) (v : Q) :
  let lo := JS.Math_min (value d) (map value ds) in
  let hi := JS.Math_max (value d) (map value ds) in
  (lo <= v)%Q -> (v <= hi)%Q ->
  ((lo == hi)%Q -> Heatmap.getColor (d :: ds) v = "rgb(52, 84, 209)"%string)
  /\ ((lo < hi)%Q ->
      exists r g b,
        Heatmap.getColor (d :: ds) v = Heatmap.rgb (r, g, b)
        /\ 52 <= r <= 255 /\ 84 <= g <= 100 /\ 50 <= b <= 209
        /\ ((v == lo)%Q -> (r, g, b) = (52, 84, 209))
        /\ ((v == hi)%Q -> (r, g, b) = (255, 100, 50))).
Proof.
  intros lo hi Hlo Hhi. unfold Heatmap.getColor. fold lo hi. split.
  - intros E. assert (Hb : Qeq_bool (hi - lo) 0 = true) by (apply Qeq_bool_iff; lra).
    rewrite Hb. reflexivity.
  - intros Hlt.
    assert (Hb : Qeq_bool (hi - lo) 0 = false).
    { destruct (Qeq_bool (hi - lo) 0) eqn:E; [| reflexivity].
      apply Qeq_bool_iff in E. lra. }
    rewrite Hb. unfold Heatmap.channels, JS.Math_floor.
    destruct (fraction_bounds lo hi v Hlt Hlo Hhi) as [H0 H1].
    set (n := ((v - lo) / (hi - lo))%Q) in *.
    assert (E0 : (v == lo)%Q -> (n == 0)%Q) by (intros E; unfold n; rewrite E; field; lra).
    assert (E1 : (v == hi)%Q -> (n == 1)%Q) by (intros E; unfold n; rewrite E; field; lra).
    clearbody n.
    eexists. eexists. eexists. split; [reflexivity |].
    split; [apply floor_between; unfold inject_Z; lra |].
    split; [apply floor_between; unfold inject_Z; lra |].
    split; [apply floor_between; unfold inject_Z; lra |].
    split.
    + intros E. specialize (E0 E).
      rewrite (Qfloor_comp (52 + (255 - 52) * n) (inject_Z 52)) by (rewrite E0; reflexivity).
      rewrite (Qfloor_comp (84 + (100 - 84) * n) (inject_Z 84)) by (rewrite E0; reflexivity).
      rewrite (Qfloor_comp (209 + (50 - 209) * n) (inject_Z 209)) by (rewrite E0; reflexivity).
      rewrite !Qfloor_Z. reflexivity.
    + intros E. specialize (E1 E).
      rewrite (Qfloor_comp (52 + (255 - 52) * n) (inject_Z 255)) by (rewrite E1; reflexivity).
      rewrite (Qfloor_comp (84 + (100 - 84) * n) (inject_Z 100)) by (rewrite E1; reflexivity).
      rewrite (Qfloor_comp (209 + (50 - 209) * n) (inject_Z 50)) by (rewrite E1; reflexivity).
      rewrite !Qfloor_Z. reflexivity.
Qed.

Lemma heatmap_colour_range_witness :
  let d := {| timestamp := 5; value := 10; category := "pressure"; metadata := None |} in
  let e := {| timestamp := 9; value := 30; category := "pressure"; metadata := None |} in
  Heatmap.getColor [d; e] 20 = "rgb(153, 92, 129)"%string
  /\ exists r g b, Heatmap.getColor [d; e] 20 = Heatmap.rgb (r, g, b)
                   /\ 52 <= r <= 255 /\ 84 <= g <= 100 /\ 50 <= b <= 209.
Proof.
  cbv zeta. split; [reflexivity |].
  destruct (heatmap_colour_range
    {| timestamp := 5; value := 10; category := "pressure"; metadata := None |}
    [ {| timestamp := 9; value := 30; category := "pressure"; metadata := None |} ]
    20 ltac:(discriminate) ltac:(discriminate)) as (_ & H).
  destruct (H eq_refl) as (r & g & b & Hc & Hr & Hg & Hb & _).
  exists r, g, b. repeat split; try apply Hr; try apply Hg; try apply Hb. exact Hc.
Defined.
